(** * BTVNanoCommissioning workflows: selection, weights and histogram fills

    A shallow embedding of the two coffea processors

      - [workflows/ctag_eWc_valid_sf.py]  (channel "ectag_Wc_sf", module [EWc])
      - [workflows/ttdilep_valid_sf.py]   (channel "ttdilep_sf",  module [TTdilep])

    Columns of the event batch (awkward / numpy arrays) are lists indexed by
    event; jagged columns are lists of lists; option-typed columns (the result
    of [ak.pad_none] followed by [[:, 0]]) are lists of [option].  Floating
    point numbers are embedded as rationals [Q]; the [int32] branches are
    integers [Z], and their products wrap around as those of numpy do. *)

From Stdlib Require Import List Bool ZArith QArith Qabs Qround String Lia Permutation.
Import ListNotations.

Local Open Scope string_scope.
Local Open Scope list_scope.
Local Open Scope Q_scope.

(* ------------------------------------------------------------------ *)
(** * Array primitives (numpy / awkward) *)

Module Ak.

(** Elementwise binary operator on two columns of equal length. *)
Fixpoint map2 {A B C : Type} (f : A -> B -> C) (xs : list A) (ys : list B) : list C :=
  match xs, ys with
  | x :: xs', y :: ys' => f x y :: map2 f xs' ys'
  | _, _ => []
  end.

(** [np.ones(n)], [np.zeros(n, dtype="bool")]. *)
Definition ones (n : nat) : list Q := repeat 1 n.
Definition zeros_bool (n : nat) : list bool := repeat false n.
Definition ones_bool (n : nat) : list bool := repeat true n.

(** [a & b] on option-typed boolean columns: a missing operand gives a
    missing result (awkward propagates [None] through every ufunc). *)
Definition and_opt (a b : option bool) : option bool :=
  match a, b with
  | Some x, Some y => Some (x && y)
  | _, _ => None
  end.

Definition or_opt (a b : option bool) : option bool :=
  match a, b with
  | Some x, Some y => Some (x || y)
  | _, _ => None
  end.

(** [ak.fill_none(x, False)] at one event. *)
Definition fill_none_false (a : option bool) : bool :=
  match a with
  | Some b => b
  | None => false
  end.

(** [ak.count(col, axis=1)]: the number of entries that are not missing. *)
Definition count {A : Type} (xs : list (option A)) : nat :=
  List.length (filter (fun x => match x with Some _ => true | None => false end) xs).

(** [ak.count(col, axis=1)] on a column that has no missing entries. *)
Definition count_all {A : Type} (xs : list A) : nat := List.length xs.

(** A binary numpy operator applied to option-typed operands. *)
Definition lift2 {A B C : Type} (f : A -> B -> C) (a : option A) (b : option B) : option C :=
  match a, b with
  | Some x, Some y => Some (f x y)
  | _, _ => None
  end.

(** [ak.all(col, axis=...)] over the entries of one row; missing entries are
    skipped. *)
Definition all_opt {A : Type} (p : A -> bool) (xs : list (option A)) : bool :=
  forallb (fun x => match x with Some a => p a | None => true end) xs.

(** [ak.num(col, axis=1)]. *)
Definition num {A : Type} (xs : list A) : nat := List.length xs.

(** [ak.pad_none(col, 1, axis=1)] at one event: a list shorter than one entry
    is padded with a missing value. *)
Definition pad_none1 {A : Type} (xs : list A) : list (option A) :=
  match xs with
  | [] => [None]
  | _ => map Some xs
  end.

(** [col[:, 0]] on a padded column, at one event. *)
Definition first {A : Type} (xs : list (option A)) : option A :=
  match xs with
  | x :: _ => x
  | [] => None
  end.

(** [ak.firsts(col)] at one event. *)
Definition firsts {A : Type} (xs : list A) : option A := hd_error xs.

(** [col[mask]] : boolean-mask selection of the events of a column. *)
Fixpoint select {A : Type} (mask : list bool) (col : list A) : list A :=
  match mask, col with
  | m :: mask', x :: col' => if m then x :: select mask' col' else select mask' col'
  | _, _ => []
  end.

(** [ak.broadcast_arrays(w, jagged)[0]]: the per-event scalar repeated once
    per entry of the jagged column. *)
Definition broadcast {W A : Type} (w : list W) (jag : list (list A)) : list (list W) :=
  map2 (fun wi row => repeat wi (List.length row)) w jag.

(** [helpers.func.flatten] ([ak.flatten(x, axis=None)]) of a jagged column. *)
Definition flatten {A : Type} (jag : list (list A)) : list A := List.concat jag.

(** [helpers.func.flatten] of a column with missing entries: they are
    dropped. *)
Definition drop_none {A : Type} (xs : list (option A)) : list A :=
  flat_map (fun x => match x with Some a => [a] | None => [] end) xs.
Definition flatten_none {A : Type} (jag : list (list (option A))) : list A :=
  drop_none (List.concat jag).

(** [np.where(c, a, b)] at one entry. *)
Definition where_ {A : Type} (c : bool) (a b : A) : A := if c then a else b.

(** [ak.sum] of a flat column. *)
Definition sum (xs : list Q) : Q := fold_right Qplus 0 xs.

(** [x < y], [x > y] on numbers. *)
Definition ltb (x y : Q) : bool := negb (Qle_bool y x).
Definition gtb (x y : Q) : bool := ltb y x.
Definition leb (x y : Q) : bool := Qle_bool x y.

End Ak.

(* ------------------------------------------------------------------ *)
(** * String helpers used by the name-keyed dispatch *)

Module Str.

(** [sub in s]. *)
Fixpoint contains (sub s : string) : bool :=
  String.prefix sub s ||
  match s with
  | EmptyString => false
  | String _ s' => contains sub s'
  end.

(** Drop the first [n] characters. *)
Fixpoint drop (n : nat) (s : string) : string :=
  match n, s with
  | O, _ => s
  | S n', String _ s' => drop n' s'
  | S _, EmptyString => EmptyString
  end.

(** [s.replace(old, "")] for a non-empty [old]: every non-overlapping
    occurrence, scanning from the left, is removed.  [fuel] bounds the scan by
    the length of [s]. *)
Fixpoint remove_fuel (fuel : nat) (old s : string) : string :=
  match fuel with
  | O => s
  | S fuel' =>
      match s with
      | EmptyString => EmptyString
      | String c s' =>
          if String.prefix old s
          then remove_fuel fuel' old (drop (String.length old) s)
          else String c (remove_fuel fuel' old s')
      end
  end.

Definition remove (old s : string) : string :=
  match old with
  | EmptyString => s
  | _ => remove_fuel (String.length s) old s
  end.

End Str.

(* ------------------------------------------------------------------ *)
(** * Data model: the NanoAOD event batch *)

(** The value that an [int32] column holds for the integer [z]: numpy wraps
    around on overflow. *)
Definition int32 (z : Z) : Z := ((z + 2147483648) mod 4294967296 - 2147483648)%Z.

(** [a * b] on [int32] columns. *)
Definition mul32 (a b : Z) : Z := int32 (a * b).

(** A four-vector with the [PtEtaPhiMLorentzVector] fields. *)
Record P4 := mkP4 { pt : Q; eta : Q; phi : Q; mass : Q }.

(** An [Electron] or [Muon] record.  Branches other than the kinematic ones
    and the charge are read by name through [lep_branch]; [charge] is an
    [int32] branch. *)
Record Lepton := mkLepton {
  lep_p4 : P4;
  charge : Z;
  lep_branch : string -> Q
}.

(** A [Jet] record; discriminants such as [btagDeepB] are named branches. *)
Record Jet := mkJet {
  jet_p4 : P4;
  hadronFlavour : Z;
  partonFlavour : Z;
  muonIdx1 : Z;
  muonIdx2 : Z;
  jet_branch : string -> Q
}.

Record MET := mkMET { met_pt : Q; met_phi : Q; met_branch : string -> Q }.

(** [lep[name]], [jet[name]], [met[name]]. *)
Definition lep_item (name : string) (l : Lepton) : Q :=
  if String.eqb name "pt" then pt (lep_p4 l)
  else if String.eqb name "eta" then eta (lep_p4 l)
  else if String.eqb name "phi" then phi (lep_p4 l)
  else if String.eqb name "mass" then mass (lep_p4 l)
  else if String.eqb name "charge" then inject_Z (charge l)
  else lep_branch l name.

Definition jet_item (name : string) (j : Jet) : Q :=
  if String.eqb name "pt" then pt (jet_p4 j)
  else if String.eqb name "eta" then eta (jet_p4 j)
  else if String.eqb name "phi" then phi (jet_p4 j)
  else if String.eqb name "mass" then mass (jet_p4 j)
  else if String.eqb name "hadronFlavour" then inject_Z (hadronFlavour j)
  else if String.eqb name "partonFlavour" then inject_Z (partonFlavour j)
  else jet_branch j name.

Definition met_item (name : string) (m : MET) : Q :=
  if String.eqb name "pt" then met_pt m
  else if String.eqb name "phi" then met_phi m
  else met_branch m name.

(** One event.  The types [E] and [M] of the entries of the electron and muon
    collections are [Lepton] in a batch as read, and [option Lepton] once the
    collection has been overwritten by its padded selection. *)
Record Event (E M : Type) := mkEvent {
  run : Z;
  luminosityBlock : Z;
  genWeight : Q;
  HLT : string -> bool;
  Electron : list E;
  Muon : list M;
  Jet_ : list Jet;
  MET_ : MET;
  Pileup_nPU : Q
}.
Arguments mkEvent {E M}.
Arguments run {E M}.
Arguments luminosityBlock {E M}.
Arguments genWeight {E M}.
Arguments HLT {E M}.
Arguments Electron {E M}.
Arguments Muon {E M}.
Arguments Jet_ {E M}.
Arguments MET_ {E M}.
Arguments Pileup_nPU {E M}.

(** The batch: its metadata, its schema (which optional branches exist) and
    its events.  [genWeight] of an event is meaningful only when the schema
    has the branch. *)
Record Batch (E M : Type) := mkBatch {
  dataset : string;
  has_genWeight : bool;
  HLT_fields : list string;
  Electron_fields : list string;
  Muon_fields : list string;
  events : list (Event E M)
}.
Arguments mkBatch {E M}.
Arguments dataset {E M}.
Arguments has_genWeight {E M}.
Arguments HLT_fields {E M}.
Arguments Electron_fields {E M}.
Arguments Muon_fields {E M}.
Arguments events {E M}.

(** [len(events)]. *)
Definition len {E M : Type} (b : Batch E M) : nat := List.length (events b).

(** [hasattr(events.HLT, trig)]. *)
Definition hasattr_HLT {E M : Type} (b : Batch E M) (trig : string) : bool :=
  existsb (String.eqb trig) (HLT_fields b).

(** [events.HLT[trig]]: the trigger-bit column. *)
Definition HLT_col {E M : Type} (b : Batch E M) (trig : string) : list bool :=
  map (fun e => HLT e trig) (events b).

(** Two batches of one dataset, read with the same schema, concatenated. *)
Definition concat_batch {E M : Type} (a b : Batch E M) : Batch E M :=
  mkBatch (dataset a) (has_genWeight a) (HLT_fields a)
          (Electron_fields a) (Muon_fields a) (events a ++ events b).

Definition same_schema {E M : Type} (a b : Batch E M) : Prop :=
  dataset a = dataset b /\ has_genWeight a = has_genWeight b /\
  HLT_fields a = HLT_fields b /\ Electron_fields a = Electron_fields b /\
  Muon_fields a = Muon_fields b.

(* ------------------------------------------------------------------ *)
(** * Collaborators

    Functions imported from [BTVNanoCommissioning.utils] and [.helpers], the
    vector behaviours of the NanoAOD schema and the calibration tables held
    by the processor.  Their code is outside the two workflows; the workflows
    are embedded over any implementation of them. *)

(** A combined two-discriminant table (as loaded by [load_BTV] for "DeepJetC"
    and "DeepCSVC") and a one-discriminant table with its [eval] method. *)
Record CTable := mkCTable { ct_content : option string -> Z -> Q -> Q -> Q }.
Record BTable := mkBTable { eval : string -> Z -> Q -> Q -> Q -> Q }.

Record Imports := mkImports {
  missing_branch : Batch Lepton Lepton -> Batch Lepton Lepton;
  add_jec : Batch Lepton Lepton -> Batch Lepton Lepton;
  jet_id : Jet -> bool;
  mu_idiso : Lepton -> bool;
  ele_mvatightid : Lepton -> bool;
  ele_cuttightid : Lepton -> bool;
  softmu_mask : Lepton -> bool;
  eleSFs : option Lepton -> Q;
  muSFs : option Lepton -> Q;
  (** [getSF(flav, CvL, CvB, table, syst)]; [None] is the default [syst]. *)
  getSF : Z -> Q -> Q -> CTable -> option string -> Q;
  delta_r : P4 -> P4 -> Q;
  vec_add : P4 -> P4 -> P4
}.

(* ------------------------------------------------------------------ *)
(** * [coffea.analysis_tools.Weights] *)

Module Weights.

Record t := mk {
  _weight : list Q;
  _weights : list (string * list Q)
}.

(** [Weights(size, storeIndividual=True)]. *)
Definition new (size : nat) : t := mk (Ak.ones size) [].

(** [weights.add(name, weight)]. *)
Definition add (name : string) (weight : list Q) (w : t) : t :=
  mk (Ak.map2 Qmult (_weight w) weight) ((name, weight) :: _weights w).

(** [weights.weight()]. *)
Definition weight (w : t) : list Q := _weight w.

(** The names of the registered components. *)
Definition names (w : t) : list string := map fst (_weights w).

End Weights.

(* ------------------------------------------------------------------ *)
(** * Histograms

    The histogram class belongs to coffea.  The embedding records, for each
    [h.fill(...)] call, the columns it was given, and keeps in a histogram the
    weighted entries it has received; a bin content is the sum of the weights
    of the entries that fall in the bin. *)

Module Hist.

(** One [h.fill(flav=..., syst=..., <axis>=..., weight=...)] call.  [fc_flav]
    and [fc_syst] are absent for histograms without that axis. *)
Record FillCall := mkCall {
  fc_syst : option string;
  fc_flav : option (list (option Z));
  fc_val : list (option Q);
  fc_weight : list (option Q)
}.

Record Entry := mkEntry {
  en_syst : option string;
  en_flav : option Z;
  en_val : Q;
  en_weight : Q
}.

Definition t := list Entry.

(** The entries of a call: one per row whose value, weight and (when the
    axis exists) flavour are all present. *)
Fixpoint rows2 (syst : option string) (val w : list (option Q)) : list Entry :=
  match val, w with
  | v :: val', x :: w' =>
      match v, x with
      | Some v, Some x => mkEntry syst None v x :: rows2 syst val' w'
      | _, _ => rows2 syst val' w'
      end
  | _, _ => []
  end.

Fixpoint rows3 (syst : option string) (flav : list (option Z))
         (val w : list (option Q)) : list Entry :=
  match flav, val, w with
  | f :: flav', v :: val', x :: w' =>
      match f, v, x with
      | Some f, Some v, Some x => mkEntry syst (Some f) v x :: rows3 syst flav' val' w'
      | _, _, _ => rows3 syst flav' val' w'
      end
  | _, _, _ => []
  end.

Definition entries (c : FillCall) : list Entry :=
  match fc_flav c with
  | None => rows2 (fc_syst c) (fc_val c) (fc_weight c)
  | Some flav => rows3 (fc_syst c) flav (fc_val c) (fc_weight c)
  end.

(** [h.fill(...)] and a sequence of fills. *)
Definition fill (h : t) (c : FillCall) : t := h ++ entries c.
Definition fills (h : t) (cs : list FillCall) : t := fold_left fill cs h.

(** Merging two accumulators of one histogram (elementwise addition). *)
Definition add (h1 h2 : t) : t := h1 ++ h2.

(** A bin of the histogram: a predicate on entries, given by the categorical
    labels and the bin of the continuous axis. *)
Record Bin := mkBin {
  bin_syst : option string;
  bin_flav : option Z;
  bin_of_val : Q -> bool
}.

Definition option_eqb {A : Type} (eqb : A -> A -> bool) (x y : option A) : bool :=
  match x, y with
  | Some a, Some b => eqb a b
  | None, None => true
  | _, _ => false
  end.

Definition in_bin (b : Bin) (e : Entry) : bool :=
  option_eqb String.eqb (bin_syst b) (en_syst e) &&
  option_eqb Z.eqb (bin_flav b) (en_flav e) &&
  bin_of_val b (en_val e).

(** Bin content (sum of weights) and its variance store (sum of squared
    weights). *)
Definition sumw (h : t) (b : Bin) : Q :=
  Ak.sum (map en_weight (filter (in_bin b) h)).
Definition sumw2 (h : t) (b : Bin) : Q :=
  Ak.sum (map (fun e => en_weight e * en_weight e) (filter (in_bin b) h)).

End Hist.

(* ------------------------------------------------------------------ *)
(** * The processor instance ([self]) and what [process] returns *)

Record NanoProcessor := mkProcessor {
  isCorr : bool;
  isJERC : bool;
  lumiMask : Z -> Z -> bool;
  _deepjetc_sf : CTable;
  _deepjetb_sf : BTable;
  _deepcsvc_sf : CTable;
  _deepcsvb_sf : BTable;
  _pu : Q -> Q;
  (** The histograms returned by [histogrammer(channel)], in order. *)
  _hist_event_dict : list (string * Hist.t)
}.

(** [ValueError("HLT paths:", triggers, " are all invalid in", dataset)]. *)
Record ValueError := mkValueError { ve_triggers : list string; ve_dataset : string }.

Record Output := mkOutput {
  sumw : Q;
  hists : list (string * Hist.t)
}.

(** The exceptions of [process] that the embedding follows: the [ValueError]
    of the HLT block, the [KeyError] of a dictionary lookup with an absent
    key, and the [ValueError] that [Weights.add] raises when the column it is
    given is empty (it takes the minimum and the maximum of the column for
    its statistics). *)
Inductive Exn :=
| HLTError (e : ValueError)
| KeyError (key : string)
| WeightsError (name : string).

(** The outcome of [process]: the exception raised, or the lines printed and
    the accumulator returned as [{dataset: output}]. *)
Inductive Outcome :=
| Raised (e : Exn)
| Returned (printed : list (list string)) (ds : string) (out : Output).

(** [d[key]] on a dictionary kept as an association list. *)
Fixpoint dict_get {V : Type} (d : list (string * V)) (key : string) : Exn + V :=
  match d with
  | [] => inl (KeyError key)
  | (k, v) :: d' => if String.eqb k key then inr v else dict_get d' key
  end.

(** [output[key].fill(...)]: the histogram stored under [key] receives the
    call. *)
Fixpoint fill_at (out : list (string * Hist.t)) (key : string) (c : Hist.FillCall)
  : Exn + list (string * Hist.t) :=
  match out with
  | [] => inl (KeyError key)
  | (k, h) :: out' =>
      if String.eqb k key then inr ((k, Hist.fill h c) :: out')
      else match fill_at out' key c with
           | inl e => inl e
           | inr r => inr ((k, h) :: r)
           end
  end.

(** Sequencing of steps that may raise. *)
Definition bind {A B : Type} (m : Exn + A) (k : A -> Exn + B) : Exn + B :=
  match m with
  | inl e => inl e
  | inr a => k a
  end.

Fixpoint mapM {A B : Type} (f : A -> Exn + B) (xs : list A) : Exn + list B :=
  match xs with
  | [] => inr []
  | x :: xs' => bind (f x) (fun y => bind (mapM f xs') (fun ys => inr (y :: ys)))
  end.

(** The statistics of [weights.add(name, column)]. *)
Definition add_stats (name : string) (column : list Q) : Exn + unit :=
  match column with
  | [] => inl (WeightsError name)
  | _ :: _ => inr tt
  end.

(** [if not isRealData: weights.add("genweight", events.genWeight)]: the
    step raises on an empty simulated batch.  The columns registered after it
    have the length of the batch, so that they are not empty once this one is
    not. *)
Definition register_genweight {E M : Type} (isRealData : bool) (b : Batch E M)
  : Exn + unit :=
  if negb isRealData then add_stats "genweight" (map genWeight (events b)) else inr tt.

(** A sequence of [output[key].fill(...)] statements. *)
Fixpoint fill_all (out : list (string * Hist.t)) (cs : list (string * Hist.FillCall))
  : Exn + list (string * Hist.t) :=
  match cs with
  | [] => inr out
  | (key, c) :: cs' => bind (fill_at out key c) (fun out' => fill_all out' cs')
  end.

(** A [collections.defaultdict(dict)] keyed by jet index: for each index, the
    variation names in insertion order with their per-event columns. *)
Definition SFdict := list (nat * list (string * list (option Q))).

(** [d[i]] on a [defaultdict(dict)]: an absent index gives the empty dict. *)
Fixpoint dd_get (d : SFdict) (i : nat) : list (string * list (option Q)) :=
  match d with
  | [] => []
  | (k, v) :: d' => if Nat.eqb k i then v else dd_get d' i
  end.

(** The flavour label of a simulated jet:
    [hadronFlavour + 1 * ((partonFlavour == 0) & (hadronFlavour == 0))]. *)
Definition flavour (j : Jet) : Z :=
  (hadronFlavour j +
   1 * (if Z.eqb (partonFlavour j) 0 && Z.eqb (hadronFlavour j) 0 then 1 else 0))%Z.

(** [np.where(x < 0, -0.2, x)]. *)
Definition clip (x : Q) : Q := Ak.where_ (Ak.ltb x 0) (-2 # 10) x.

(** [name in fields]. *)
Definition in_fields (name : string) (fields : list string) : bool :=
  existsb (String.eqb name) fields.

(* ------------------------------------------------------------------ *)
(** * The HLT block (identical in both workflows up to the trigger list) *)

Definition checkHLT {E M : Type} (b : Batch E M) (triggers : list string) : list bool :=
  map (hasattr_HLT b) triggers.

Definition trig_arrs {E M : Type} (b : Batch E M) (triggers : list string) : list (list bool) :=
  map (HLT_col b) (filter (hasattr_HLT b) triggers).

Definition req_trig {E M : Type} (b : Batch E M) (triggers : list string) : list bool :=
  fold_left (Ak.map2 orb) (trig_arrs b triggers) (Ak.zeros_bool (len b)).

(** [Inl e]: raised; [inr (printed, req_trig)]: continued. *)
Definition hlt_block {E M : Type} (ds : string) (b : Batch E M) (triggers : list string)
  : ValueError + (list (list string) * list bool) :=
  let chk := checkHLT b triggers in
  if forallb (fun c => Bool.eqb c false) chk then
    inl (mkValueError triggers ds)
  else
    let printed :=
      if existsb (fun c => Bool.eqb c false) chk
      then [Ak.select (map negb chk) triggers]
      else [] in
    inr (printed, req_trig b triggers).

(* ------------------------------------------------------------------ *)
(** * Workflow [ctag_eWc_valid_sf.py] *)

Module EWc.

Section Process.

Variable imp : Imports.
Variable self : NanoProcessor.

Definition triggers : list string := ["Ele32_WPTight_Gsf_L1DoubleEG"].

(** ** Object selection, event by event *)

(** [events.Electron[(events.Electron.pt > 34) & ele_mvatightid(...)]] *)
Definition iso_ele_coll (e : Event Lepton Lepton) : list Lepton :=
  filter (fun l => Ak.gtb (pt (lep_p4 l)) 34 && ele_mvatightid imp l) (Electron e).

(** [ak.pad_none(iso_ele, 1, axis=1)[:, 0]] *)
Definition iso_ele (e : Event Lepton Lepton) : option Lepton :=
  Ak.first (Ak.pad_none1 (iso_ele_coll e)).

(** [events.Jet[jet_id & ak.all(events.Jet.metric_table(iso_ele) > 0.5, axis=2)]] *)
Definition event_jet (e : Event Lepton Lepton) : list Jet :=
  filter (fun j => jet_id imp j &&
                   Ak.all_opt (fun l => Ak.gtb (delta_r imp (jet_p4 j) (lep_p4 l)) (1#2))
                              [iso_ele e])
         (Jet_ e).

(** [ak.pad_none(events.Muon[softmu_mask(...)], 1, axis=1)] *)
Definition soft_muon_coll (e : Event Lepton Lepton) : list Lepton :=
  filter (softmu_mask imp) (Muon e).
Definition soft_muon (e : Event Lepton Lepton) : list (option Lepton) :=
  Ak.pad_none1 (soft_muon_coll e).

(** [event_jet[ak.all(event_jet.metric_table(soft_muon) <= 0.4, axis=2)
              & ((event_jet.muonIdx1 != -1) | (event_jet.muonIdx2 != -1))]] *)
Definition mu_jet_coll (e : Event Lepton Lepton) : list Jet :=
  filter (fun j => Ak.all_opt (fun m => Ak.leb (delta_r imp (jet_p4 j) (lep_p4 m)) (4#10))
                              (soft_muon e) &&
                   (negb (Z.eqb (muonIdx1 j) (-1)) || negb (Z.eqb (muonIdx2 j) (-1))))
         (event_jet e).
Definition mu_jet (e : Event Lepton Lepton) : list (option Jet) :=
  Ak.pad_none1 (mu_jet_coll e).

Definition dilep_mu (e : Event Lepton Lepton) : list Lepton :=
  filter (fun l => Ak.gtb (pt (lep_p4 l)) 12 && mu_idiso imp l) (Muon e).
Definition dilep_ele (e : Event Lepton Lepton) : list Lepton :=
  filter (fun l => Ak.gtb (pt (lep_p4 l)) 15 && ele_mvatightid imp l) (Electron e).

(** The [MET] four-vector built with [ak.zip]. *)
Definition MET_p4 (e : Event Lepton Lepton) : P4 :=
  mkP4 (met_pt (MET_ e)) 0 (met_phi (MET_ e)) 0.

(** ** The per-event requirements, as columns *)

Section Requirements.

Variable isRealData : bool.
Variable b : Batch Lepton Lepton.

Definition req_lumi : list bool :=
  if isRealData
  then map (fun e => lumiMask self (run e) (luminosityBlock e)) (events b)
  else Ak.ones_bool (len b).

Definition req_ele : list bool :=
  map (fun e => Nat.eqb (Ak.count_all (iso_ele_coll e)) 1) (events b).

Definition req_jets : list bool :=
  map (fun e => Nat.leb 1 (Ak.num (event_jet e)) && Nat.leb (Ak.num (event_jet e)) 3)
      (events b).

Definition req_softmu : list bool :=
  map (fun e => Nat.leb 1 (Ak.count_all (soft_muon_coll e))) (events b).

Definition req_mujet : list bool :=
  map (fun e => Nat.leb 1 (Ak.num (mu_jet_coll e))) (events b).

(** [(soft_muon[:, 0].pt / mu_jet[:, 0].pt) < 0.6] *)
Definition req_pTratio : list (option bool) :=
  map (fun e =>
         Ak.lift2 (fun m j => Ak.ltb (pt (lep_p4 m) / pt (jet_p4 j)) (6#10))
                  (Ak.first (soft_muon e)) (Ak.first (mu_jet e)))
      (events b).

Definition req_QCDveto : list (option bool) :=
  map (fun e =>
         let el := iso_ele e in
         let ratio := Ak.lift2 (fun l j => pt (lep_p4 l) / pt (jet_p4 j))
                               el (Ak.first (mu_jet e)) in
         Ak.and_opt
           (Ak.and_opt
              (Ak.and_opt
                 (Ak.and_opt
                    (option_map (fun l => Ak.ltb (lep_branch l "pfRelIso03_all") (5#100)) el)
                    (option_map (fun l => Ak.ltb (Qabs (lep_branch l "dz")) (1#100)) el))
                 (option_map (fun l => Ak.ltb (Qabs (lep_branch l "dxy")) (2#1000)) el))
              (option_map (fun l => Ak.ltb (lep_branch l "ip3d") (2#10)) el))
           (Ak.or_opt (option_map (fun r => Ak.ltb r 0) ratio)
                      (option_map (fun r => Ak.gtb r (75#100)) ratio)))
      (events b).

Definition req_dilepveto : list bool :=
  map (fun e => negb (Nat.eqb (Ak.count_all (dilep_mu e) + Ak.count_all (dilep_ele e)) 2))
      (events b).

(** [(MET + iso_ele).mass > 55] *)
Definition req_Wmass : list (option bool) :=
  map (fun e =>
         option_map (fun l => Ak.gtb (mass (vec_add imp (MET_p4 e) (lep_p4 l))) 55)
                    (iso_ele e))
      (events b).

(** [a & b] on columns. *)
Definition and_col (x y : list (option bool)) : list (option bool) :=
  Ak.map2 Ak.and_opt x y.

(** The ten requirements in the order of the source expression. *)
Definition requirements (rt : list bool) : list (list (option bool)) :=
  [ map Some rt; map Some req_lumi; map Some req_ele; map Some req_jets;
    map Some req_softmu; map Some req_mujet; req_Wmass; map Some req_dilepveto;
    req_QCDveto; req_pTratio ].

(** [event_level = req_trig & req_lumi & ... & req_pTratio] followed by
    [ak.fill_none(event_level, False)]. *)
Definition event_level_raw (rt : list bool) : list (option bool) :=
  and_col (and_col (and_col (and_col (and_col (and_col (and_col (and_col (and_col
    (map Some rt) (map Some req_lumi)) (map Some req_ele)) (map Some req_jets))
    (map Some req_softmu)) (map Some req_mujet)) req_Wmass) (map Some req_dilepveto))
    req_QCDveto) req_pTratio.

Definition event_level (rt : list bool) : list bool :=
  map Ak.fill_none_false (event_level_raw rt).

End Requirements.

(** ** Selected objects *)

Section Selected.

Variable isRealData : bool.
Variable b : Batch Lepton Lepton.
(** The final mask [event_level]. *)
Variable lvl : list bool.

Definition shmu : list (option Lepton) := Ak.select lvl (map iso_ele (events b)).
Definition sjets : list (list Jet) := Ak.select lvl (map event_jet (events b)).
Definition smet : list P4 := Ak.select lvl (map MET_p4 (events b)).
Definition sMET : list MET := Ak.select lvl (map MET_ (events b)).
(** [mu_jet[event_level][:, 0]], [soft_muon[event_level][:, 0]] *)
Definition smuon_jet : list (option Jet) :=
  map Ak.first (Ak.select lvl (map mu_jet (events b))).
Definition ssmu : list (option Lepton) :=
  map Ak.first (Ak.select lvl (map soft_muon (events b))).

Definition lep_add (x y : option Lepton) : option P4 :=
  Ak.lift2 (fun l m => vec_add imp (lep_p4 l) (lep_p4 m)) x y.

Definition sz : list (option P4) := Ak.map2 lep_add shmu ssmu.
Definition sw : list (option P4) :=
  Ak.map2 (fun l m => option_map (fun l => vec_add imp (lep_p4 l) m) l) shmu smet.

(** [shmu.charge * ssmu.charge * -1] *)
Definition osss : list (option Q) :=
  Ak.map2 (Ak.lift2 (fun l m => inject_Z (mul32 (mul32 (charge l) (charge m)) (-1)))) shmu ssmu.

(** [ak.count(sjets.pt, axis=1)] *)
Definition njet : list nat := map (@Ak.count_all Jet) sjets.

(** ** Weights *)

Definition lep1sf : list Q :=
  Ak.map2 (fun c x => Ak.where_ c x 1) lvl
          (map (fun e => eleSFs imp (Ak.firsts (iso_ele_coll e))) (events b)).

Definition lep2sf : list Q :=
  Ak.map2 (fun c x => Ak.where_ c x 1) lvl
          (map (fun e => muSFs imp (Ak.firsts (soft_muon_coll e))) (events b)).

(** The [Weights] object after the two [if] blocks; [w0] is the object
    created at the start of [process]. *)
Definition weights (w0 : Weights.t) : Weights.t :=
  let w1 := if negb isRealData
            then Weights.add "genweight" (map genWeight (events b)) w0
            else w0 in
  if negb isRealData && isCorr self
  then Weights.add "lep2sf" lep2sf
         (Weights.add "lep1sf" lep1sf
            (Weights.add "puweight" (map (fun e => _pu self (Pileup_nPU e)) (events b)) w1))
  else w1.

(** [weights.weight()[event_level] * osss] *)
Definition wsel (w0 : Weights.t) : list (option Q) :=
  Ak.map2 (fun w o => option_map (Qmult w) o)
          (Ak.select lvl (Weights.weight (weights w0))) osss.

(** ** Flavour labels and scale factors *)

Definition genflavor : list (list Z) :=
  if isRealData then map (map (fun _ => 0%Z)) sjets
  else map (map flavour) sjets.

Definition smflav : list (option Z) :=
  if isRealData then map (option_map (fun _ => 0%Z)) smuon_jet
  else map (option_map flavour) smuon_jet.

(** [getSF(jet.hadronFlavour, jet[cvl], jet[cvb], table, syst)] over a column. *)
Definition getSF_col (cvl cvb : string) (table : CTable) (syst : option string)
           (jets : list (option Jet)) : list (option Q) :=
  map (option_map (fun j => getSF imp (hadronFlavour j) (jet_item cvl j) (jet_item cvb j)
                                     table syst)) jets.

(** [table.eval(var, jet.hadronFlavour, abs(jet.eta), jet.pt, discr=jet[d])]. *)
Definition eval_col (table : BTable) (var d : string) (jets : list (option Jet))
  : list (option Q) :=
  map (option_map (fun j => eval table var (hadronFlavour j) (Qabs (eta (jet_p4 j)))
                                 (pt (jet_p4 j)) (jet_item d j))) jets.

Definition jetsfs_c : SFdict :=
  [(0%nat, [("SF", getSF_col "btagDeepFlavCvL" "btagDeepFlavCvB" (_deepjetc_sf self) None smuon_jet);
            ("SFup", getSF_col "btagDeepFlavCvL" "btagDeepFlavCvB" (_deepjetc_sf self)
                               (Some "TotalUncUp") smuon_jet);
            ("SFdn", getSF_col "btagDeepFlavCvL" "btagDeepFlavCvB" (_deepjetc_sf self)
                               (Some "TotalUncDown") smuon_jet)])].

Definition jetsfs_b : SFdict :=
  [(0%nat, [("SF", eval_col (_deepjetb_sf self) "central" "btagDeepFlavB" smuon_jet);
            ("SFup", eval_col (_deepjetb_sf self) "up_jes" "btagDeepFlavB" smuon_jet);
            ("SFdn", eval_col (_deepjetb_sf self) "down_jes" "btagDeepFlavB" smuon_jet)])].

Definition csvsfs_c : SFdict :=
  [(0%nat, [("SF", getSF_col "btagDeepCvL" "btagDeepCvB" (_deepcsvc_sf self) None smuon_jet);
            ("SFup", getSF_col "btagDeepCvL" "btagDeepCvB" (_deepcsvc_sf self)
                               (Some "TotalUncUp") smuon_jet);
            ("SFdn", getSF_col "btagDeepCvL" "btagDeepCvB" (_deepcsvc_sf self)
                               (Some "TotalUncDown") smuon_jet)])].

(** Keys in insertion order: "SFup" is assigned first. *)
Definition csvsfs_b : SFdict :=
  [(0%nat, [("SFup", eval_col (_deepcsvb_sf self) "up_jes" "btagDeepB" smuon_jet);
            ("SF", eval_col (_deepcsvb_sf self) "central" "btagDeepB" smuon_jet);
            ("SFdn", eval_col (_deepcsvb_sf self) "down_jes" "btagDeepB" smuon_jet)])].

Definition disc_list : list (string * SFdict) :=
  [ ("btagDeepB", csvsfs_b); ("btagDeepC", csvsfs_b);
    ("btagDeepFlavB", jetsfs_b); ("btagDeepFlavC", jetsfs_b);
    ("btagDeepCvL", csvsfs_c); ("btagDeepCvB", csvsfs_c);
    ("btagDeepFlavCvL", jetsfs_c); ("btagDeepFlavCvB", jetsfs_c) ].

(** ** The fill loop *)

Variable w0 : Weights.t.

(** [weights.weight()[event_level] * sf * osss] *)
Definition wsel_sf (sf : list (option Q)) : list (option Q) :=
  Ak.map2 (Ak.lift2 Qmult)
          (Ak.map2 (fun w s => option_map (Qmult w) s)
                   (Ak.select lvl (Weights.weight (weights w0))) sf)
          osss.

(** [flatten(ak.broadcast_arrays(weights.weight()[event_level] * osss, sjets["pt"])[0])] *)
Definition wjets : list (option Q) := Ak.flatten (Ak.broadcast (wsel w0) sjets).

(** [np.where(jets[d] < 0, -0.2, jets[d])] over a column of jets. *)
Definition discr_col (d : string) (jets : list (option Jet)) : list (option Q) :=
  map (option_map (fun j => clip (jet_item d j))) jets.

(** The ["noSF"] fill and the fills of the variations registered for jet
    index [i], for the discriminant [d] read on [jets]. *)
Definition btag_calls (i : nat) (d : string) (flav : list (option Z))
           (jets : list (option Jet)) : Exn + list Hist.FillCall :=
  let nominal := Hist.mkCall (Some "noSF") (Some flav) (discr_col d jets) (wsel w0) in
  if negb isRealData && isCorr self then
    bind (dict_get disc_list d) (fun sfs =>
      inr (nominal ::
           map (fun kv => Hist.mkCall (Some (fst kv)) (Some flav) (discr_col d jets)
                                      (wsel_sf (snd kv)))
               (dd_get sfs i)))
  else inr [nominal].

(** The body of [for histname, h in output.items()]: the fill calls that the
    histogram [histname] receives. *)
Definition loop_calls (histname : string) : Exn + list Hist.FillCall :=
  if Str.contains "Deep" histname && negb (Str.contains "btag" histname) then
    inr [Hist.mkCall None (Some (map Some (Ak.flatten genflavor)))
           (map Some (Ak.flatten (map (map (jet_item histname)) sjets))) wjets]
  else if Str.contains "jet_" histname && negb (Str.contains "mu" histname) then
    inr [Hist.mkCall None (Some (map Some (Ak.flatten genflavor)))
           (map Some (Ak.flatten (map (map (jet_item (Str.remove "jet_" histname))) sjets)))
           wjets]
  else if Str.contains "hl_" histname &&
          in_fields (Str.remove "hl_" histname) (Electron_fields b) then
    inr [Hist.mkCall None None
           (map Some (Ak.drop_none
                        (map (option_map (lep_item (Str.remove "hl_" histname))) shmu)))
           (wsel w0)]
  else if Str.contains "soft_l" histname &&
          in_fields (Str.remove "soft_l_" histname) (Muon_fields b) then
    inr [Hist.mkCall None None
           (map Some (Ak.drop_none
                        (map (option_map (lep_item (Str.remove "soft_l_" histname))) ssmu)))
           (wsel w0)]
  else if Str.contains "MET" histname then
    inr [Hist.mkCall None None
           (map (fun m => Some (met_item (Str.remove "MET_" histname) m)) sMET) (wsel w0)]
  else if Str.contains "mujet_" histname then
    inr [Hist.mkCall None (Some smflav)
           (map Some (Ak.drop_none
                        (map (option_map (jet_item (Str.remove "mujet_" histname)))
                             smuon_jet)))
           (wsel w0)]
  else if Str.contains "btagDeep" histname && Str.contains "0" histname then
    btag_calls 0 (Str.remove "_0" histname) smflav smuon_jet
  else if Str.contains "btagDeep" histname && Str.contains "1" histname &&
          forallb (fun i => Nat.ltb 1 i) njet then
    (* sljets = sjets[:, 1]; flav = genflavor[:, 1] *)
    btag_calls 1 (Str.remove "_1" histname)
               (map (fun fs => nth_error fs 1) genflavor)
               (map (fun js => nth_error js 1) sjets)
  else inr [].

Definition loop (out : list (string * Hist.t)) : Exn + list (string * Hist.t) :=
  mapM (fun nh => bind (loop_calls (fst nh))
                       (fun cs => inr (fst nh, Hist.fills (snd nh) cs))) out.

(** ** The fills after the loop *)

(** [flatten(v.pt)] and the like. *)
Definition p4_col (f : P4 -> Q) (v : list (option P4)) : list (option Q) :=
  map Some (Ak.drop_none (map (option_map f) v)).

Definition tail_calls : list (string * Hist.FillCall) :=
  let w := wsel w0 in
  [ ("njet", Hist.mkCall None None (map (fun n => Some (inject_Z (Z.of_nat n))) njet) w);
    ("hl_ptratio",
     Hist.mkCall None (Some (map (fun fs => nth_error fs 0) genflavor))
       (Ak.map2 (Ak.lift2 (fun l j => pt (lep_p4 l) / pt (jet_p4 j)))
                shmu (map (fun js => nth_error js 0) sjets)) w);
    ("soft_l_ptratio",
     Hist.mkCall None (Some smflav)
       (Ak.map2 (Ak.lift2 (fun l j => pt (lep_p4 l) / pt (jet_p4 j))) ssmu smuon_jet) w);
    ("dr_lmujetsmu",
     Hist.mkCall None (Some smflav)
       (Ak.map2 (Ak.lift2 (fun j l => delta_r imp (jet_p4 j) (lep_p4 l))) smuon_jet ssmu) w);
    ("dr_lmujethmu",
     Hist.mkCall None (Some smflav)
       (Ak.map2 (Ak.lift2 (fun j l => delta_r imp (jet_p4 j) (lep_p4 l))) smuon_jet shmu) w);
    ("dr_lmusmu",
     Hist.mkCall None None
       (Ak.map2 (Ak.lift2 (fun l m => delta_r imp (lep_p4 l) (lep_p4 m))) shmu ssmu) w);
    ("z_pt", Hist.mkCall None None (p4_col pt sz) w);
    ("z_eta", Hist.mkCall None None (p4_col eta sz) w);
    ("z_phi", Hist.mkCall None None (p4_col phi sz) w);
    ("z_mass", Hist.mkCall None None (p4_col mass sz) w);
    ("w_pt", Hist.mkCall None None (p4_col pt sw) w);
    ("w_eta", Hist.mkCall None None (p4_col eta sw) w);
    ("w_phi", Hist.mkCall None None (p4_col phi sw) w);
    ("w_mass", Hist.mkCall None None (p4_col mass sw) w) ].

End Selected.

(** ** [NanoProcessor.process] *)

Definition prepare (b0 : Batch Lepton Lepton) : Batch Lepton Lepton :=
  let b := missing_branch imp b0 in
  if isJERC self then add_jec imp b else b.

Definition sumw_of (isRealData : bool) (b : Batch Lepton Lepton) : Q :=
  if isRealData then inject_Z (Z.of_nat (len b))
  else Ak.sum (map genWeight (events b)).

Definition process (b0 : Batch Lepton Lepton) : Outcome :=
  let ds := dataset b0 in
  let isRealData := negb (has_genWeight b0) in
  let b1 := missing_branch imp b0 in
  let w0 := Weights.new (len b1) in
  let b := if isJERC self then add_jec imp b1 else b1 in
  let sumw := sumw_of isRealData b in
  match hlt_block ds b triggers with
  | inl e => Raised (HLTError e)
  | inr (printed, rt) =>
      let lvl := event_level isRealData b rt in
      match bind (register_genweight isRealData b)
                 (fun _ => bind (loop isRealData b lvl w0 (_hist_event_dict self))
                                (fun out => fill_all out (tail_calls isRealData b lvl w0)))
      with
      | inl e => Raised e
      | inr out => Returned printed ds (mkOutput sumw out)
      end
  end.

End Process.

End EWc.

(* ------------------------------------------------------------------ *)
(** * Workflow [ttdilep_valid_sf.py] *)

Module TTdilep.

(** [events.Muon = col], [events.Electron = col]: the attribute of the batch
    is overwritten, event by event, with the new collection. *)
Definition set_Muon {E M M' : Type} (f : Event E M -> list M') (b : Batch E M)
  : Batch E M' :=
  mkBatch (dataset b) (has_genWeight b) (HLT_fields b) (Electron_fields b) (Muon_fields b)
    (map (fun e => mkEvent (run e) (luminosityBlock e) (genWeight e) (HLT e)
                           (Electron e) (f e) (Jet_ e) (MET_ e) (Pileup_nPU e))
         (events b)).

Definition set_Electron {E E' M : Type} (f : Event E M -> list E') (b : Batch E M)
  : Batch E' M :=
  mkBatch (dataset b) (has_genWeight b) (HLT_fields b) (Electron_fields b) (Muon_fields b)
    (map (fun e => mkEvent (run e) (luminosityBlock e) (genWeight e) (HLT e)
                           (f e) (Muon e) (Jet_ e) (MET_ e) (Pileup_nPU e))
         (events b)).

(** The batch after the muon and electron cuts. *)
Abbreviation SelBatch := (Batch (option Lepton) (option Lepton)).
Abbreviation SelEvent := (Event (option Lepton) (option Lepton)).

Section Process.

Variable imp : Imports.
Variable self : NanoProcessor.

Definition triggers : list string := ["IsoMu24"].

(** ** Muon and electron cuts: the batch's collections are reassigned *)

Definition muon_cuts (b : Batch Lepton Lepton) : Batch Lepton (option Lepton) :=
  let b1 := set_Muon (fun e => filter (fun l => Ak.gtb (pt (lep_p4 l)) 30 && mu_idiso imp l)
                                      (Muon e)) b in
  set_Muon (fun e => Ak.pad_none1 (Muon e)) b1.

Definition electron_cuts (b : Batch Lepton (option Lepton)) : SelBatch :=
  let b1 := set_Electron
              (fun e => filter (fun l => Ak.gtb (pt (lep_p4 l)) 30 && ele_cuttightid imp l)
                               (Electron e)) b in
  set_Electron (fun e => Ak.pad_none1 (Electron e)) b1.

(** The object selection: the batch as it is once both blocks have run. *)
Definition object_selection (b : Batch Lepton Lepton) : SelBatch :=
  electron_cuts (muon_cuts b).

(** [events.Jet[jet_id & ak.all(metric_table(events.Muon) > 0.4, axis=2)
                       & ak.all(metric_table(events.Electron) > 0.4, axis=2)]] *)
Definition event_jet (e : SelEvent) : list Jet :=
  filter (fun j => jet_id imp j &&
                   Ak.all_opt (fun m => Ak.gtb (delta_r imp (jet_p4 j) (lep_p4 m)) (4#10))
                              (Muon e) &&
                   Ak.all_opt (fun l => Ak.gtb (delta_r imp (jet_p4 j) (lep_p4 l)) (4#10))
                              (Electron e))
         (Jet_ e).

(** ** The per-event requirements, as columns *)

Section Requirements.

Variable isRealData : bool.
Variable b : SelBatch.

Definition req_lumi : list bool :=
  if isRealData
  then map (fun e => lumiMask self (run e) (luminosityBlock e)) (events b)
  else Ak.ones_bool (len b).

Definition req_muon : list bool :=
  map (fun e => Nat.eqb (Ak.count (Muon e)) 1) (events b).

Definition req_ele : list bool :=
  map (fun e => Nat.eqb (Ak.count (Electron e)) 1) (events b).

Definition req_jets : list bool :=
  map (fun e => Nat.leb 2 (Ak.num (event_jet e))) (events b).

(** [(events.Electron[:, 0:1].charge * events.Muon[:, 0:1].charge) == -1],
    then [ak.fill_none(..., False)] and [ak.flatten]. *)
Definition req_opposite_charge : list bool :=
  Ak.flatten
    (map (fun e =>
            map Ak.fill_none_false
                (Ak.map2 (Ak.lift2 (fun l m => Z.eqb (mul32 (charge l) (charge m)) (-1)))
                         (firstn 1 (Electron e)) (firstn 1 (Muon e))))
         (events b)).

Definition and_col (x y : list (option bool)) : list (option bool) :=
  Ak.map2 Ak.and_opt x y.

(** The six requirements in the order of the source expression. *)
Definition requirements (rt : list bool) : list (list (option bool)) :=
  [ map Some rt; map Some req_lumi; map Some req_muon; map Some req_ele;
    map Some req_jets; map Some req_opposite_charge ].

Definition event_level_raw (rt : list bool) : list (option bool) :=
  and_col (and_col (and_col (and_col (and_col
    (map Some rt) (map Some req_lumi)) (map Some req_muon)) (map Some req_ele))
    (map Some req_jets)) (map Some req_opposite_charge).

Definition event_level (rt : list bool) : list bool :=
  map Ak.fill_none_false (event_level_raw rt).

End Requirements.

(** ** Selected objects, weights, scale factors *)

Section Selected.

Variable isRealData : bool.
Variable b : SelBatch.
Variable lvl : list bool.

Definition smu : list (list (option Lepton)) := Ak.select lvl (map Muon (events b)).
Definition sel : list (list (option Lepton)) := Ak.select lvl (map Electron (events b)).
(** [event_jet[event_level][:, :2]] *)
Definition sjets : list (list Jet) :=
  map (firstn 2) (Ak.select lvl (map event_jet (events b))).

(** [sjets[:, i]] *)
Definition sjets_at (i : nat) : list (option Jet) :=
  map (fun js => nth_error js i) sjets.

Definition lep1sf : list Q :=
  Ak.map2 (fun c x => Ak.where_ c x 1) lvl
          (map (fun e => muSFs imp (Ak.first (Muon e))) (events b)).

Definition lep2sf : list Q :=
  Ak.map2 (fun c x => Ak.where_ c x 1) lvl
          (map (fun e => eleSFs imp (Ak.first (Electron e))) (events b)).

Definition weights (w0 : Weights.t) : Weights.t :=
  let w1 := if negb isRealData
            then Weights.add "genweight" (map genWeight (events b)) w0
            else w0 in
  if negb isRealData && isCorr self
  then Weights.add "lep2sf" lep2sf
         (Weights.add "lep1sf" lep1sf
            (Weights.add "puweight" (map (fun e => _pu self (Pileup_nPU e)) (events b)) w1))
  else w1.

(** [weights.weight()[event_level]] *)
Definition wsel (w0 : Weights.t) : list Q :=
  Ak.select lvl (Weights.weight (weights w0)).

Definition genflavor : list (list Z) :=
  if isRealData then map (map (fun _ => 0%Z)) sjets
  else map (map flavour) sjets.

(** [genflavor[:, i]] *)
Definition genflavor_at (i : nat) : list (option Z) :=
  map (fun fs => nth_error fs i) genflavor.

Definition getSF_col (cvl cvb : string) (table : CTable) (syst : option string)
           (jets : list (option Jet)) : list (option Q) :=
  map (option_map (fun j => getSF imp (hadronFlavour j) (jet_item cvl j) (jet_item cvb j)
                                     table syst)) jets.

Definition eval_col (table : BTable) (var d : string) (jets : list (option Jet))
  : list (option Q) :=
  map (option_map (fun j => eval table var (hadronFlavour j) (Qabs (eta (jet_p4 j)))
                                 (pt (jet_p4 j)) (jet_item d j))) jets.

(** The dictionaries after [for i in range(2)]. *)
Definition jetsfs_c : SFdict :=
  map (fun i =>
         (i, [("SF", getSF_col "btagDeepFlavCvL" "btagDeepFlavCvB" (_deepjetc_sf self) None
                               (sjets_at i));
              ("SFup", getSF_col "btagDeepFlavCvL" "btagDeepFlavCvB" (_deepjetc_sf self)
                                 (Some "TotalUncUp") (sjets_at i));
              ("SFdn", getSF_col "btagDeepFlavCvL" "btagDeepFlavCvB" (_deepjetc_sf self)
                                 (Some "TotalUncDown") (sjets_at i))]))
      [0%nat; 1%nat].

Definition jetsfs_b : SFdict :=
  map (fun i =>
         (i, [("SF", eval_col (_deepjetb_sf self) "central" "btagDeepFlavB" (sjets_at i));
              ("SFup", eval_col (_deepjetb_sf self) "up_jes" "btagDeepFlavB" (sjets_at i));
              ("SFdn", eval_col (_deepjetb_sf self) "down_jes" "btagDeepFlavB" (sjets_at i))]))
      [0%nat; 1%nat].

Definition csvsfs_c : SFdict :=
  map (fun i =>
         (i, [("SF", getSF_col "btagDeepCvL" "btagDeepCvB" (_deepcsvc_sf self) None
                               (sjets_at i));
              ("SFup", getSF_col "btagDeepCvL" "btagDeepCvB" (_deepcsvc_sf self)
                                 (Some "TotalUncUp") (sjets_at i));
              ("SFdn", getSF_col "btagDeepCvL" "btagDeepCvB" (_deepcsvc_sf self)
                                 (Some "TotalUncDown") (sjets_at i))]))
      [0%nat; 1%nat].

Definition csvsfs_b : SFdict :=
  map (fun i =>
         (i, [("SFup", eval_col (_deepcsvb_sf self) "up_jes" "btagDeepB" (sjets_at i));
              ("SF", eval_col (_deepcsvb_sf self) "central" "btagDeepB" (sjets_at i));
              ("SFdn", eval_col (_deepcsvb_sf self) "down_jes" "btagDeepB" (sjets_at i))]))
      [0%nat; 1%nat].

Definition disc_list : list (string * SFdict) :=
  [ ("btagDeepB", csvsfs_b); ("btagDeepC", csvsfs_b);
    ("btagDeepFlavB", jetsfs_b); ("btagDeepFlavC", jetsfs_b);
    ("btagDeepCvL", csvsfs_c); ("btagDeepCvB", csvsfs_c);
    ("btagDeepFlavCvL", jetsfs_c); ("btagDeepFlavCvB", jetsfs_c) ].

(** ** The fill loop *)

Variable w0 : Weights.t.

(** [str(i)] for the two jet indices. *)
Definition str (i : nat) : string := match i with O => "0" | _ => "1" end.

(** [flatten(np.where(sel_jet[d] < 0, -0.2, sel_jet[d]))] *)
Definition discr_col (d : string) (jets : list (option Jet)) : list (option Q) :=
  map Some (Ak.drop_none (map (option_map (fun j => clip (jet_item d j))) jets)).

(** [flatten(genflavor[:, i])] *)
Definition flav_col (i : nat) : list (option Z) :=
  map Some (Ak.drop_none (genflavor_at i)).

(** [weights.weight()[event_level] * sf] *)
Definition wsel_sf (sf : list (option Q)) : list (option Q) :=
  Ak.map2 (fun w s => option_map (Qmult w) s) (wsel w0) sf.

(** The body of [if str(i) in histname] in the ["btagDeep"] branch. *)
Definition btag_calls (i : nat) (histname : string) : Exn + list Hist.FillCall :=
  let d := Str.remove (String.append "_" (str i)) histname in
  let nominal := Hist.mkCall (Some "noSF") (Some (flav_col i))
                             (discr_col d (sjets_at i)) (map Some (wsel w0)) in
  if negb isRealData && isCorr self then
    bind (dict_get disc_list d) (fun sfs =>
      inr (nominal ::
           map (fun kv => Hist.mkCall (Some (fst kv)) (Some (flav_col i))
                                      (discr_col d (sjets_at i)) (wsel_sf (snd kv)))
               (dd_get sfs i)))
  else inr [nominal].

(** [for i in range(2): if str(i) in histname: body i] *)
Definition for_jets (histname : string) (body : nat -> Exn + list Hist.FillCall)
  : Exn + list Hist.FillCall :=
  bind (if Str.contains (str 0) histname then body 0%nat else inr [])
       (fun c0 =>
          bind (if Str.contains (str 1) histname then body 1%nat else inr [])
               (fun c1 => inr (c0 ++ c1))).

Definition loop_calls (histname : string) : Exn + list Hist.FillCall :=
  if Str.contains "Deep" histname && negb (Str.contains "btag" histname) then
    inr [Hist.mkCall None (Some (map Some (Ak.flatten genflavor)))
           (map Some (Ak.flatten (map (map (jet_item histname)) sjets)))
           (map Some (Ak.flatten (Ak.broadcast (wsel w0) sjets)))]
  else if Str.contains "btagDeep" histname then
    for_jets histname (fun i => btag_calls i histname)
  else if Str.contains "mu_" histname &&
          in_fields (Str.remove "mu_" histname) (Muon_fields b) then
    inr [Hist.mkCall None None
           (map Some (Ak.flatten_none
                        (map (map (option_map (lep_item (Str.remove "mu_" histname)))) smu)))
           (map Some (wsel w0))]
  else if Str.contains "ele_" histname &&
          in_fields (Str.remove "ele_" histname) (Electron_fields b) then
    inr [Hist.mkCall None None
           (map Some (Ak.flatten_none
                        (map (map (option_map (lep_item (Str.remove "ele_" histname)))) sel)))
           (map Some (wsel w0))]
  else if Str.contains "jet" histname && negb (Str.contains "dr" histname) &&
          negb (String.eqb "njet" histname) then
    for_jets histname (fun i =>
      inr [Hist.mkCall None (Some (flav_col i))
             (map Some (Ak.drop_none
                          (map (option_map
                                  (jet_item (Str.remove (String.append "jet" (String.append (str i) "_"))
                                                        histname)))
                               (sjets_at i))))
             (map Some (wsel w0))])
  else inr [].

Definition loop (out : list (string * Hist.t)) : Exn + list (string * Hist.t) :=
  mapM (fun nh => bind (loop_calls (fst nh))
                       (fun cs => inr (fst nh, Hist.fills (snd nh) cs))) out.

(** ** The fills after the loop *)

(** [flatten(smu.delta_r(sjets[:, i]))] *)
Definition dr_mujet (i : nat) : list (option Q) :=
  map Some
      (Ak.flatten_none
         (Ak.map2 (fun mus j =>
                     map (fun m => Ak.lift2 (fun m j => delta_r imp (lep_p4 m) (jet_p4 j)) m j)
                         mus)
                  smu (sjets_at i))).

Definition tail_calls : list (string * Hist.FillCall) :=
  map (fun i => (String.append "dr_mujet" (str i),
                 Hist.mkCall None (Some (flav_col i)) (dr_mujet i) (map Some (wsel w0))))
      [0%nat; 1%nat]
  ++ [ ("njet",
        Hist.mkCall None None
          (map (fun js => Some (inject_Z (Z.of_nat (Ak.count_all js)))) sjets)
          (map Some (wsel w0))) ].

End Selected.

(** ** [NanoProcessor.process] *)

Definition prepare (b0 : Batch Lepton Lepton) : Batch Lepton Lepton :=
  let b := missing_branch imp b0 in
  if isJERC self then add_jec imp b else b.

Definition sumw_of (isRealData : bool) (b : Batch Lepton Lepton) : Q :=
  if isRealData then inject_Z (Z.of_nat (len b))
  else Ak.sum (map genWeight (events b)).

Definition process (b0 : Batch Lepton Lepton) : Outcome :=
  let ds := dataset b0 in
  let isRealData := negb (has_genWeight b0) in
  let b1 := missing_branch imp b0 in
  let w0 := Weights.new (len b1) in
  let b := if isJERC self then add_jec imp b1 else b1 in
  let sumw := sumw_of isRealData b in
  match hlt_block ds b triggers with
  | inl e => Raised (HLTError e)
  | inr (printed, rt) =>
      let bs := object_selection b in
      let lvl := event_level isRealData bs rt in
      match bind (register_genweight isRealData bs)
                 (fun _ => bind (loop isRealData bs lvl w0 (_hist_event_dict self))
                                (fun out => fill_all out (tail_calls isRealData bs lvl w0)))
      with
      | inl e => Raised e
      | inr out => Returned printed ds (mkOutput sumw out)
      end
  end.

End Process.

End TTdilep.

(* ------------------------------------------------------------------ *)
(** * Concrete collaborators, processors and batches

    A small instance of every collaborator and a few batches, on which the
    workflows are evaluated.  The vector behaviours ([a + b] and [delta_r] of
    the [PtEtaPhiM] four-vectors) are computed in rational arithmetic, with
    the elementary functions rounded to nine decimals (they are accurate to
    about 1e-8 on the values of the fixtures). *)

(** ** Elementary functions on rationals *)

Module Approx.

(** Results are kept on a grid of nine decimals. *)
Definition rnd (x : Q) : Q := Qfloor (x * 1000000000) # 1000000000.

Definition pi : Q := 3141592653589793 # 1000000000000000.

(** Intermediate results are kept on a grid of thirteen decimals. *)
Definition fine (x : Q) : Q := Qfloor (x * 10000000000000) # 10000000000000.

(** [term + term * step k + term * step k * step (k+1) + ...], [n] terms. *)
Fixpoint series (n : nat) (term : Q) (step : nat -> Q) (k : nat) : Q :=
  match n with
  | O => 0
  | S n' => fine (term + series n' (fine (term * step k)) step (S k))
  end.

Definition exp (x : Q) : Q :=
  rnd (series 24 1 (fun k => x / inject_Z (Z.of_nat (S k))) 0).

Definition sinh (x : Q) : Q := let e := exp x in rnd ((e - / e) / 2).
Definition cosh (x : Q) : Q := let e := exp x in rnd ((e + / e) / 2).

(** An angle brought back to [-pi, pi). *)
Definition wrap (x : Q) : Q :=
  fine (x - 2 * pi * inject_Z (Qfloor ((x + pi) / (2 * pi)))).

Definition cos (x : Q) : Q :=
  let y := wrap x in
  rnd (series 16 1 (fun k => - fine (y * y) / inject_Z (Z.of_nat ((2 * k + 1) * (2 * k + 2)))) 0).

Definition sin (x : Q) : Q :=
  let y := wrap x in
  rnd (series 16 y (fun k => - fine (y * y) / inject_Z (Z.of_nat ((2 * k + 2) * (2 * k + 3)))) 0).

Definition sqrt (x : Q) : Q :=
  if Qle_bool x 0 then 0
  else Z.sqrt (Qfloor (x * 1000000000000000000)) # 1000000000.

(** [atan] of a small argument, by its series. *)
Definition atan_series (x : Q) : Q :=
  series 8 x (fun k => - (x * x) * inject_Z (Z.of_nat (2 * k + 1))
                        / inject_Z (Z.of_nat (2 * k + 3))) 0.

(** [atan x = 2 atan (x / (1 + sqrt (1 + x^2)))], applied twice. *)
Definition half_angle (x : Q) : Q := rnd (x / (1 + sqrt (1 + x * x))).

Definition atan (x : Q) : Q :=
  let small y := rnd (4 * atan_series (half_angle (half_angle y))) in
  if Qle_bool (Qabs x) 1 then small x
  else if Qle_bool 0 x then rnd (pi / 2 - small (/ x))
  else rnd (- (pi / 2) - small (/ x)).

Definition atan2 (y x : Q) : Q :=
  if Qle_bool x 0 then
    if Qle_bool 0 x then
      (if Qle_bool y 0 then (if Qle_bool 0 y then 0 else - (pi / 2)) else pi / 2)
    else if Qle_bool 0 y then rnd (atan (y / x) + pi) else rnd (atan (y / x) - pi)
  else atan (y / x).

(** [ln y = 16 ln (y^(1/16))], and [ln z = 2 atanh ((z - 1) / (z + 1))]. *)
Definition ln (y : Q) : Q :=
  let z := sqrt (sqrt (sqrt (sqrt y))) in
  let u := (z - 1) / (z + 1) in
  rnd (32 * series 8 (rnd u) (fun k => rnd (u * u) * inject_Z (Z.of_nat (2 * k + 1))
                                   / inject_Z (Z.of_nat (2 * k + 3))) 0).

Definition asinh (x : Q) : Q :=
  if Qle_bool 0 x then ln (x + sqrt (x * x + 1))
  else - ln (- x + sqrt (x * x + 1)).

End Approx.

(** ** The fixtures *)

Module Ex.

Definition sq (x : Q) : Q := x * x.

(** [a + b] on four-vectors: the cartesian components are added, and the
    sum is read back as [pt], [eta], [phi] and [mass]. *)
Definition vec_add (a b : P4) : P4 :=
  let x := pt a * Approx.cos (phi a) + pt b * Approx.cos (phi b) in
  let y := pt a * Approx.sin (phi a) + pt b * Approx.sin (phi b) in
  let z := pt a * Approx.sinh (eta a) + pt b * Approx.sinh (eta b) in
  let t := Approx.sqrt (sq (pt a * Approx.cosh (eta a)) + sq (mass a)) +
           Approx.sqrt (sq (pt b * Approx.cosh (eta b)) + sq (mass b)) in
  let r := Approx.sqrt (sq x + sq y) in
  mkP4 r
       (if Qle_bool r 0 then 0 else Approx.asinh (z / r))
       (Approx.atan2 y x)
       (Approx.sqrt (sq t - sq x - sq y - sq z)).

(** [a.delta_r(b)]: the distance in the plane of [eta] and [phi], the
    difference of the angles brought back to [-pi, pi). *)
Definition delta_r (a b : P4) : Q :=
  Approx.sqrt (sq (Approx.wrap (phi a - phi b)) + sq (eta a - eta b)).

Definition imp : Imports :=
  mkImports (fun b => b) (fun b => b)
    (fun _ => true) (fun _ => true) (fun _ => true) (fun _ => true) (fun _ => true)
    (fun _ => 2) (fun _ => 3)
    (fun flav cvl cvb t syst => ct_content t syst flav cvl cvb)
    delta_r vec_add.

(** A table whose central value is 1 for a discriminant below -1/2 and 2
    otherwise, with variations 3 and 1/2. *)
Definition ctable : CTable :=
  mkCTable (fun syst _ cvl _ =>
              match syst with
              | None => if Ak.ltb cvl (-1 # 2) then 1 else 2
              | Some s => if String.eqb s "TotalUncUp" then 3 else 1 # 2
              end).

Definition btable : BTable :=
  mkBTable (fun var _ _ _ d =>
              if String.eqb var "central" then (if Ak.ltb d (-1 # 2) then 1 else 2)
              else if String.eqb var "up_jes" then 3 else 1 # 2).

Definition eWc_names : list string :=
  [ "btagDeepB_0"; "btagDeepB_1"; "DeepCSV_trackJetPt"; "jet_pt"; "hl_pt"; "soft_l_pt";
    "MET_pt"; "mujet_pt"; "njet"; "hl_ptratio"; "soft_l_ptratio"; "dr_lmujetsmu";
    "dr_lmujethmu"; "dr_lmusmu"; "z_pt"; "z_eta"; "z_phi"; "z_mass";
    "w_pt"; "w_eta"; "w_phi"; "w_mass" ].

Definition tt_names : list string :=
  [ "btagDeepB_0"; "btagDeepB_1"; "DeepCSV_trackJetPt"; "mu_pt"; "ele_pt"; "jet0_pt";
    "jet1_pt"; "dr_mujet0"; "dr_mujet1"; "njet" ].

Definition empty_hists (names : list string) : list (string * Hist.t) :=
  map (fun n => (n, @nil Hist.Entry)) names.

Definition processor (corr : bool) (names : list string) : NanoProcessor :=
  mkProcessor corr false (fun r _ => Z.eqb r 1) ctable btable ctable btable
              (fun _ => 1) (empty_hists names).

Definition no_branch : string -> Q := fun _ => 0.

Definition ele : Lepton := mkLepton (mkP4 35 0 0 0) (-1) no_branch.
Definition soft_mu : Lepton := mkLepton (mkP4 10 1 0 0) 1 no_branch.
Definition hard_mu : Lepton := mkLepton (mkP4 35 0 0 0) 1 no_branch.

(** A charm jet next to the soft muon, with [btagDeepB = -1]. *)
Definition jet_c : Jet :=
  mkJet (mkP4 40 1 0 0) 4 4 0 (-1)
        (fun n => if String.eqb n "btagDeepB" then -1 else 1 # 2).
(** A light jet away from the leptons. *)
Definition jet_l : Jet :=
  mkJet (mkP4 30 2 0 0) 0 0 (-1) (-1)
        (fun n => if String.eqb n "btagDeepB" then 3 # 10 else 1 # 4).

(** Missing energy back to back with the electron of the fixtures: the system
    of the two has a mass of 64.6. *)
Definition met : MET := mkMET 30 3 no_branch.

(** An eWc signal event with the given jets and generator weight. *)
Definition ev_eWc (jets : list Jet) (gw : Q) (r : Z) : Event Lepton Lepton :=
  mkEvent r 1 gw (fun _ => true) [ele] [soft_mu] jets met 20.

(** A ttdilep signal event. *)
Definition ev_tt (gw : Q) (r : Z) : Event Lepton Lepton :=
  mkEvent r 1 gw (fun _ => true) [ele] [hard_mu] [jet_c; jet_l] met 20.

(** An event without any lepton. *)
Definition ev_empty (gw : Q) : Event Lepton Lepton :=
  mkEvent 1 1 gw (fun _ => true) [] [] [jet_c; jet_l] met 20.

Definition batch (sim : bool) (hlt : list string) (evs : list (Event Lepton Lepton))
  : Batch Lepton Lepton :=
  mkBatch "ds" sim hlt ["pt"; "eta"; "phi"; "mass"] ["pt"; "eta"; "phi"; "mass"] evs.

Definition all_hlt : list string := ["Ele32_WPTight_Gsf_L1DoubleEG"; "IsoMu24"].

(** The histogram stored under [name] in an outcome (empty when the call
    raised or has no such histogram). *)
Definition hist_of (o : Outcome) (name : string) : Hist.t :=
  match o with
  | Returned _ _ out =>
      match dict_get (hists out) name with
      | inr h => h
      | inl _ => []
      end
  | Raised _ => []
  end.

(** The accumulator of a returning call. *)
Definition output_of (o : Outcome) : Output :=
  match o with
  | Returned _ _ out => out
  | Raised _ => mkOutput 0 []
  end.

(** One selected simulated event of weight 2 and one rejected event of
    weight 5. *)
Definition sim2 : Batch Lepton Lepton :=
  batch true all_hlt [ev_eWc [jet_c; jet_l] 2 1; ev_empty 5].

(** The [Weights] object of the eWc workflow on [sim2], corrections
    disabled. *)
Definition weights_nocorr : Weights.t :=
  EWc.weights imp (processor false eWc_names) false sim2 [true; false]
              (Weights.new (len sim2)).

(** Two selected simulated events: one with two jets, one with a single
    jet. *)
Definition mixed : Batch Lepton Lepton :=
  batch true all_hlt [ev_eWc [jet_c; jet_l] 2 1; ev_eWc [jet_c] 3 1].

(** Two selected simulated events with two jets each. *)
Definition twojets : Batch Lepton Lepton :=
  batch true all_hlt [ev_eWc [jet_c; jet_l] 2 1; ev_eWc [jet_l; jet_c] 3 1].

(** The two halves of [mixed]. *)
Definition half_two : Batch Lepton Lepton := batch true all_hlt [ev_eWc [jet_c; jet_l] 2 1].
Definition half_one : Batch Lepton Lepton := batch true all_hlt [ev_eWc [jet_c] 3 1].

(** The second half of [twojets], whose first half is [half_two]. *)
Definition half_swapped : Batch Lepton Lepton :=
  batch true all_hlt [ev_eWc [jet_l; jet_c] 3 1].

(** Two batches for the ttdilep workflow: one selected event of weight 2;
    one selected event of weight 3 followed by a rejected event. *)
Definition tt_one : Batch Lepton Lepton := batch true all_hlt [ev_tt 2 1].
Definition tt_two : Batch Lepton Lepton := batch true all_hlt [ev_tt 3 1; ev_empty 5].

(** The bin of light-flavour, ["noSF"] entries of any discriminant value. *)
Definition bin_noSF_light : Hist.Bin := Hist.mkBin (Some "noSF") (Some 1%Z) (fun _ => true).

End Ex.

(* ------------------------------------------------------------------ *)
(** * Vocabulary of the statements *)

(** The AND law of a selection mask at event [i]: the mask has an entry
    there; it is [true] exactly when every requirement is [Some true]; it is
    [false] as soon as one requirement is [Some false] or missing. *)
Definition and_law (mask : list bool) (reqs : list (list (option bool))) (i : nat) : Prop :=
  exists m : bool,
    nth_error mask i = Some m /\
    (m = true <-> Forall (fun r => nth_error r i = Some (Some true)) reqs) /\
    (Exists (fun r => nth_error r i = Some (Some false) \/ nth_error r i = Some None) reqs ->
     m = false).

(** A step whose only exceptions are [KeyError]s. *)
Definition key_errors_only {A : Type} (m : Exn + A) : Prop :=
  forall e, m = inl e -> exists k, e = KeyError k.

(** The diagnostic printed by the HLT block: nothing when every requested
    path is present, else the list of the absent ones. *)
Definition hlt_diagnostic {E M : Type} (b : Batch E M) (ts : list string)
  : list (list string) :=
  if forallb (hasattr_HLT b) ts then []
  else [filter (fun t => negb (hasattr_HLT b t)) ts].

(** A scale-factor lookup that reads the jet's own (unclipped) branches:
    either [getSF] on two named discriminants, or a table's [eval] on one. *)
Definition raw_lookup (imp : Imports) (f : Jet -> Q) : Prop :=
  (exists cvl cvb t s, forall j,
      f j = getSF imp (hadronFlavour j) (jet_item cvl j) (jet_item cvb j) t s) \/
  (exists t var d, forall j,
      f j = eval t var (hadronFlavour j) (Qabs (eta (jet_p4 j))) (pt (jet_p4 j))
                 (jet_item d j)).

(** The eight discriminants with a histogram per jet index. *)
Definition disc_names : list string :=
  [ "btagDeepB"; "btagDeepC"; "btagDeepFlavB"; "btagDeepFlavC";
    "btagDeepCvL"; "btagDeepCvB"; "btagDeepFlavCvL"; "btagDeepFlavCvB" ].

(** The variation names of a discriminant family: central, up and down. *)
Definition variant_names : list string := ["SF"; "SFup"; "SFdn"].

(** The position, in a flattened jagged column, of the first entry of row
    [k]. *)
Definition offset {A : Type} (jag : list (list A)) (k : nat) : nat :=
  List.length (List.concat (firstn k jag)).

(** A fill of a per-jet quantity [f] of the selected jets [jets] with the
    per-event weights [w]: the value and weight columns have one length, and
    jet [j] of event [k] is filled, at its position in the flattened columns,
    with its own value and the weight of event [k]. *)
Definition broadcast_fill {W : Type} (f : Jet -> Q) (jets : list (list Jet))
           (w : list W) (c_val : list (option Q)) (c_weight : list W) : Prop :=
  (List.length w = List.length jets -> List.length c_weight = List.length c_val) /\
  forall k js wk j jet,
    nth_error jets k = Some js -> nth_error w k = Some wk -> nth_error js j = Some jet ->
    nth_error c_val (offset jets k + j) = Some (Some (f jet)) /\
    nth_error c_weight (offset jets k + j) = Some wk.

(** The conjunction of a non-empty list of requirements at one event, with
    [ak.fill_none(..., False)]. *)
Definition all_reqs (rs : list (option bool)) : bool :=
  match rs with
  | [] => false
  | r :: rs' => Ak.fill_none_false (fold_left Ak.and_opt rs' r)
  end.

(** The requirements of the eWc workflow at one event, given the requested
    trigger paths present in the schema. *)
Definition eWc_row_reqs (imp : Imports) (self : NanoProcessor) (isRealData : bool)
           (present : list string) (e : Event Lepton Lepton) : list (option bool) :=
  [ Some (existsb (HLT e) present);
    Some (if isRealData then lumiMask self (run e) (luminosityBlock e) else true);
    Some (Nat.eqb (Ak.count_all (EWc.iso_ele_coll imp e)) 1);
    Some (Nat.leb 1 (Ak.num (EWc.event_jet imp e)) && Nat.leb (Ak.num (EWc.event_jet imp e)) 3);
    Some (Nat.leb 1 (Ak.count_all (EWc.soft_muon_coll imp e)));
    Some (Nat.leb 1 (Ak.num (EWc.mu_jet_coll imp e)));
    option_map (fun l => Ak.gtb (mass (vec_add imp (EWc.MET_p4 e) (lep_p4 l))) 55)
               (EWc.iso_ele imp e);
    Some (negb (Nat.eqb (Ak.count_all (EWc.dilep_mu imp e) +
                         Ak.count_all (EWc.dilep_ele imp e)) 2));
    (let el := EWc.iso_ele imp e in
     let ratio := Ak.lift2 (fun l j => pt (lep_p4 l) / pt (jet_p4 j))
                           el (Ak.first (EWc.mu_jet imp e)) in
     Ak.and_opt
       (Ak.and_opt
          (Ak.and_opt
             (Ak.and_opt
                (option_map (fun l => Ak.ltb (lep_branch l "pfRelIso03_all") (5#100)) el)
                (option_map (fun l => Ak.ltb (Qabs (lep_branch l "dz")) (1#100)) el))
             (option_map (fun l => Ak.ltb (Qabs (lep_branch l "dxy")) (2#1000)) el))
          (option_map (fun l => Ak.ltb (lep_branch l "ip3d") (2#10)) el))
       (Ak.or_opt (option_map (fun r => Ak.ltb r 0) ratio)
                  (option_map (fun r => Ak.gtb r (75#100)) ratio)));
    Ak.lift2 (fun m j => Ak.ltb (pt (lep_p4 m) / pt (jet_p4 j)) (6#10))
             (Ak.first (EWc.soft_muon imp e)) (Ak.first (EWc.mu_jet imp e)) ].

Definition eWc_row_level imp self isRealData present e : bool :=
  all_reqs (eWc_row_reqs imp self isRealData present e).

(** The requirements of the ttdilep workflow at one event of the batch as it
    is after the object selection. *)
Definition tt_row_reqs (imp : Imports) (self : NanoProcessor) (isRealData : bool)
           (present : list string) (e : TTdilep.SelEvent) : list (option bool) :=
  [ Some (existsb (HLT e) present);
    Some (if isRealData then lumiMask self (run e) (luminosityBlock e) else true);
    Some (Nat.eqb (Ak.count (Muon e)) 1);
    Some (Nat.eqb (Ak.count (Electron e)) 1);
    Some (Nat.leb 2 (Ak.num (TTdilep.event_jet imp e)));
    Some (Ak.fill_none_false
            (Ak.lift2 (fun l m => Z.eqb (mul32 (charge l) (charge m)) (-1))
                      (Ak.first (Electron e)) (Ak.first (Muon e)))) ].

Definition tt_row_level imp self isRealData present e : bool :=
  all_reqs (tt_row_reqs imp self isRealData present e).

(** [coffea]'s accumulation of two outputs of one dataset: the sums of
    weights are added, and the histograms are added name by name. *)
Definition merge (o1 o2 : Output) : Output :=
  mkOutput (sumw o1 + sumw o2)
           (Ak.map2 (fun a b => (fst a, Hist.add (snd a) (snd b))) (hists o1) (hists o2)).

(** The histograms of the processor are empty when [process] is called. *)
Definition fresh (self : NanoProcessor) : Prop :=
  Forall (fun nh => snd nh = @nil Hist.Entry) (_hist_event_dict self).

(** The repair and jet-correction collaborators act event by event: they
    keep the schema shared by the two batches, they commute with the
    concatenation of the batches, and the jet correction keeps the number of
    events. *)
Definition eventwise (imp : Imports) (self : NanoProcessor) (a b : Batch Lepton Lepton)
  : Prop :=
  same_schema a b /\
  same_schema (EWc.prepare imp self a) (EWc.prepare imp self b) /\
  EWc.prepare imp self (concat_batch a b) =
    concat_batch (EWc.prepare imp self a) (EWc.prepare imp self b) /\
  len (missing_branch imp a) = len (EWc.prepare imp self a) /\
  len (missing_branch imp b) = len (EWc.prepare imp self b) /\
  len (missing_branch imp (concat_batch a b)) =
    len (EWc.prepare imp self (concat_batch a b)).

(** An event whose lepton collections are padded selections. *)
Definition padded (e : TTdilep.SelEvent) : Prop :=
  (exists xs : list Lepton, Muon e = Ak.pad_none1 xs) /\
  (exists ys : list Lepton, Electron e = Ak.pad_none1 ys).

(** The batch with the schema of [s] and the events [evs]. *)
Definition with_events {E M E' M' : Type} (s : Batch E M) (evs : list (Event E' M'))
  : Batch E' M' :=
  mkBatch (dataset s) (has_genWeight s) (HLT_fields s) (Electron_fields s) (Muon_fields s) evs.

(** For each of a list of per-event entry functions, the entries of the
    events that pass [p]. *)
Definition rows_of {Ev : Type} (p : Ev -> bool) (gs : list (Ev -> list Hist.Entry))
           (evs : list Ev) : list (list Hist.Entry) :=
  map (fun g => flat_map g (filter p evs)) gs.

(** The flavour label of a selected jet: 0 for real data, [flavour] for
    simulation. *)
Definition flav_label (isRealData : bool) (j : Jet) : Z :=
  if isRealData then 0%Z else flavour j.

(** The histogram names that reach the guarded branch of the eWc fill loop:
    no earlier branch takes them, and they name a ["btagDeep...1"]
    histogram. *)
Definition eWc_guarded {E M : Type} (s : Batch E M) (name : string) : bool :=
  negb (Str.contains "Deep" name && negb (Str.contains "btag" name)) &&
  negb (Str.contains "jet_" name && negb (Str.contains "mu" name)) &&
  negb (Str.contains "hl_" name && in_fields (Str.remove "hl_" name) (Electron_fields s)) &&
  negb (Str.contains "soft_l" name &&
        in_fields (Str.remove "soft_l_" name) (Muon_fields s)) &&
  negb (Str.contains "MET" name) &&
  negb (Str.contains "mujet_" name) &&
  negb (Str.contains "btagDeep" name && Str.contains "0" name) &&
  (Str.contains "btagDeep" name && Str.contains "1" name).

(** The entries that a sequence of [output[key].fill(...)] statements adds
    to the histogram [name]. *)
Definition tail_entries (name : string) (cs : list (string * list Hist.Entry))
  : list Hist.Entry :=
  flat_map (fun kc => if String.eqb (fst kc) name then snd kc else []) cs.

(** The histogram stored under [name] in an output (empty when absent). *)
Definition hist_at (o : Output) (name : string) : Hist.t :=
  match dict_get (hists o) name with
  | inr h => h
  | inl _ => []
  end.

(** The fill statements of [process]: the loop over the histograms, then the
    fills by name. *)
Definition fill_phase (LC : string -> Exn + list Hist.FillCall)
           (TC : list (string * Hist.FillCall)) (hs : list (string * Hist.t))
  : Exn + list (string * Hist.t) :=
  bind (mapM (fun nh => bind (LC (fst nh)) (fun cs => inr (fst nh, Hist.fills (snd nh) cs)))
             hs)
       (fun out => fill_all out TC).

(** The selection mask and the jet multiplicities of the selected events
    that the eWc [process] computes for a batch. *)
Definition eWc_mask imp self (b0 : Batch Lepton Lepton) : list bool :=
  EWc.event_level imp self (negb (has_genWeight b0)) (EWc.prepare imp self b0)
                  (req_trig (EWc.prepare imp self b0) EWc.triggers).

Definition eWc_njet imp self (b0 : Batch Lepton Lepton) : list nat :=
  EWc.njet imp (EWc.prepare imp self b0) (eWc_mask imp self b0).

(** What the ttdilep mask guarantees about a selected event: exactly one
    muon, exactly one electron, at least two jets. *)
Definition tt_selected_event (imp : Imports) (e : TTdilep.SelEvent) : Prop :=
  (exists m, Muon e = [Some m]) /\ (exists l, Electron e = [Some l]) /\
  (exists j0 j1 js, TTdilep.event_jet imp e = j0 :: j1 :: js).

(** Two outputs agree on the histogram [name]: every bin has the same sum of
    weights and the same sum of squared weights. *)
Definition same_bins_at (name : string) (o1 o2 : Output) : Prop :=
  forall bin,
    Hist.sumw (hist_at o1 name) bin == Hist.sumw (hist_at o2 name) bin /\
    Hist.sumw2 (hist_at o1 name) bin == Hist.sumw2 (hist_at o2 name) bin.

(** The merge of two outputs does not depend on their order. *)
Definition order_independent (o1 o2 : Output) : Prop :=
  sumw (merge o1 o2) == sumw (merge o2 o1) /\
  forall name, same_bins_at name (merge o1 o2) (merge o2 o1).

(** The processor with its stored histograms replaced, and with every stored
    histogram emptied. *)
Definition with_hists (self : NanoProcessor) (hs : list (string * Hist.t)) : NanoProcessor :=
  mkProcessor (isCorr self) (isJERC self) (lumiMask self) (_deepjetc_sf self)
              (_deepjetb_sf self) (_deepcsvc_sf self) (_deepcsvb_sf self) (_pu self) hs.

Definition reset_hists (self : NanoProcessor) : NanoProcessor :=
  with_hists self (map (fun nh => (fst nh, @nil Hist.Entry)) (_hist_event_dict self)).

(** A processor of the eWc workflow that already holds, in every histogram,
    one entry of value 7 and weight 1. *)
Definition stored_processor : NanoProcessor :=
  with_hists (Ex.processor true Ex.eWc_names)
             (map (fun n => (n, [Hist.mkEntry None None 7 1])) Ex.eWc_names).

(** The selection mask that the ttdilep [process] computes for a batch. *)
Definition tt_mask imp self (b0 : Batch Lepton Lepton) : list bool :=
  TTdilep.event_level imp self (negb (has_genWeight b0))
    (TTdilep.object_selection imp (TTdilep.prepare imp self b0))
    (req_trig (TTdilep.prepare imp self b0) TTdilep.triggers).

(** The histograms filled by name after the loop. *)
Definition eWc_tail_names : list string :=
  [ "njet"; "hl_ptratio"; "soft_l_ptratio"; "dr_lmujetsmu"; "dr_lmujethmu"; "dr_lmusmu";
    "z_pt"; "z_eta"; "z_phi"; "z_mass"; "w_pt"; "w_eta"; "w_phi"; "w_mass" ].

Definition tt_tail_names : list string := [ "dr_mujet0"; "dr_mujet1"; "njet" ].

(** The processor with other calibration tables and pileup weights, and the
    collaborators with other lepton and c-tag scale-factor readers. *)
Definition with_tables (self : NanoProcessor) (cj : CTable) (bj : BTable)
           (cc : CTable) (bc : BTable) (pu : Q -> Q) : NanoProcessor :=
  mkProcessor (isCorr self) (isJERC self) (lumiMask self) cj bj cc bc pu
              (_hist_event_dict self).

Definition with_readers (imp : Imports) (esf msf : option Lepton -> Q)
           (gsf : Z -> Q -> Q -> CTable -> option string -> Q) : Imports :=
  mkImports (missing_branch imp) (add_jec imp) (jet_id imp) (mu_idiso imp)
            (ele_mvatightid imp) (ele_cuttightid imp) (softmu_mask imp)
            esf msf gsf (delta_r imp) (vec_add imp).

(** A fill call whose rows are all complete: no value, weight or flavour is
    missing, and the columns have one length. *)
Definition complete (c : Hist.FillCall) : Prop :=
  Forall (fun x => x <> None) (Hist.fc_val c) /\
  Forall (fun x => x <> None) (Hist.fc_weight c) /\
  List.length (Hist.fc_weight c) = List.length (Hist.fc_val c) /\
  match Hist.fc_flav c with
  | Some fl => Forall (fun x => x <> None) fl /\ List.length fl = List.length (Hist.fc_val c)
  | None => True
  end.

(* ================================================================== *)
(** * Properties *)

(** ** Columns: elementwise operators, masks, sums *)

Section ColumnLemmas.

Context {A B C : Type}.

Lemma map2_length (f : A -> B -> C) xs ys :
  List.length (Ak.map2 f xs ys) = Nat.min (List.length xs) (List.length ys).
Proof.
  revert ys; induction xs as [|x xs IH]; intros [|y ys]; simpl; auto.
Qed.

Lemma nth_error_map2 (f : A -> B -> C) xs ys i :
  nth_error (Ak.map2 f xs ys) i =
  match nth_error xs i, nth_error ys i with
  | Some x, Some y => Some (f x y)
  | _, _ => None
  end.
Proof.
  revert ys i; induction xs as [|x xs IH]; intros [|y ys] [|i]; simpl; auto.
  destruct (nth_error xs i); reflexivity.
Qed.

Lemma map2_app (f : A -> B -> C) xs xs' ys ys' :
  List.length xs = List.length ys ->
  Ak.map2 f (xs ++ xs') (ys ++ ys') = Ak.map2 f xs ys ++ Ak.map2 f xs' ys'.
Proof.
  revert ys; induction xs as [|x xs IH]; intros [|y ys] H; simpl in *; try discriminate; auto.
  f_equal; apply IH; lia.
Qed.

Lemma map2_map_map {E : Type} (f : A -> B -> C) (g : E -> A) (h : E -> B) l :
  Ak.map2 f (map g l) (map h l) = map (fun e => f (g e) (h e)) l.
Proof.
  induction l as [|e l IH]; simpl; congruence.
Qed.

End ColumnLemmas.

Lemma fold_map2_length {A : Type} (f : A -> A -> A) (cs : list (list A)) (c0 : list A) n :
  List.length c0 = n -> Forall (fun c => List.length c = n) cs ->
  List.length (fold_left (Ak.map2 f) cs c0) = n.
Proof.
  revert c0; induction cs as [|c cs IH]; intros c0 H0 Hcs; simpl; auto.
  inversion Hcs; subst. apply IH; auto.
  rewrite map2_length. lia.
Qed.

Lemma req_trig_length {E M : Type} (b : Batch E M) (ts : list string) :
  List.length (req_trig b ts) = len b.
Proof.
  unfold req_trig. apply fold_map2_length.
  - unfold Ak.zeros_bool. apply repeat_length.
  - unfold trig_arrs. apply Forall_forall. intros c Hc.
    apply in_map_iff in Hc. destruct Hc as [t [<- _]].
    unfold HLT_col, len. apply length_map.
Qed.

(** ** The mask combinator: a conjunction of columns with missing entries *)

Lemma and_cols_true (cs : list (list (option bool))) (c0 : list (option bool)) i :
  nth_error (fold_left (Ak.map2 Ak.and_opt) cs c0) i = Some (Some true) <->
  nth_error c0 i = Some (Some true) /\
  Forall (fun c => nth_error c i = Some (Some true)) cs.
Proof.
  revert c0; induction cs as [|c cs IH]; intros c0; simpl.
  - split; [intros H; split; auto | tauto].
  - rewrite IH, nth_error_map2. split.
    + intros [H Hcs].
      destruct (nth_error c0 i) as [[[|]|]|] eqn:E0, (nth_error c i) as [[[|]|]|] eqn:E1;
        simpl in H; try discriminate.
      split; [reflexivity | constructor; auto].
    + intros [H Hcs]. inversion Hcs; subst. rewrite H, H2. auto.
Qed.

Lemma and_cols_length (cs : list (list (option bool))) (c0 : list (option bool)) n :
  List.length c0 = n -> Forall (fun c => List.length c = n) cs ->
  List.length (fold_left (Ak.map2 Ak.and_opt) cs c0) = n.
Proof. apply fold_map2_length. Qed.

(** The filled mask of a conjunction of columns of one length [n], at an
    event [i < n]: it has an entry, which is [true] exactly when every column
    is [Some true] there, hence [false] as soon as one column is [Some false]
    or missing. *)
Lemma mask_and_law (cs : list (list (option bool))) (c0 : list (option bool)) n i :
  Forall (fun c => List.length c = n) (c0 :: cs) -> (i < n)%nat ->
  exists m : bool,
    nth_error (map Ak.fill_none_false (fold_left (Ak.map2 Ak.and_opt) cs c0)) i = Some m /\
    (m = true <-> Forall (fun r => nth_error r i = Some (Some true)) (c0 :: cs)) /\
    (Exists (fun r => nth_error r i = Some (Some false) \/ nth_error r i = Some None)
            (c0 :: cs) -> m = false).
Proof.
  intros Hlen Hi. inversion Hlen as [|? ? H0 Hcs]; subst.
  pose proof (and_cols_length cs c0 _ eq_refl Hcs) as Hl.
  pose proof (and_cols_true cs c0 i) as Ht.
  destruct (nth_error (fold_left (Ak.map2 Ak.and_opt) cs c0) i) as [v|] eqn:Hv.
  2:{ apply nth_error_None in Hv. lia. }
  assert (Hiff : Ak.fill_none_false v = true <->
                 Forall (fun r => nth_error r i = Some (Some true)) (c0 :: cs)).
  { split.
    - intros Hm. destruct v as [[|]|]; simpl in Hm; try discriminate.
      destruct Ht as [Ht _]. destruct (Ht eq_refl). constructor; auto.
    - intros Hall. inversion Hall; subst.
      destruct Ht as [_ Ht]. specialize (Ht (conj H1 H2)).
      injection Ht as ->. reflexivity. }
  exists (Ak.fill_none_false v). split; [|split].
  - rewrite nth_error_map, Hv. reflexivity.
  - exact Hiff.
  - intros Hex. destruct (Ak.fill_none_false v) eqn:Hm; auto.
    destruct Hiff as [Hiff _]. specialize (Hiff eq_refl).
    apply Exists_exists in Hex. destruct Hex as [r [Hr Hbad]].
    rewrite Forall_forall in Hiff. specialize (Hiff r Hr).
    destruct Hbad as [Hbad|Hbad]; rewrite Hbad in Hiff; discriminate.
Qed.

Lemma len_object_selection imp (b : Batch Lepton Lepton) :
  len (TTdilep.object_selection imp b) = len b.
Proof.
  unfold len, TTdilep.object_selection, TTdilep.electron_cuts, TTdilep.muon_cuts,
    TTdilep.set_Electron, TTdilep.set_Muon; simpl.
  rewrite !length_map. reflexivity.
Qed.

Lemma pad_none1_first_length {A : Type} (xs : list A) :
  List.length (firstn 1 (Ak.pad_none1 xs)) = 1%nat.
Proof. destruct xs; reflexivity. Qed.

Lemma flatten_singletons_length {A B : Type} (f : A -> list B) (l : list A) :
  (forall a, In a l -> List.length (f a) = 1%nat) ->
  List.length (Ak.flatten (map f l)) = List.length l.
Proof.
  unfold Ak.flatten. induction l as [|a l IH]; intros H; simpl; auto.
  rewrite length_app, H by (left; reflexivity).
  rewrite IH; auto. intros; apply H; right; assumption.
Qed.

Lemma req_opposite_charge_length imp (b : Batch Lepton Lepton) :
  List.length (TTdilep.req_opposite_charge (TTdilep.object_selection imp b)) = len b.
Proof.
  unfold TTdilep.req_opposite_charge.
  rewrite flatten_singletons_length.
  - apply len_object_selection.
  - intros e He. rewrite length_map, map2_length.
    unfold TTdilep.object_selection, TTdilep.electron_cuts, TTdilep.muon_cuts,
      TTdilep.set_Electron, TTdilep.set_Muon in He; simpl in He.
    rewrite !map_map in He. apply in_map_iff in He. destruct He as [e0 [<- _]].
    cbn [Electron Muon].
    rewrite !pad_none1_first_length. reflexivity.
Qed.

Lemma req_lumi_length_eWc self isRealData (b : Batch Lepton Lepton) :
  List.length (EWc.req_lumi self isRealData b) = len b.
Proof.
  unfold EWc.req_lumi, Ak.ones_bool, len.
  destruct isRealData; [apply length_map | apply repeat_length].
Qed.

Lemma req_lumi_length_tt self isRealData (b : TTdilep.SelBatch) :
  List.length (TTdilep.req_lumi self isRealData b) = len b.
Proof.
  unfold TTdilep.req_lumi, Ak.ones_bool, len.
  destruct isRealData; [apply length_map | apply repeat_length].
Qed.

Lemma event_level_and_eWc imp self isRealData (b : Batch Lepton Lepton) i :
  (i < len b)%nat ->
  and_law (EWc.event_level imp self isRealData b (req_trig b EWc.triggers))
          (EWc.requirements imp self isRealData b (req_trig b EWc.triggers)) i.
Proof.
  intros Hi. unfold and_law, EWc.event_level, EWc.event_level_raw, EWc.requirements,
    EWc.and_col.
  match goal with
  | |- context [fold_left] => idtac
  | |- exists m, nth_error (map _ ?chain) _ = _ /\ _ =>
      match chain with
      | context [Ak.map2 Ak.and_opt (map Some ?rt) ?c1] =>
          change chain with
            (fold_left (Ak.map2 Ak.and_opt)
               [c1; map Some (EWc.req_ele imp b); map Some (EWc.req_jets imp b);
                map Some (EWc.req_softmu imp b); map Some (EWc.req_mujet imp b);
                EWc.req_Wmass imp b; map Some (EWc.req_dilepveto imp b);
                EWc.req_QCDveto imp b; EWc.req_pTratio imp b]
               (map Some rt))
      end
  end.
  apply mask_and_law with (n := len b); auto.
  pose proof (req_trig_length b EWc.triggers).
  pose proof (req_lumi_length_eWc self isRealData b).
  repeat constructor; unfold EWc.req_ele, EWc.req_jets, EWc.req_softmu, EWc.req_mujet,
    EWc.req_Wmass, EWc.req_dilepveto, EWc.req_QCDveto, EWc.req_pTratio, len in *;
    rewrite ?length_map; auto.
Qed.

Lemma event_level_and_tt imp self isRealData (b : Batch Lepton Lepton) i :
  (i < len b)%nat ->
  let bs := TTdilep.object_selection imp b in
  and_law (TTdilep.event_level imp self isRealData bs (req_trig b TTdilep.triggers))
          (TTdilep.requirements imp self isRealData bs (req_trig b TTdilep.triggers)) i.
Proof.
  intros Hi bs. unfold and_law, TTdilep.event_level, TTdilep.event_level_raw,
    TTdilep.requirements, TTdilep.and_col.
  match goal with
  | |- exists m, nth_error (map _ ?chain) _ = _ /\ _ =>
      match chain with
      | context [Ak.map2 Ak.and_opt (map Some ?rt) ?c1] =>
          change chain with
            (fold_left (Ak.map2 Ak.and_opt)
               [c1; map Some (TTdilep.req_muon bs); map Some (TTdilep.req_ele bs);
                map Some (TTdilep.req_jets imp bs);
                map Some (TTdilep.req_opposite_charge bs)]
               (map Some rt))
      end
  end.
  apply mask_and_law with (n := len b); auto.
  pose proof (req_trig_length b TTdilep.triggers).
  pose proof (req_lumi_length_tt self isRealData bs).
  pose proof (req_opposite_charge_length imp b).
  pose proof (len_object_selection imp b).
  fold bs in H1, H2.
  repeat constructor; unfold TTdilep.req_muon, TTdilep.req_ele, TTdilep.req_jets, len in *;
    rewrite ?length_map; auto; congruence.
Qed.

(** C1 - in both workflows the final mask [event_level] of a batch is, at
    every event, the conjunction of the per-event requirements with a missing
    value counted as [False]: the entry is [true] only if every requirement
    is [True] there, and [false] whenever one of them is [False] or missing. *)
Theorem event_level_and_law imp self isRealData (b : Batch Lepton Lepton) i :
  (i < len b)%nat ->
  and_law (EWc.event_level imp self isRealData b (req_trig b EWc.triggers))
          (EWc.requirements imp self isRealData b (req_trig b EWc.triggers)) i /\
  and_law (TTdilep.event_level imp self isRealData (TTdilep.object_selection imp b)
                               (req_trig b TTdilep.triggers))
          (TTdilep.requirements imp self isRealData (TTdilep.object_selection imp b)
                                (req_trig b TTdilep.triggers)) i.
Proof.
  intros Hi. split.
  - apply event_level_and_eWc; assumption.
  - apply event_level_and_tt; assumption.
Qed.

(** ** The HLT block *)

Lemma all_false_iff (p : string -> bool) (ts : list string) :
  forallb (fun c => Bool.eqb c false) (map p ts) = true <->
  Forall (fun t => p t = false) ts.
Proof.
  induction ts as [|t ts IH]; simpl.
  - split; auto.
  - rewrite andb_true_iff, IH. split.
    + intros [H1 H2]. constructor; auto. destruct (p t); auto; discriminate.
    + intros H. inversion H; subst. rewrite H2. auto.
Qed.

Lemma any_false_iff (p : string -> bool) (ts : list string) :
  existsb (fun c => Bool.eqb c false) (map p ts) = negb (forallb p ts).
Proof.
  induction ts as [|t ts IH]; simpl; auto.
  rewrite IH. destruct (p t); simpl; auto.
Qed.

Lemma select_negb_map {A : Type} (p : A -> bool) (ts : list A) :
  Ak.select (map negb (map p ts)) ts = filter (fun t => negb (p t)) ts.
Proof.
  induction ts as [|t ts IH]; simpl; auto.
  destruct (p t); simpl; rewrite IH; reflexivity.
Qed.

Lemma fold_or_nth {E M : Type} (b : Batch E M) (ts : list string) :
  forall (acc : list bool) i e a,
    nth_error (events b) i = Some e -> nth_error acc i = Some a ->
    nth_error (fold_left (Ak.map2 orb) (map (HLT_col b) ts) acc) i =
    Some (a || existsb (HLT e) ts).
Proof.
  induction ts as [|t ts IH]; intros acc i e a He Ha; simpl.
  - rewrite orb_false_r. assumption.
  - rewrite (IH _ i e (a || HLT e t)); auto.
    + rewrite orb_assoc. reflexivity.
    + rewrite nth_error_map2, Ha. unfold HLT_col.
      rewrite nth_error_map, He. reflexivity.
Qed.

(** The trigger requirement is the OR, event by event, of the bits of the
    paths present in the schema. *)
Lemma req_trig_nth {E M : Type} (b : Batch E M) (ts : list string) i e :
  nth_error (events b) i = Some e ->
  nth_error (req_trig b ts) i = Some (existsb (HLT e) (filter (hasattr_HLT b) ts)).
Proof.
  intros He. unfold req_trig, trig_arrs.
  rewrite (fold_or_nth b _ _ i e false He); auto.
  unfold Ak.zeros_bool. apply nth_error_repeat.
  apply nth_error_Some. unfold len. congruence.
Qed.

Lemma hlt_block_raises {E M : Type} ds (b : Batch E M) (ts : list string) :
  (exists e, hlt_block ds b ts = inl e) <-> Forall (fun t => hasattr_HLT b t = false) ts.
Proof.
  unfold hlt_block, checkHLT. rewrite <- all_false_iff.
  destruct (forallb _ _); split; intros H; eauto; try discriminate.
  destruct H; discriminate.
Qed.

Lemma hlt_block_continues {E M : Type} ds (b : Batch E M) (ts : list string) :
  Exists (fun t => hasattr_HLT b t = true) ts ->
  hlt_block ds b ts = inr (hlt_diagnostic b ts, req_trig b ts).
Proof.
  intros Hex. unfold hlt_block, checkHLT.
  destruct (forallb (fun c => Bool.eqb c false) (map (hasattr_HLT b) ts)) eqn:Hall.
  - apply all_false_iff in Hall. apply Exists_exists in Hex.
    destruct Hex as [t [Ht Hp]]. rewrite Forall_forall in Hall.
    rewrite (Hall t Ht) in Hp. discriminate.
  - rewrite any_false_iff, select_negb_map. unfold hlt_diagnostic.
    destruct (forallb (hasattr_HLT b) ts); reflexivity.
Qed.

(** ** Exceptions of the fill statements *)

Lemma key_only_ret {A : Type} (a : A) : key_errors_only (inr a : Exn + A).
Proof. intros e H; discriminate. Qed.

Lemma key_only_bind {A B : Type} (m : Exn + A) (k : A -> Exn + B) :
  key_errors_only m -> (forall a, key_errors_only (k a)) -> key_errors_only (bind m k).
Proof.
  intros Hm Hk e. destruct m as [e'|a]; simpl.
  - intros H; injection H as <-. apply Hm; reflexivity.
  - apply Hk.
Qed.

Lemma key_only_dict_get {V : Type} (d : list (string * V)) key :
  key_errors_only (dict_get d key).
Proof.
  induction d as [|[k v] d IH]; simpl.
  - intros e H; injection H as <-; eauto.
  - destruct (String.eqb k key); [apply key_only_ret | exact IH].
Qed.

Lemma key_only_fill_at out key c : key_errors_only (fill_at out key c).
Proof.
  induction out as [|[k h] out IH]; simpl.
  - intros e H; injection H as <-; eauto.
  - destruct (String.eqb k key); [apply key_only_ret|].
    intros e. destruct (fill_at out key c) as [e'|r] eqn:Hf.
    + intros H; injection H as <-. apply IH; reflexivity.
    + discriminate.
Qed.

Lemma key_only_fill_all cs : forall out, key_errors_only (fill_all out cs).
Proof.
  induction cs as [|[key c] cs IH]; intros out; simpl.
  - apply key_only_ret.
  - apply key_only_bind; [apply key_only_fill_at | intros; apply IH].
Qed.

Lemma key_only_mapM {A B : Type} (f : A -> Exn + B) (xs : list A) :
  (forall x, key_errors_only (f x)) -> key_errors_only (mapM f xs).
Proof.
  intros Hf. induction xs as [|x xs IH]; simpl.
  - apply key_only_ret.
  - apply key_only_bind; [apply Hf|]. intros y.
    apply key_only_bind; [exact IH|]. intros; apply key_only_ret.
Qed.

Create HintDb key_only.

#[local] Hint Resolve key_only_ret key_only_dict_get key_only_fill_at key_only_fill_all
  : key_only.

Lemma key_only_btag_eWc imp self isRealData b lvl w0 i d flav jets :
  key_errors_only (EWc.btag_calls imp self isRealData b lvl w0 i d flav jets).
Proof.
  unfold EWc.btag_calls. destruct (negb isRealData && isCorr self); auto with key_only.
  apply key_only_bind; auto with key_only.
Qed.

Lemma key_only_loop_calls_eWc imp self isRealData b lvl w0 name :
  key_errors_only (EWc.loop_calls imp self isRealData b lvl w0 name).
Proof.
  unfold EWc.loop_calls.
  repeat match goal with
         | |- key_errors_only (if ?c then _ else _) => destruct c
         end; auto using key_only_btag_eWc with key_only.
Qed.

Lemma key_only_btag_tt imp self isRealData b lvl w0 i name :
  key_errors_only (TTdilep.btag_calls imp self isRealData b lvl w0 i name).
Proof.
  unfold TTdilep.btag_calls. destruct (negb isRealData && isCorr self); auto with key_only.
  apply key_only_bind; auto with key_only.
Qed.

Lemma key_only_for_jets name body :
  (forall i, key_errors_only (body i)) -> key_errors_only (TTdilep.for_jets name body).
Proof.
  intros Hb. unfold TTdilep.for_jets.
  apply key_only_bind.
  - destruct (Str.contains _ _); auto with key_only.
  - intros c0. apply key_only_bind; auto with key_only.
    destruct (Str.contains _ _); auto with key_only.
Qed.

Lemma key_only_loop_calls_tt imp self isRealData b lvl w0 name :
  key_errors_only (TTdilep.loop_calls imp self isRealData b lvl w0 name).
Proof.
  unfold TTdilep.loop_calls.
  repeat match goal with
         | |- key_errors_only (if ?c then _ else _) => destruct c
         end; auto with key_only;
    apply key_only_for_jets; intros; auto using key_only_btag_tt with key_only.
Qed.

Lemma key_only_fills_eWc imp self isRealData b lvl w0 hs :
  key_errors_only
    (bind (EWc.loop imp self isRealData b lvl w0 hs)
          (fun out => fill_all out (EWc.tail_calls imp self isRealData b lvl w0))).
Proof.
  apply key_only_bind; auto with key_only.
  apply key_only_mapM. intros nh.
  apply key_only_bind; auto using key_only_loop_calls_eWc with key_only.
Qed.

Lemma key_only_fills_tt imp self isRealData b lvl w0 hs :
  key_errors_only
    (bind (TTdilep.loop imp self isRealData b lvl w0 hs)
          (fun out => fill_all out (TTdilep.tail_calls imp self isRealData b lvl w0))).
Proof.
  apply key_only_bind; auto with key_only.
  apply key_only_mapM. intros nh.
  apply key_only_bind; auto using key_only_loop_calls_tt with key_only.
Qed.

(** The registration of the generator weights: it goes through for real data
    and for a batch that is not empty, and raises on an empty simulated
    batch. *)
Lemma register_cases {E M : Type} isRealData (b : Batch E M) :
  (register_genweight isRealData b = inr tt /\
   (isRealData = true \/ len b <> 0%nat)) \/
  (register_genweight isRealData b = inl (WeightsError "genweight") /\
   isRealData = false /\ len b = 0%nat).
Proof.
  unfold register_genweight, add_stats, len.
  destruct isRealData; cbn [negb]; [left; auto|].
  destruct (events b) as [|e evs]; cbn [map List.length].
  - right. auto.
  - left. split; [reflexivity|]. right. discriminate.
Qed.

Lemma register_app_l {E M : Type} isRealData (s a : Batch E M) evs :
  register_genweight isRealData a = inr tt ->
  register_genweight isRealData (with_events s (events a ++ evs)) = inr tt.
Proof.
  unfold register_genweight, add_stats. destruct isRealData; cbn [negb]; [reflexivity|].
  cbn [events with_events]. destruct (events a); [discriminate | reflexivity].
Qed.

Lemma register_not_hlt {E M A : Type} isRealData (b : Batch E M) (m : Exn + A) e :
  key_errors_only m ->
  bind (register_genweight isRealData b) (fun _ => m) = inl e ->
  forall v, e <> HLTError v.
Proof.
  intros Hk H v ->.
  destruct (register_cases isRealData b) as [[Hr _]|[Hr _]]; rewrite Hr in H; cbn [bind] in H.
  - destruct (Hk _ H) as [k Hk']. discriminate.
  - discriminate.
Qed.

Lemma process_raises_eWc imp self (b0 : Batch Lepton Lepton) :
  (exists e, EWc.process imp self b0 = Raised (HLTError e)) <->
  Forall (fun t => hasattr_HLT (EWc.prepare imp self b0) t = false) EWc.triggers.
Proof.
  unfold EWc.process, EWc.prepare.
  set (b := if isJERC self then _ else _).
  rewrite <- (hlt_block_raises (dataset b0) b EWc.triggers).
  destruct (hlt_block (dataset b0) b EWc.triggers) as [e|[p rt]] eqn:Hh.
  - split; intros _; eauto.
  - split.
    + intros [e He].
      match type of He with
      | match ?m with _ => _ end = _ => destruct m as [e'|out] eqn:Hb
      end; try discriminate.
      injection He as ->.
      exfalso.
      apply (register_not_hlt _ _ _ _ (key_only_fills_eWc _ _ _ _ _ _ _) Hb e).
      reflexivity.
    + intros [e He]; discriminate.
Qed.

Lemma process_raises_tt imp self (b0 : Batch Lepton Lepton) :
  (exists e, TTdilep.process imp self b0 = Raised (HLTError e)) <->
  Forall (fun t => hasattr_HLT (TTdilep.prepare imp self b0) t = false) TTdilep.triggers.
Proof.
  unfold TTdilep.process, TTdilep.prepare.
  set (b := if isJERC self then _ else _).
  rewrite <- (hlt_block_raises (dataset b0) b TTdilep.triggers).
  destruct (hlt_block (dataset b0) b TTdilep.triggers) as [e|[p rt]] eqn:Hh.
  - split; intros _; eauto.
  - split.
    + intros [e He].
      match type of He with
      | match ?m with _ => _ end = _ => destruct m as [e'|out] eqn:Hb
      end; try discriminate.
      injection He as ->.
      exfalso.
      apply (register_not_hlt _ _ _ _ (key_only_fills_tt _ _ _ _ _ _ _) Hb e).
      reflexivity.
    + intros [e He]; discriminate.
Qed.

Lemma process_printed_eWc imp self (b0 : Batch Lepton Lepton) printed ds out :
  EWc.process imp self b0 = Returned printed ds out ->
  printed = hlt_diagnostic (EWc.prepare imp self b0) EWc.triggers.
Proof.
  unfold EWc.process, EWc.prepare.
  set (b := if isJERC self then _ else _).
  destruct (hlt_block (dataset b0) b EWc.triggers) as [e|[p rt]] eqn:Hh; try discriminate.
  assert (Hex : Exists (fun t => hasattr_HLT b t = true) EWc.triggers).
  { destruct (Exists_dec (fun t => hasattr_HLT b t = true) EWc.triggers) as [H|H]; auto.
    - intros t. destruct (hasattr_HLT b t); [left|right]; congruence.
    - exfalso. assert (Ha : Forall (fun t => hasattr_HLT b t = false) EWc.triggers).
      { apply Forall_forall. intros t Ht. destruct (hasattr_HLT b t) eqn:E; auto.
        exfalso. apply H. apply Exists_exists. eauto. }
      apply (hlt_block_raises (dataset b0)) in Ha. destruct Ha as [e He]. congruence. }
  rewrite (hlt_block_continues _ _ _ Hex) in Hh. injection Hh as <- <-.
  match goal with
  | |- match ?m with _ => _ end = _ -> _ => destruct m
  end; try discriminate.
  intros H; injection H as <- _ _. reflexivity.
Qed.

Lemma process_printed_tt imp self (b0 : Batch Lepton Lepton) printed ds out :
  TTdilep.process imp self b0 = Returned printed ds out ->
  printed = hlt_diagnostic (TTdilep.prepare imp self b0) TTdilep.triggers.
Proof.
  unfold TTdilep.process, TTdilep.prepare.
  set (b := if isJERC self then _ else _).
  destruct (hlt_block (dataset b0) b TTdilep.triggers) as [e|[p rt]] eqn:Hh; try discriminate.
  assert (Hex : Exists (fun t => hasattr_HLT b t = true) TTdilep.triggers).
  { destruct (Exists_dec (fun t => hasattr_HLT b t = true) TTdilep.triggers) as [H|H]; auto.
    - intros t. destruct (hasattr_HLT b t); [left|right]; congruence.
    - exfalso. assert (Ha : Forall (fun t => hasattr_HLT b t = false) TTdilep.triggers).
      { apply Forall_forall. intros t Ht. destruct (hasattr_HLT b t) eqn:E; auto.
        exfalso. apply H. apply Exists_exists. eauto. }
      apply (hlt_block_raises (dataset b0)) in Ha. destruct Ha as [e He]. congruence. }
  rewrite (hlt_block_continues _ _ _ Hex) in Hh. injection Hh as <- <-.
  match goal with
  | |- match ?m with _ => _ end = _ -> _ => destruct m
  end; try discriminate.
  intros H; injection H as <- _ _. reflexivity.
Qed.

Lemma hlt_block_cases {E M : Type} ds (b : Batch E M) ts :
  (Forall (fun t => hasattr_HLT b t = false) ts /\
   hlt_block ds b ts = inl (mkValueError ts ds)) \/
  (Exists (fun t => hasattr_HLT b t = true) ts /\
   hlt_block ds b ts = inr (hlt_diagnostic b ts, req_trig b ts)).
Proof.
  destruct (Exists_dec (fun t => hasattr_HLT b t = true) ts) as [H|H].
  - intros t. destruct (hasattr_HLT b t); [left|right]; congruence.
  - right. split; [assumption|]. apply hlt_block_continues; assumption.
  - left. assert (Ha : Forall (fun t => hasattr_HLT b t = false) ts).
    { apply Forall_forall. intros t Ht. destruct (hasattr_HLT b t) eqn:Eh; auto.
      exfalso. apply H. apply Exists_exists. eauto. }
    split; [assumption|].
    unfold hlt_block, checkHLT. apply all_false_iff in Ha. rewrite Ha. reflexivity.
Qed.

Lemma HLT_present_or_absent {E M : Type} (b : Batch E M) ts :
  Exists (fun t => hasattr_HLT b t = true) ts ->
  ~ Forall (fun t => hasattr_HLT b t = false) ts.
Proof.
  intros Hex Hall. apply Exists_exists in Hex. destruct Hex as [t [Ht Hp]].
  rewrite Forall_forall in Hall. rewrite (Hall t Ht) in Hp. discriminate.
Qed.

(** The four outcomes of [process]. *)
Lemma process_outcome_eWc imp self (b0 : Batch Lepton Lepton) :
  (Forall (fun t => hasattr_HLT (EWc.prepare imp self b0) t = false) EWc.triggers /\
   EWc.process imp self b0 = Raised (HLTError (mkValueError EWc.triggers (dataset b0)))) \/
  (Exists (fun t => hasattr_HLT (EWc.prepare imp self b0) t = true) EWc.triggers /\
   has_genWeight b0 = true /\ len (EWc.prepare imp self b0) = 0%nat /\
   EWc.process imp self b0 = Raised (WeightsError "genweight")) \/
  (Exists (fun t => hasattr_HLT (EWc.prepare imp self b0) t = true) EWc.triggers /\
   (has_genWeight b0 = false \/ len (EWc.prepare imp self b0) <> 0%nat) /\
   exists e,
     fill_phase
       (EWc.loop_calls imp self (negb (has_genWeight b0)) (EWc.prepare imp self b0)
          (eWc_mask imp self b0) (Weights.new (len (missing_branch imp b0))))
       (EWc.tail_calls imp self (negb (has_genWeight b0)) (EWc.prepare imp self b0)
          (eWc_mask imp self b0) (Weights.new (len (missing_branch imp b0))))
       (_hist_event_dict self) = inl e /\
     EWc.process imp self b0 = Raised e) \/
  (Exists (fun t => hasattr_HLT (EWc.prepare imp self b0) t = true) EWc.triggers /\
   (has_genWeight b0 = false \/ len (EWc.prepare imp self b0) <> 0%nat) /\
   exists out,
     fill_phase
       (EWc.loop_calls imp self (negb (has_genWeight b0)) (EWc.prepare imp self b0)
          (eWc_mask imp self b0) (Weights.new (len (missing_branch imp b0))))
       (EWc.tail_calls imp self (negb (has_genWeight b0)) (EWc.prepare imp self b0)
          (eWc_mask imp self b0) (Weights.new (len (missing_branch imp b0))))
       (_hist_event_dict self) = inr out /\
     EWc.process imp self b0 =
     Returned (hlt_diagnostic (EWc.prepare imp self b0) EWc.triggers) (dataset b0)
              (mkOutput (EWc.sumw_of (negb (has_genWeight b0)) (EWc.prepare imp self b0))
                        out)).
Proof.
  unfold eWc_mask, EWc.process, EWc.prepare.
  set (b := if isJERC self then _ else _).
  unfold EWc.loop, fill_phase.
  destruct (hlt_block_cases (dataset b0) b EWc.triggers) as [[Hall ->]|[Hex ->]];
    [left; auto|right].
  destruct (register_cases (negb (has_genWeight b0)) b) as [[-> Hr]|[-> [Hr Hl]]];
    cbn [bind].
  - right.
    assert (Hr' : has_genWeight b0 = false \/ len b <> 0%nat).
    { destruct Hr as [Hr|Hr]; [left|right; exact Hr].
      destruct (has_genWeight b0); [discriminate|reflexivity]. }
    match goal with
    | |- context [bind ?m ?k] => destruct (bind m k) as [e|o]
    end; [left|right]; (split; [exact Hex|]); (split; [exact Hr'|]); eauto.
  - left. split; [exact Hex|]. split; [|split; [exact Hl|reflexivity]].
    destruct (has_genWeight b0); [reflexivity|discriminate].
Qed.

Lemma process_outcome_tt imp self (b0 : Batch Lepton Lepton) :
  (Forall (fun t => hasattr_HLT (TTdilep.prepare imp self b0) t = false) TTdilep.triggers /\
   TTdilep.process imp self b0 =
   Raised (HLTError (mkValueError TTdilep.triggers (dataset b0)))) \/
  (Exists (fun t => hasattr_HLT (TTdilep.prepare imp self b0) t = true) TTdilep.triggers /\
   has_genWeight b0 = true /\ len (TTdilep.prepare imp self b0) = 0%nat /\
   TTdilep.process imp self b0 = Raised (WeightsError "genweight")) \/
  (Exists (fun t => hasattr_HLT (TTdilep.prepare imp self b0) t = true) TTdilep.triggers /\
   (has_genWeight b0 = false \/ len (TTdilep.prepare imp self b0) <> 0%nat) /\
   exists e,
     fill_phase
       (TTdilep.loop_calls imp self (negb (has_genWeight b0))
          (TTdilep.object_selection imp (TTdilep.prepare imp self b0))
          (tt_mask imp self b0) (Weights.new (len (missing_branch imp b0))))
       (TTdilep.tail_calls imp self (negb (has_genWeight b0))
          (TTdilep.object_selection imp (TTdilep.prepare imp self b0))
          (tt_mask imp self b0) (Weights.new (len (missing_branch imp b0))))
       (_hist_event_dict self) = inl e /\
     TTdilep.process imp self b0 = Raised e) \/
  (Exists (fun t => hasattr_HLT (TTdilep.prepare imp self b0) t = true) TTdilep.triggers /\
   (has_genWeight b0 = false \/ len (TTdilep.prepare imp self b0) <> 0%nat) /\
   exists out,
     fill_phase
       (TTdilep.loop_calls imp self (negb (has_genWeight b0))
          (TTdilep.object_selection imp (TTdilep.prepare imp self b0))
          (tt_mask imp self b0) (Weights.new (len (missing_branch imp b0))))
       (TTdilep.tail_calls imp self (negb (has_genWeight b0))
          (TTdilep.object_selection imp (TTdilep.prepare imp self b0))
          (tt_mask imp self b0) (Weights.new (len (missing_branch imp b0))))
       (_hist_event_dict self) = inr out /\
     TTdilep.process imp self b0 =
     Returned (hlt_diagnostic (TTdilep.prepare imp self b0) TTdilep.triggers) (dataset b0)
              (mkOutput (TTdilep.sumw_of (negb (has_genWeight b0))
                                         (TTdilep.prepare imp self b0)) out)).
Proof.
  unfold tt_mask, TTdilep.process, TTdilep.prepare.
  set (b := if isJERC self then _ else _).
  unfold TTdilep.loop, fill_phase.
  destruct (hlt_block_cases (dataset b0) b TTdilep.triggers) as [[Hall ->]|[Hex ->]];
    [left; auto|right].
  destruct (register_cases (negb (has_genWeight b0)) (TTdilep.object_selection imp b))
    as [[-> Hr]|[-> [Hr Hl]]]; cbn [bind]; rewrite len_object_selection in *.
  - right.
    assert (Hr' : has_genWeight b0 = false \/ len b <> 0%nat).
    { destruct Hr as [Hr|Hr]; [left|right; exact Hr].
      destruct (has_genWeight b0); [discriminate|reflexivity]. }
    match goal with
    | |- context [bind ?m ?k] => destruct (bind m k) as [e|o]
    end; [left|right]; (split; [exact Hex|]); (split; [exact Hr'|]); eauto.
  - left. split; [exact Hex|]. split; [|split; [exact Hl|reflexivity]].
    destruct (has_genWeight b0); [reflexivity|discriminate].
Qed.

Lemma single_path_silent {E M : Type} (b : Batch E M) t :
  Exists (fun t => hasattr_HLT b t = true) [t] -> hlt_diagnostic b [t] = [].
Proof.
  intros H. inversion H as [x l Hp|x l Hp]; subst; [|inversion Hp].
  unfold hlt_diagnostic. cbn [forallb]. rewrite Hp. reflexivity.
Qed.

(** C2 - [process] raises the HLT [ValueError] if and only if every requested
    trigger path is absent from the schema of the batch.  It raises for other
    reasons too, while the requested path is present: when the batch is
    simulated and has no event (the registration of the generator weights
    raises), and when a fill raises.  Each workflow requests a single path,
    so that a call which returns had that path in the schema and printed
    nothing; its histograms are those filled under the mask built on the
    trigger requirement of that path.  For any list of requested paths of
    which at least one is present, the HLT block does not raise, prints the
    absent paths (nothing when all are present), and hands on a trigger
    requirement that is, at every event, the OR of the bits of the present
    paths only. *)
Theorem trigger_policy imp self (b0 : Batch Lepton Lepton) :
  ((exists e, EWc.process imp self b0 = Raised (HLTError e)) <->
   Forall (fun t => hasattr_HLT (EWc.prepare imp self b0) t = false) EWc.triggers) /\
  ((exists e, TTdilep.process imp self b0 = Raised (HLTError e)) <->
   Forall (fun t => hasattr_HLT (TTdilep.prepare imp self b0) t = false) TTdilep.triggers) /\
  ((has_genWeight b0 = true /\ len (EWc.prepare imp self b0) = 0%nat) \/
   (exists e,
     fill_phase
       (EWc.loop_calls imp self (negb (has_genWeight b0))
          (EWc.prepare imp self b0)
          (eWc_mask imp self b0) (Weights.new (len (missing_branch imp b0))))
       (EWc.tail_calls imp self (negb (has_genWeight b0))
          (EWc.prepare imp self b0)
          (eWc_mask imp self b0) (Weights.new (len (missing_branch imp b0))))
       (_hist_event_dict self) = inl e) ->
   exists e, EWc.process imp self b0 = Raised e) /\
  ((has_genWeight b0 = true /\ len (TTdilep.prepare imp self b0) = 0%nat) \/
   (exists e,
     fill_phase
       (TTdilep.loop_calls imp self (negb (has_genWeight b0))
          (TTdilep.object_selection imp (TTdilep.prepare imp self b0))
          (tt_mask imp self b0) (Weights.new (len (missing_branch imp b0))))
       (TTdilep.tail_calls imp self (negb (has_genWeight b0))
          (TTdilep.object_selection imp (TTdilep.prepare imp self b0))
          (tt_mask imp self b0) (Weights.new (len (missing_branch imp b0))))
       (_hist_event_dict self) = inl e) ->
   exists e, TTdilep.process imp self b0 = Raised e) /\
  (forall printed ds out,
     EWc.process imp self b0 = Returned printed ds out ->
     Exists (fun t => hasattr_HLT (EWc.prepare imp self b0) t = true) EWc.triggers /\
     printed = hlt_diagnostic (EWc.prepare imp self b0) EWc.triggers /\
     printed = [] /\
     fill_phase
       (EWc.loop_calls imp self (negb (has_genWeight b0))
          (EWc.prepare imp self b0)
          (eWc_mask imp self b0) (Weights.new (len (missing_branch imp b0))))
       (EWc.tail_calls imp self (negb (has_genWeight b0))
          (EWc.prepare imp self b0)
          (eWc_mask imp self b0) (Weights.new (len (missing_branch imp b0))))
       (_hist_event_dict self) = inr (hists out)) /\
  (forall printed ds out,
     TTdilep.process imp self b0 = Returned printed ds out ->
     Exists (fun t => hasattr_HLT (TTdilep.prepare imp self b0) t = true)
            TTdilep.triggers /\
     printed = hlt_diagnostic (TTdilep.prepare imp self b0) TTdilep.triggers /\
     printed = [] /\
     fill_phase
       (TTdilep.loop_calls imp self (negb (has_genWeight b0))
          (TTdilep.object_selection imp (TTdilep.prepare imp self b0))
          (tt_mask imp self b0) (Weights.new (len (missing_branch imp b0))))
       (TTdilep.tail_calls imp self (negb (has_genWeight b0))
          (TTdilep.object_selection imp (TTdilep.prepare imp self b0))
          (tt_mask imp self b0) (Weights.new (len (missing_branch imp b0))))
       (_hist_event_dict self) = inr (hists out)) /\
  (forall (ts : list string) (ds : string),
     Exists (fun t => hasattr_HLT b0 t = true) ts ->
     hlt_block ds b0 ts = inr (hlt_diagnostic b0 ts, req_trig b0 ts) /\
     forall i e, nth_error (events b0) i = Some e ->
       nth_error (req_trig b0 ts) i =
       Some (existsb (HLT e) (filter (hasattr_HLT b0) ts))).
Proof.
  split; [apply process_raises_eWc|].
  split; [apply process_raises_tt|].
  split; [|split; [|split; [|split; [|]]]].
  - intros H.
    destruct (process_outcome_eWc imp self b0)
      as [[Ha Hp]|[(Hex & Hg & Hl & Hp)|[(Hex & Hr & e & Hf & Hp)|(Hex & Hr & out & Ho & Hp)]]];
      rewrite Hp; eauto.
    exfalso. destruct H as [[Hg Hl]|[e He]].
    + destruct Hr as [Hr|Hr]; [congruence|contradiction].
    + congruence.
  - intros H.
    destruct (process_outcome_tt imp self b0)
      as [[Ha Hp]|[(Hex & Hg & Hl & Hp)|[(Hex & Hr & e & Hf & Hp)|(Hex & Hr & out & Ho & Hp)]]];
      rewrite Hp; eauto.
    exfalso. destruct H as [[Hg Hl]|[e He]].
    + destruct Hr as [Hr|Hr]; [congruence|contradiction].
    + congruence.
  - intros printed ds out H.
    destruct (process_outcome_eWc imp self b0)
      as [[Ha Hp]|[(Hex & Hg & Hl & Hp)|[(Hex & Hr & e & Hf & Hp)|(Hex & Hr & o & Ho & Hp)]]];
      rewrite Hp in H; try discriminate.
    injection H as <- _ <-. split; [exact Hex|]. split; [reflexivity|].
    split; [apply single_path_silent; exact Hex | exact Ho].
  - intros printed ds out H.
    destruct (process_outcome_tt imp self b0)
      as [[Ha Hp]|[(Hex & Hg & Hl & Hp)|[(Hex & Hr & e & Hf & Hp)|(Hex & Hr & o & Ho & Hp)]]];
      rewrite Hp in H; try discriminate.
    injection H as <- _ <-. split; [exact Hex|]. split; [reflexivity|].
    split; [apply single_path_silent; exact Hex | exact Ho].
  - intros ts ds Hex. split.
    + apply hlt_block_continues; assumption.
    + intros i e He. apply req_trig_nth; assumption.
Qed.

Lemma trigger_policy_witness :
  hlt_block "ds" Ex.sim2 ["IsoMu24"; "Mu50"] = inr ([["Mu50"]], [true; true]).
Proof.
  destruct (trigger_policy Ex.imp (Ex.processor true Ex.eWc_names) Ex.sim2)
    as (_ & _ & _ & _ & _ & _ & H).
  destruct (H ["IsoMu24"; "Mu50"] "ds") as [-> _].
  - left. reflexivity.
  - reflexivity.
Defined.

(** C2 as stated fails: [process] raises although the requested trigger path
    is in the schema.  On a simulated batch without events the registration
    of the generator weights raises ([Weights.add] takes the minimum of an
    empty column); on a batch with events, a processor whose dictionary lacks
    the histogram ["njet"] raises a [KeyError] in the fills by name. *)
Lemma trigger_policy_counterexample :
  hasattr_HLT (EWc.prepare Ex.imp (Ex.processor true Ex.eWc_names)
                           (Ex.batch true Ex.all_hlt []))
              "Ele32_WPTight_Gsf_L1DoubleEG" = true /\
  EWc.process Ex.imp (Ex.processor true Ex.eWc_names) (Ex.batch true Ex.all_hlt []) =
    Raised (WeightsError "genweight") /\
  TTdilep.process Ex.imp (Ex.processor true Ex.tt_names) (Ex.batch true Ex.all_hlt []) =
    Raised (WeightsError "genweight") /\
  hasattr_HLT (EWc.prepare Ex.imp (Ex.processor true []) Ex.sim2)
              "Ele32_WPTight_Gsf_L1DoubleEG" = true /\
  EWc.process Ex.imp (Ex.processor true []) Ex.sim2 = Raised (KeyError "njet").
Proof. vm_compute. repeat split; reflexivity. Qed.

(** ** Sum of weights *)

Lemma sumw_of_process_eWc imp self b0 printed ds out :
  EWc.process imp self b0 = Returned printed ds out ->
  sumw out = EWc.sumw_of (negb (has_genWeight b0)) (EWc.prepare imp self b0).
Proof.
  unfold EWc.process, EWc.prepare.
  set (b := if isJERC self then _ else _).
  destruct (hlt_block _ _ _) as [e|[p rt]]; try discriminate.
  destruct (bind _ _); try discriminate.
  intros H; injection H as _ _ <-. reflexivity.
Qed.

Lemma sumw_of_process_tt imp self b0 printed ds out :
  TTdilep.process imp self b0 = Returned printed ds out ->
  sumw out = TTdilep.sumw_of (negb (has_genWeight b0)) (TTdilep.prepare imp self b0).
Proof.
  unfold TTdilep.process, TTdilep.prepare.
  set (b := if isJERC self then _ else _).
  destruct (hlt_block _ _ _) as [e|[p rt]]; try discriminate.
  destruct (bind _ _); try discriminate.
  intros H; injection H as _ _ <-. reflexivity.
Qed.

(** C4 - when the repair and jet-correction collaborators keep the events of
    the batch and their generator weights, the [sumw] of a returning call of
    either workflow is the number of events of the batch for real data (no
    [genWeight] branch) and the sum of [genWeight] over all events of the
    batch for simulation: a function of the whole batch, in which the
    selection mask does not appear. *)
Theorem sumw_whole_batch imp self (b0 : Batch Lepton Lepton) printed ds out :
  len (EWc.prepare imp self b0) = len b0 ->
  map genWeight (events (EWc.prepare imp self b0)) = map genWeight (events b0) ->
  EWc.process imp self b0 = Returned printed ds out \/
  TTdilep.process imp self b0 = Returned printed ds out ->
  sumw out = if has_genWeight b0
             then Ak.sum (map genWeight (events b0))
             else inject_Z (Z.of_nat (List.length (events b0))).
Proof.
  intros Hlen Hgw [H|H].
  - rewrite (sumw_of_process_eWc _ _ _ _ _ _ H). unfold EWc.sumw_of.
    rewrite Hlen, Hgw. destruct (has_genWeight b0); reflexivity.
  - rewrite (sumw_of_process_tt _ _ _ _ _ _ H). unfold TTdilep.sumw_of.
    change (TTdilep.prepare imp self b0) with (EWc.prepare imp self b0).
    rewrite Hlen, Hgw. destruct (has_genWeight b0); reflexivity.
Qed.

(** On [Ex.sim2] one event of weight 2 is selected and one of weight 5 is
    rejected: [sumw] is 7. *)
Lemma sumw_whole_batch_witness :
  sumw (Ex.output_of (EWc.process Ex.imp (Ex.processor true Ex.eWc_names) Ex.sim2)) =
  Ak.sum [2; 5].
Proof.
  apply (sumw_whole_batch Ex.imp (Ex.processor true Ex.eWc_names) Ex.sim2 [] "ds").
  - reflexivity.
  - reflexivity.
  - left. vm_compute. reflexivity.
Defined.

Lemma event_level_and_law_witness :
  and_law (EWc.event_level Ex.imp (Ex.processor true Ex.eWc_names) false Ex.sim2
                           (req_trig Ex.sim2 EWc.triggers))
          (EWc.requirements Ex.imp (Ex.processor true Ex.eWc_names) false Ex.sim2
                            (req_trig Ex.sim2 EWc.triggers)) 1 /\
  and_law (TTdilep.event_level Ex.imp (Ex.processor true Ex.eWc_names) false
                               (TTdilep.object_selection Ex.imp Ex.sim2)
                               (req_trig Ex.sim2 TTdilep.triggers))
          (TTdilep.requirements Ex.imp (Ex.processor true Ex.eWc_names) false
                                (TTdilep.object_selection Ex.imp Ex.sim2)
                                (req_trig Ex.sim2 TTdilep.triggers)) 1.
Proof.
  apply (event_level_and_law Ex.imp (Ex.processor true Ex.eWc_names) false Ex.sim2 1).
  unfold len; simpl; lia.
Defined.

(** ** Weight components *)

Lemma ones_as_map {A : Type} (l : list A) :
  Ak.ones (List.length l) = map (fun _ => 1) l.
Proof.
  unfold Ak.ones. induction l as [|a l IH]; simpl; congruence.
Qed.

Lemma weight_new_add {E M : Type} (evs : list (Event E M)) (name : string)
      (f : Event E M -> Q) :
  Weights.weight (Weights.add name (map f evs) (Weights.new (List.length evs))) =
  map (fun e => 1 * f e) evs.
Proof.
  unfold Weights.weight, Weights.add, Weights.new; simpl.
  rewrite ones_as_map. apply map2_map_map.
Qed.

Lemma weights_names_eWc imp self isRealData b lvl :
  Weights.names (EWc.weights imp self isRealData b lvl (Weights.new (len b))) =
  (if negb isRealData && isCorr self then ["lep2sf"; "lep1sf"; "puweight"] else []) ++
  (if isRealData then [] else ["genweight"]).
Proof. destruct isRealData, (isCorr self) eqn:Hc; unfold EWc.weights; rewrite Hc; reflexivity. Qed.

Lemma weights_names_tt imp self isRealData b lvl :
  Weights.names (TTdilep.weights imp self isRealData b lvl (Weights.new (len b))) =
  (if negb isRealData && isCorr self then ["lep2sf"; "lep1sf"; "puweight"] else []) ++
  (if isRealData then [] else ["genweight"]).
Proof.
  destruct isRealData, (isCorr self) eqn:Hc; unfold TTdilep.weights; rewrite Hc; reflexivity.
Qed.

(** C9 - the pileup and lepton components are registered only for simulated
    data with corrections enabled, and the generator weight only for
    simulated data.  For a real-data batch no component is registered and the
    per-event weight is 1 at every event.  For simulated data with corrections
    disabled the generator weight alone is registered and the per-event weight
    is [1 * genWeight].  For real data, or with corrections disabled, the
    discriminant fills do not consult the scale-factor dictionaries: only the
    ["noSF"] fill is made. *)
Theorem weights_registration imp self isRealData
        (b : Batch Lepton Lepton) (bs : TTdilep.SelBatch) lvl :
  let we := EWc.weights imp self isRealData b lvl (Weights.new (len b)) in
  let wt := TTdilep.weights imp self isRealData bs lvl (Weights.new (len bs)) in
  let registered :=
    (if negb isRealData && isCorr self then ["lep2sf"; "lep1sf"; "puweight"] else []) ++
    (if isRealData then [] else ["genweight"]) in
  Weights.names we = registered /\ Weights.names wt = registered /\
  (isRealData = true ->
   Weights.weight we = Ak.ones (len b) /\ Weights.weight wt = Ak.ones (len bs)) /\
  (isRealData = false -> isCorr self = false ->
   Weights.weight we = map (fun e => 1 * genWeight e) (events b) /\
   Weights.weight wt = map (fun e => 1 * genWeight e) (events bs)) /\
  (negb isRealData && isCorr self = false ->
   forall w0 i d flav jets name,
     EWc.btag_calls imp self isRealData b lvl w0 i d flav jets =
       inr [Hist.mkCall (Some "noSF") (Some flav)
                        (EWc.discr_col d jets) (EWc.wsel imp self isRealData b lvl w0)] /\
     exists nominal,
       TTdilep.btag_calls imp self isRealData bs lvl w0 i name = inr [nominal] /\
       Hist.fc_syst nominal = Some "noSF" /\
       Hist.fc_weight nominal = map Some (TTdilep.wsel imp self isRealData bs lvl w0)).
Proof.
  cbv zeta. split; [apply weights_names_eWc|]. split; [apply weights_names_tt|].
  split; [|split].
  - intros ->. unfold EWc.weights, TTdilep.weights; simpl. auto.
  - intros -> Hc. unfold EWc.weights, TTdilep.weights; rewrite Hc; cbn [negb andb].
    unfold len. rewrite !weight_new_add. auto.
  - intros Hsk w0 i d flav jets name.
    unfold EWc.btag_calls, TTdilep.btag_calls. rewrite Hsk. split; [reflexivity|].
    eexists. split; [reflexivity|]. split; reflexivity.
Qed.

Lemma weights_registration_witness :
  Weights.weight Ex.weights_nocorr = map (fun e => 1 * genWeight e) (events Ex.sim2).
Proof.
  destruct (weights_registration Ex.imp (Ex.processor false Ex.eWc_names) false Ex.sim2
              (TTdilep.object_selection Ex.imp Ex.sim2) [true; false])
    as (_ & _ & _ & H & _).
  destruct (H eq_refl eq_refl) as [H1 _]. exact H1.
Defined.

(** C9 as stated fails for simulated data with corrections disabled: the
    generator weight is registered, and the weight of the first event of
    [Ex.sim2] is 2, not 1. *)
Lemma weights_nocorr_counterexample :
  isCorr (Ex.processor false Ex.eWc_names) = false /\
  In "genweight" (Weights.names Ex.weights_nocorr) /\
  exists w, nth_error (Weights.weight Ex.weights_nocorr) 0 = Some w /\ w == 2 /\ ~ w == 1.
Proof.
  split; [reflexivity|]. split; [left; reflexivity|].
  exists (1 * 2). split; [reflexivity|]. split; [reflexivity|].
  intros H. vm_compute in H. discriminate.
Qed.

(** ** Discriminant clipping *)

Lemma ltb_lt (x y : Q) : Ak.ltb x y = true <-> x < y.
Proof.
  unfold Ak.ltb. rewrite negb_true_iff. split.
  - intros H. apply Qnot_le_lt. intros Hle. apply Qle_bool_iff in Hle. congruence.
  - intros H. destruct (Qle_bool y x) eqn:E; auto.
    apply Qle_bool_iff in E. exfalso. apply (Qlt_not_le _ _ H E).
Qed.

Lemma clip_neg (x : Q) : x < 0 -> clip x = (-2 # 10).
Proof. intros H. unfold clip, Ak.where_. apply ltb_lt in H. rewrite H. reflexivity. Qed.

Lemma clip_nonneg (x : Q) : 0 <= x -> clip x = x.
Proof.
  intros H. unfold clip, Ak.where_. destruct (Ak.ltb x 0) eqn:E; auto.
  apply ltb_lt in E. exfalso. apply (Qlt_not_le _ _ E H).
Qed.

Lemma raw_getSF imp cvl cvb t s :
  raw_lookup imp (fun j => getSF imp (hadronFlavour j) (jet_item cvl j) (jet_item cvb j) t s).
Proof. left. exists cvl, cvb, t, s. reflexivity. Qed.

Lemma raw_eval imp t var d :
  raw_lookup imp (fun j => eval t var (hadronFlavour j) (Qabs (eta (jet_p4 j)))
                                (pt (jet_p4 j)) (jet_item d j)).
Proof. right. exists t, var, d. reflexivity. Qed.

(** Case analysis on a lookup in [disc_list] and on the variations of a jet
    index. *)
Ltac disc_cases H :=
  cbn [dict_get] in H;
  repeat match type of H with
         | context [String.eqb ?a ?b] => destruct (String.eqb a b)
         end;
  try discriminate; injection H as <-.

Ltac variation_cases H :=
  cbn [dd_get map] in H;
  repeat match type of H with
         | context [Nat.eqb ?a ?b] => destruct (Nat.eqb a b)
         end;
  cbn [In] in H;
  repeat match type of H with
         | _ \/ _ => destruct H as [H|H]
         | False => contradiction
         | (_, _) = (_, _) => injection H as <- <-
         end.

Lemma disc_list_raw_eWc imp self b lvl d sfs i syst col :
  dict_get (EWc.disc_list imp self b lvl) d = inr sfs ->
  In (syst, col) (dd_get sfs i) ->
  exists f, raw_lookup imp f /\ col = map (option_map f) (EWc.smuon_jet imp b lvl).
Proof.
  intros Hd Hin. unfold EWc.disc_list in Hd.
  disc_cases Hd; unfold EWc.csvsfs_b, EWc.csvsfs_c, EWc.jetsfs_b, EWc.jetsfs_c in Hin;
    variation_cases Hin;
    unfold EWc.getSF_col, EWc.eval_col;
    eexists; (split; [|reflexivity]); auto using raw_getSF, raw_eval.
Qed.

Lemma disc_list_raw_tt imp self b lvl d sfs i syst col :
  dict_get (TTdilep.disc_list imp self b lvl) d = inr sfs ->
  In (syst, col) (dd_get sfs i) ->
  exists f, raw_lookup imp f /\ col = map (option_map f) (TTdilep.sjets_at imp b lvl i).
Proof.
  intros Hd Hin. unfold TTdilep.disc_list in Hd.
  disc_cases Hd;
    unfold TTdilep.csvsfs_b, TTdilep.csvsfs_c, TTdilep.jetsfs_b, TTdilep.jetsfs_c in Hin;
    destruct i as [|[|i]]; cbn [dd_get map Nat.eqb In] in Hin;
    repeat match type of Hin with
           | _ \/ _ => destruct Hin as [Hin|Hin]
           | False => contradiction
           | (_, _) = (_, _) => injection Hin as <- <-
           end;
    unfold TTdilep.getSF_col, TTdilep.eval_col;
    eexists; (split; [|reflexivity]); auto using raw_getSF, raw_eval.
Qed.

Lemma btag_calls_vals_eWc imp self isRealData b lvl w0 i d flav jets cs c :
  EWc.btag_calls imp self isRealData b lvl w0 i d flav jets = inr cs -> In c cs ->
  Hist.fc_val c = map (option_map (fun j => clip (jet_item d j))) jets.
Proof.
  unfold EWc.btag_calls. destruct (negb isRealData && isCorr self).
  - destruct (dict_get _ d) as [e|sfs]; simpl; try discriminate.
    intros H; injection H as <-. intros [<-|Hin]; [reflexivity|].
    apply in_map_iff in Hin. destruct Hin as [kv [<- _]]. reflexivity.
  - intros H; injection H as <-. intros [<-|[]]. reflexivity.
Qed.

Lemma btag_calls_vals_tt imp self isRealData b lvl w0 i name cs c :
  TTdilep.btag_calls imp self isRealData b lvl w0 i name = inr cs -> In c cs ->
  Hist.fc_val c =
  map Some (Ak.drop_none
              (map (option_map
                      (fun j => clip (jet_item (Str.remove (String.append "_" (TTdilep.str i))
                                                           name) j)))
                   (TTdilep.sjets_at imp b lvl i))).
Proof.
  unfold TTdilep.btag_calls. destruct (negb isRealData && isCorr self).
  - destruct (dict_get _ _) as [e|sfs]; simpl; try discriminate.
    intros H; injection H as <-. intros [<-|Hin]; [reflexivity|].
    apply in_map_iff in Hin. destruct Hin as [kv [<- _]]. reflexivity.
  - intros H; injection H as <-. intros [<-|[]]. reflexivity.
Qed.

(** C6 - a discriminant below 0 enters a fill as exactly -0.2 and a
    discriminant at or above 0 enters unchanged: the value column of every
    fill of a discriminant histogram, in both workflows, is the clipped
    discriminant of the target jets.  Every scale-factor column registered in
    [disc_list] is a lookup on the jets' own branches, read unclipped. *)
Theorem discriminant_clipping imp self isRealData :
  (forall x, x < 0 -> clip x = (-2 # 10)) /\
  (forall x, 0 <= x -> clip x = x) /\
  (forall b lvl w0 i d flav jets cs c,
     EWc.btag_calls imp self isRealData b lvl w0 i d flav jets = inr cs -> In c cs ->
     Hist.fc_val c = map (option_map (fun j => clip (jet_item d j))) jets) /\
  (forall b lvl w0 i name cs c,
     TTdilep.btag_calls imp self isRealData b lvl w0 i name = inr cs -> In c cs ->
     Hist.fc_val c =
     map Some (Ak.drop_none
                 (map (option_map
                         (fun j => clip (jet_item
                                           (Str.remove (String.append "_" (TTdilep.str i)) name)
                                           j)))
                      (TTdilep.sjets_at imp b lvl i)))) /\
  (forall b lvl d sfs i syst col,
     dict_get (EWc.disc_list imp self b lvl) d = inr sfs ->
     In (syst, col) (dd_get sfs i) ->
     exists f, raw_lookup imp f /\ col = map (option_map f) (EWc.smuon_jet imp b lvl)) /\
  (forall b lvl d sfs i syst col,
     dict_get (TTdilep.disc_list imp self b lvl) d = inr sfs ->
     In (syst, col) (dd_get sfs i) ->
     exists f, raw_lookup imp f /\ col = map (option_map f) (TTdilep.sjets_at imp b lvl i)).
Proof.
  split; [exact clip_neg|]. split; [exact clip_nonneg|].
  split; [intros; eapply btag_calls_vals_eWc; eauto|].
  split; [intros; eapply btag_calls_vals_tt; eauto|].
  split; [intros; eapply disc_list_raw_eWc; eauto|].
  intros; eapply disc_list_raw_tt; eauto.
Qed.

Lemma discriminant_clipping_witness :
  clip (jet_item "btagDeepB" Ex.jet_c) = (-2 # 10) /\
  clip (jet_item "btagDeepB" Ex.jet_l) = 3 # 10.
Proof.
  destruct (discriminant_clipping Ex.imp (Ex.processor true Ex.eWc_names) false)
    as (H1 & H2 & _).
  split.
  - apply H1. vm_compute. reflexivity.
  - apply (H2 (jet_item "btagDeepB" Ex.jet_l)). vm_compute. discriminate.
Defined.

(** ** Nominal and systematic fills *)

(** Evaluation of the string tests of the dispatch on a literal name. *)
Ltac eval_names :=
  repeat match goal with
         | |- context [String.append ?a ?b] =>
             let v := eval vm_compute in (String.append a b) in
             change (String.append a b) with v
         | |- context [Str.contains ?a ?b] =>
             let v := eval vm_compute in (Str.contains a b) in
             change (Str.contains a b) with v
         | |- context [Str.remove ?a ?b] =>
             let v := eval vm_compute in (Str.remove a b) in
             change (Str.remove a b) with v
         | |- context [String.eqb ?a ?b] =>
             let v := eval vm_compute in (String.eqb a b) in
             change (String.eqb a b) with v
         end;
  cbn [andb negb orb].

Ltac names_cases H :=
  unfold disc_names in H; cbn [In] in H;
  repeat match type of H with
         | _ \/ _ => destruct H as [H|H]
         | False => contradiction
         end; subst.

Lemma loop_calls_btag0_eWc imp self isRealData b lvl w0 d :
  In d disc_names ->
  EWc.loop_calls imp self isRealData b lvl w0 (String.append d "_0") =
  EWc.btag_calls imp self isRealData b lvl w0 0 d
                 (EWc.smflav imp isRealData b lvl) (EWc.smuon_jet imp b lvl).
Proof.
  intros Hd. names_cases Hd; unfold EWc.loop_calls; eval_names; reflexivity.
Qed.

Lemma loop_calls_btag1_eWc imp self isRealData b lvl w0 d :
  In d disc_names ->
  EWc.loop_calls imp self isRealData b lvl w0 (String.append d "_1") =
  if forallb (fun i => Nat.ltb 1 i) (EWc.njet imp b lvl)
  then EWc.btag_calls imp self isRealData b lvl w0 1 d
         (map (fun fs => nth_error fs 1) (EWc.genflavor imp isRealData b lvl))
         (map (fun js => nth_error js 1) (EWc.sjets imp b lvl))
  else inr [].
Proof.
  intros Hd. names_cases Hd; unfold EWc.loop_calls; eval_names; reflexivity.
Qed.

Lemma loop_calls_btag_tt imp self isRealData b lvl w0 d i :
  In d disc_names -> (i < 2)%nat ->
  TTdilep.loop_calls imp self isRealData b lvl w0 (String.append d (String.append "_" (TTdilep.str i))) =
  bind (TTdilep.btag_calls imp self isRealData b lvl w0 i
          (String.append d (String.append "_" (TTdilep.str i))))
       (fun cs => inr cs).
Proof.
  intros Hd Hi. destruct i as [|[|i]]; [| |lia];
    names_cases Hd; unfold TTdilep.loop_calls, TTdilep.for_jets, TTdilep.str;
    eval_names; cbn [bind];
    match goal with
    | |- context [TTdilep.btag_calls ?a ?b ?c ?d ?e ?f ?g ?h] =>
        destruct (TTdilep.btag_calls a b c d e f g h)
    end; cbn [bind]; rewrite ?app_nil_r; reflexivity.
Qed.

Lemma fills_eWc_0 imp self isRealData b lvl w0 d :
  In d disc_names ->
  exists vars,
    EWc.loop_calls imp self isRealData b lvl w0 (String.append d "_0") =
    inr (Hist.mkCall (Some "noSF") (Some (EWc.smflav imp isRealData b lvl))
                     (EWc.discr_col d (EWc.smuon_jet imp b lvl))
                     (EWc.wsel imp self isRealData b lvl w0)
         :: map (fun kv => Hist.mkCall (Some (fst kv)) (Some (EWc.smflav imp isRealData b lvl))
                             (EWc.discr_col d (EWc.smuon_jet imp b lvl))
                             (EWc.wsel_sf imp self isRealData b lvl w0 (snd kv)))
                vars) /\
    (negb isRealData && isCorr self = true ->
     Permutation (map fst vars) variant_names /\
     exists sfs, dict_get (EWc.disc_list imp self b lvl) d = inr sfs /\
                 vars = dd_get sfs 0) /\
    (negb isRealData && isCorr self = false -> vars = []).
Proof.
  intros Hd. rewrite loop_calls_btag0_eWc by assumption. unfold EWc.btag_calls.
  destruct (negb isRealData && isCorr self).
  - names_cases Hd; unfold EWc.disc_list; cbn [dict_get]; eval_names; cbn [bind];
      (eexists; split; [reflexivity|]; split; [intros _ | discriminate]);
      (split; [|eexists; split; reflexivity]);
      unfold EWc.csvsfs_b, EWc.csvsfs_c, EWc.jetsfs_b, EWc.jetsfs_c, variant_names;
      cbn [dd_get Nat.eqb map fst];
      first [apply Permutation_refl | apply perm_swap].
  - exists []. split; [reflexivity|]. split; [discriminate | reflexivity].
Qed.

Lemma fills_tt imp self isRealData b lvl w0 d i :
  In d disc_names -> (i < 2)%nat ->
  exists vars,
    TTdilep.loop_calls imp self isRealData b lvl w0
      (String.append d (String.append "_" (TTdilep.str i))) =
    inr (Hist.mkCall (Some "noSF") (Some (TTdilep.flav_col imp isRealData b lvl i))
                     (TTdilep.discr_col d (TTdilep.sjets_at imp b lvl i))
                     (map Some (TTdilep.wsel imp self isRealData b lvl w0))
         :: map (fun kv => Hist.mkCall (Some (fst kv))
                             (Some (TTdilep.flav_col imp isRealData b lvl i))
                             (TTdilep.discr_col d (TTdilep.sjets_at imp b lvl i))
                             (TTdilep.wsel_sf imp self isRealData b lvl w0 (snd kv)))
                vars) /\
    (negb isRealData && isCorr self = true ->
     Permutation (map fst vars) variant_names /\
     exists sfs, dict_get (TTdilep.disc_list imp self b lvl) d = inr sfs /\
                 vars = dd_get sfs i) /\
    (negb isRealData && isCorr self = false -> vars = []).
Proof.
  intros Hd Hi. rewrite loop_calls_btag_tt by assumption. unfold TTdilep.btag_calls.
  destruct (negb isRealData && isCorr self).
  - destruct i as [|[|i]]; [| |lia];
      names_cases Hd; unfold TTdilep.str, TTdilep.disc_list; eval_names;
      cbn [dict_get]; eval_names; cbn [bind];
      (eexists; split; [reflexivity|]; split; [intros _ | discriminate]);
      (split; [|eexists; split; reflexivity]);
      unfold TTdilep.csvsfs_b, TTdilep.csvsfs_c, TTdilep.jetsfs_b, TTdilep.jetsfs_c,
        variant_names;
      cbn [dd_get Nat.eqb map fst];
      first [apply Permutation_refl | apply perm_swap].
  - exists []. destruct i as [|[|i]]; [| |lia];
      names_cases Hd; unfold TTdilep.str; eval_names; cbn [bind map];
      (split; [reflexivity|]; split; [discriminate | reflexivity]).
Qed.

Lemma wsel_nth_eWc imp self isRealData b lvl w0 k w o :
  nth_error (Ak.select lvl (Weights.weight (EWc.weights imp self isRealData b lvl w0))) k
    = Some w ->
  nth_error (EWc.osss imp b lvl) k = Some (Some o) ->
  nth_error (EWc.wsel imp self isRealData b lvl w0) k = Some (Some (w * o)).
Proof.
  intros Hw Ho. unfold EWc.wsel. rewrite nth_error_map2, Hw, Ho. reflexivity.
Qed.

Lemma wsel_sf_nth_eWc imp self isRealData b lvl w0 sf k w s o :
  nth_error (Ak.select lvl (Weights.weight (EWc.weights imp self isRealData b lvl w0))) k
    = Some w ->
  nth_error sf k = Some (Some s) ->
  nth_error (EWc.osss imp b lvl) k = Some (Some o) ->
  nth_error (EWc.wsel_sf imp self isRealData b lvl w0 sf) k = Some (Some (w * s * o)).
Proof.
  intros Hw Hs Ho. unfold EWc.wsel_sf.
  rewrite !nth_error_map2, Hw, Hs, Ho. reflexivity.
Qed.

Lemma wsel_sf_nth_tt imp self isRealData b lvl w0 sf k w s :
  nth_error (TTdilep.wsel imp self isRealData b lvl w0) k = Some w ->
  nth_error sf k = Some (Some s) ->
  nth_error (TTdilep.wsel_sf imp self isRealData b lvl w0 sf) k = Some (Some (w * s)).
Proof.
  intros Hw Hs. unfold TTdilep.wsel_sf. rewrite nth_error_map2, Hw, Hs. reflexivity.
Qed.

(** C7 - for every discriminant histogram whose target jet has scale factors
    registered (the muon-jet histograms [<d>_0] of eWc, the histograms [<d>_0]
    and [<d>_1] of ttdilep), the dispatcher makes one fill with variation
    ["noSF"] and the bare per-event weight and, for simulated data with
    corrections enabled, one further fill per variation registered for that
    jet, which are the central, up and down variations of the family; the
    weight of such a fill is, at every event, the per-event weight times the
    scale factor of the variation.  For real data or with corrections
    disabled only the ["noSF"] fill is made. *)
Theorem systematic_fills imp self isRealData
        (b : Batch Lepton Lepton) (bs : TTdilep.SelBatch) lvl w0 d :
  In d disc_names ->
  (exists vars,
     EWc.loop_calls imp self isRealData b lvl w0 (String.append d "_0") =
     inr (Hist.mkCall (Some "noSF") (Some (EWc.smflav imp isRealData b lvl))
                      (EWc.discr_col d (EWc.smuon_jet imp b lvl))
                      (EWc.wsel imp self isRealData b lvl w0)
          :: map (fun kv => Hist.mkCall (Some (fst kv))
                              (Some (EWc.smflav imp isRealData b lvl))
                              (EWc.discr_col d (EWc.smuon_jet imp b lvl))
                              (EWc.wsel_sf imp self isRealData b lvl w0 (snd kv)))
                 vars) /\
     (negb isRealData && isCorr self = true ->
      Permutation (map fst vars) variant_names /\
      exists sfs, dict_get (EWc.disc_list imp self b lvl) d = inr sfs /\
                  vars = dd_get sfs 0) /\
     (negb isRealData && isCorr self = false -> vars = [])) /\
  (forall i, (i < 2)%nat ->
   exists vars,
     TTdilep.loop_calls imp self isRealData bs lvl w0
       (String.append d (String.append "_" (TTdilep.str i))) =
     inr (Hist.mkCall (Some "noSF") (Some (TTdilep.flav_col imp isRealData bs lvl i))
                      (TTdilep.discr_col d (TTdilep.sjets_at imp bs lvl i))
                      (map Some (TTdilep.wsel imp self isRealData bs lvl w0))
          :: map (fun kv => Hist.mkCall (Some (fst kv))
                              (Some (TTdilep.flav_col imp isRealData bs lvl i))
                              (TTdilep.discr_col d (TTdilep.sjets_at imp bs lvl i))
                              (TTdilep.wsel_sf imp self isRealData bs lvl w0 (snd kv)))
                 vars) /\
     (negb isRealData && isCorr self = true ->
      Permutation (map fst vars) variant_names /\
      exists sfs, dict_get (TTdilep.disc_list imp self bs lvl) d = inr sfs /\
                  vars = dd_get sfs i) /\
     (negb isRealData && isCorr self = false -> vars = [])) /\
  (forall sf k w s o,
     nth_error (Ak.select lvl (Weights.weight (EWc.weights imp self isRealData b lvl w0))) k
       = Some w ->
     nth_error sf k = Some (Some s) ->
     nth_error (EWc.osss imp b lvl) k = Some (Some o) ->
     nth_error (EWc.wsel imp self isRealData b lvl w0) k = Some (Some (w * o)) /\
     nth_error (EWc.wsel_sf imp self isRealData b lvl w0 sf) k = Some (Some (w * s * o)) /\
     w * s * o == (w * o) * s) /\
  (forall sf k w s,
     nth_error (TTdilep.wsel imp self isRealData bs lvl w0) k = Some w ->
     nth_error sf k = Some (Some s) ->
     nth_error (TTdilep.wsel_sf imp self isRealData bs lvl w0 sf) k = Some (Some (w * s))).
Proof.
  intros Hd. split; [apply fills_eWc_0; assumption|].
  split; [intros i Hi; apply fills_tt; assumption|].
  split.
  - intros sf k w s o Hw Hs Ho. split; [|split].
    + eapply wsel_nth_eWc; eauto.
    + eapply wsel_sf_nth_eWc; eauto.
    + ring.
  - intros sf k w s Hw Hs. eapply wsel_sf_nth_tt; eauto.
Qed.

(** On [Ex.sim2], corrections enabled: the histogram [btagDeepB_0] of the eWc
    workflow receives the ["noSF"] fill and the three variations. *)
Lemma systematic_fills_witness :
  exists vars,
    EWc.loop_calls Ex.imp (Ex.processor true Ex.eWc_names) false Ex.sim2 [true; false]
                   (Weights.new 2) "btagDeepB_0" =
    inr (Hist.mkCall (Some "noSF") (Some (EWc.smflav Ex.imp false Ex.sim2 [true; false]))
           (EWc.discr_col "btagDeepB" (EWc.smuon_jet Ex.imp Ex.sim2 [true; false]))
           (EWc.wsel Ex.imp (Ex.processor true Ex.eWc_names) false Ex.sim2 [true; false]
                     (Weights.new 2))
         :: map (fun kv => Hist.mkCall (Some (fst kv))
                             (Some (EWc.smflav Ex.imp false Ex.sim2 [true; false]))
                             (EWc.discr_col "btagDeepB"
                                            (EWc.smuon_jet Ex.imp Ex.sim2 [true; false]))
                             (EWc.wsel_sf Ex.imp (Ex.processor true Ex.eWc_names) false
                                          Ex.sim2 [true; false] (Weights.new 2) (snd kv)))
                vars) /\
    Permutation (map fst vars) variant_names.
Proof.
  destruct (systematic_fills Ex.imp (Ex.processor true Ex.eWc_names) false Ex.sim2
              (TTdilep.object_selection Ex.imp Ex.sim2) [true; false] (Weights.new 2)
              "btagDeepB") as [[vars (H1 & H2 & _)] _].
  - left. reflexivity.
  - exists vars. split; [exact H1|]. apply H2. reflexivity.
Defined.

(** C7 as stated fails on the subleading-jet histograms of the eWc workflow:
    for simulated data with corrections enabled, the histogram [btagDeepB_1]
    of a batch whose selected event has two jets holds the ["noSF"] entry
    only - no variation is registered for jet index 1 - and it holds nothing
    at all, not even the ["noSF"] entry, once a selected event has a single
    jet.  The events concerned pass the whole selection of the workflow: the
    first event of [Ex.sim2] and both events of [Ex.mixed]. *)
Lemma systematic_fills_counterexample :
  EWc.event_level Ex.imp (Ex.processor true Ex.eWc_names) false Ex.sim2
                  (req_trig Ex.sim2 EWc.triggers) = [true; false] /\
  EWc.event_level Ex.imp (Ex.processor true Ex.eWc_names) false Ex.mixed
                  (req_trig Ex.mixed EWc.triggers) = [true; true] /\
  negb (negb (has_genWeight Ex.sim2)) && isCorr (Ex.processor true Ex.eWc_names) = true /\
  map Hist.en_syst
      (Ex.hist_of (EWc.process Ex.imp (Ex.processor true Ex.eWc_names) Ex.sim2)
                  "btagDeepB_1") = [Some "noSF"] /\
  Ex.hist_of (EWc.process Ex.imp (Ex.processor true Ex.eWc_names) Ex.mixed)
             "btagDeepB_1" = [] /\
  map Hist.en_syst
      (Ex.hist_of (EWc.process Ex.imp (Ex.processor true Ex.eWc_names) Ex.mixed)
                  "btagDeepB_0")
  = [Some "noSF"; Some "noSF"; Some "SFup"; Some "SFup"; Some "SF"; Some "SF";
     Some "SFdn"; Some "SFdn"].
Proof. vm_compute. repeat split; reflexivity. Qed.

(** ** The guard of the subleading-jet histograms (eWc) *)

Lemma guard_true (ns : list nat) :
  forallb (fun i => Nat.ltb 1 i) ns = true <-> Forall (fun n => (2 <= n)%nat) ns.
Proof.
  rewrite forallb_forall, Forall_forall.
  split; intros H n Hn; specialize (H n Hn); [apply Nat.ltb_lt in H | apply Nat.ltb_lt]; lia.
Qed.

Lemma guard_false (ns : list nat) :
  Exists (fun n => (n < 2)%nat) ns -> forallb (fun i => Nat.ltb 1 i) ns = false.
Proof.
  intros Hex. destruct (forallb _ ns) eqn:E; auto.
  apply guard_true in E. apply Exists_exists in Hex. destruct Hex as [n [Hn Hlt]].
  rewrite Forall_forall in E. specialize (E n Hn). lia.
Qed.

(** C5 - a subleading-jet discriminant histogram [<d>_1] of the eWc workflow
    is filled for the batch exactly when every selected event has at least two
    jets (it then receives the ["noSF"] fill of the clipped discriminant of
    the second jet of each selected event); as soon as one selected event has
    fewer than two jets, the histogram receives no fill for the whole batch. *)
Theorem subleading_guard imp self isRealData (b : Batch Lepton Lepton) lvl w0 d :
  In d disc_names ->
  (Forall (fun n => (2 <= n)%nat) (EWc.njet imp b lvl) ->
   exists c cs,
     EWc.loop_calls imp self isRealData b lvl w0 (String.append d "_1") = inr (c :: cs) /\
     Hist.fc_syst c = Some "noSF" /\
     Hist.fc_val c =
     EWc.discr_col d (map (fun js => nth_error js 1) (EWc.sjets imp b lvl))) /\
  (Exists (fun n => (n < 2)%nat) (EWc.njet imp b lvl) ->
   EWc.loop_calls imp self isRealData b lvl w0 (String.append d "_1") = inr []).
Proof.
  intros Hd. rewrite loop_calls_btag1_eWc by assumption. split.
  - intros Hall. apply guard_true in Hall. rewrite Hall.
    unfold EWc.btag_calls. destruct (negb isRealData && isCorr self).
    + names_cases Hd; unfold EWc.disc_list; cbn [dict_get]; eval_names; cbn [bind];
        do 2 eexists; (split; [reflexivity|]); split; reflexivity.
    + do 2 eexists. split; [reflexivity|]. split; reflexivity.
  - intros Hex. rewrite (guard_false _ Hex). reflexivity.
Qed.

(** On [Ex.mixed] the second selected event has a single jet: no fill. *)
Lemma subleading_guard_witness :
  EWc.loop_calls Ex.imp (Ex.processor true Ex.eWc_names) false Ex.mixed [true; true]
                 (Weights.new 2) "btagDeepB_1" = inr [].
Proof.
  destruct (subleading_guard Ex.imp (Ex.processor true Ex.eWc_names) false Ex.mixed
              [true; true] (Weights.new 2) "btagDeepB") as [_ H].
  - left. reflexivity.
  - apply H. right. left. vm_compute. lia.
Defined.

(** C5 as stated fails on [Ex.mixed]: both events pass the whole selection of
    the workflow (the missing energy is back to back with the electron, and
    the mass of the two, 64.6, is above the cut at 55), the first has the two
    jets that the histogram [btagDeepB_1] needs, and yet the histogram is left
    empty for the batch (the other histograms are filled). *)
Lemma subleading_guard_counterexample :
  map (fun e => Ak.gtb (mass (Ex.vec_add (EWc.MET_p4 e) (lep_p4 Ex.ele))) 55)
      (events Ex.mixed) = [true; true] /\
  EWc.event_level Ex.imp (Ex.processor true Ex.eWc_names) false Ex.mixed
                  (req_trig Ex.mixed EWc.triggers) = [true; true] /\
  EWc.njet Ex.imp Ex.mixed [true; true] = [2%nat; 1%nat] /\
  Ex.hist_of (EWc.process Ex.imp (Ex.processor true Ex.eWc_names) Ex.mixed)
             "btagDeepB_1" = [] /\
  map Hist.en_val
      (Ex.hist_of (EWc.process Ex.imp (Ex.processor true Ex.eWc_names) Ex.mixed) "njet")
  = [2; 1].
Proof. vm_compute. repeat split; reflexivity. Qed.

(** ** Broadcast of the per-event weight over the jets *)

Lemma broadcast_nth {W A : Type} (ws : list W) (jag : list (list A)) :
  forall k row w j x,
    nth_error jag k = Some row -> nth_error ws k = Some w -> nth_error row j = Some x ->
    nth_error (Ak.flatten jag) (offset jag k + j) = Some x /\
    nth_error (Ak.flatten (Ak.broadcast ws jag)) (offset jag k + j) = Some w.
Proof.
  unfold Ak.flatten, Ak.broadcast, offset. revert ws.
  induction jag as [|r jag IH]; intros [|w0 ws] [|k] row w j x Hr Hw Hx;
    simpl in *; try discriminate.
  - injection Hr as ->. injection Hw as ->.
    assert (Hj : (j < List.length row)%nat) by (apply nth_error_Some; congruence).
    split.
    + rewrite nth_error_app1 by assumption. assumption.
    + rewrite nth_error_app1 by (rewrite repeat_length; assumption).
      apply nth_error_repeat. assumption.
  - destruct (IH ws k row w j x Hr Hw Hx) as [H1 H2].
    rewrite length_app, <- Nat.add_assoc. split.
    + rewrite nth_error_app2 by lia.
      replace (List.length r + (List.length (List.concat (firstn k jag)) + j)
               - List.length r)%nat
        with (List.length (List.concat (firstn k jag)) + j)%nat by lia.
      assumption.
    + rewrite nth_error_app2 by (rewrite repeat_length; lia).
      rewrite repeat_length.
      replace (List.length r + (List.length (List.concat (firstn k jag)) + j)
               - List.length r)%nat
        with (List.length (List.concat (firstn k jag)) + j)%nat by lia.
      assumption.
Qed.

Lemma broadcast_length {W A : Type} (ws : list W) (jag : list (list A)) :
  List.length ws = List.length jag ->
  List.length (Ak.flatten (Ak.broadcast ws jag)) = List.length (Ak.flatten jag).
Proof.
  unfold Ak.flatten, Ak.broadcast. revert ws.
  induction jag as [|r jag IH]; intros [|w ws] H; simpl in *; try discriminate; auto.
  rewrite !length_app, repeat_length, IH by lia. reflexivity.
Qed.

Lemma flatten_map_map {A B : Type} (f : A -> B) (jag : list (list A)) :
  Ak.flatten (map (map f) jag) = map f (Ak.flatten jag).
Proof. unfold Ak.flatten. symmetry. apply concat_map. Qed.

Lemma broadcast_fill_intro {W : Type} (f : Jet -> Q) (jets : list (list Jet)) (w : list W) :
  broadcast_fill f jets w
    (map Some (Ak.flatten (map (map f) jets))) (Ak.flatten (Ak.broadcast w jets)).
Proof.
  split.
  - intros Hlen. rewrite length_map, flatten_map_map, length_map.
    apply broadcast_length; assumption.
  - intros k js wk j jet Hk Hw Hj.
    destruct (broadcast_nth w jets k js wk j jet Hk Hw Hj) as [H1 H2].
    split; [|assumption].
    rewrite flatten_map_map, map_map, nth_error_map, H1. reflexivity.
Qed.

Lemma broadcast_map {W W' A : Type} (g : W -> W') (ws : list W) (jag : list (list A)) :
  Ak.flatten (Ak.broadcast (map g ws) jag) = map g (Ak.flatten (Ak.broadcast ws jag)).
Proof.
  unfold Ak.flatten, Ak.broadcast. revert ws.
  induction jag as [|r jag IH]; intros [|w ws]; simpl; auto.
  rewrite map_app, IH. f_equal.
  induction (List.length r) as [|n IHn]; simpl; congruence.
Qed.

(** ** Lengths of the selected columns *)

Lemma select_length_eq {A B : Type} (lvl : list bool) :
  forall (c1 : list A) (c2 : list B),
    List.length c1 = List.length c2 ->
    List.length (Ak.select lvl c1) = List.length (Ak.select lvl c2).
Proof.
  induction lvl as [|m lvl IH]; intros [|x c1] [|y c2] H; simpl in *;
    try discriminate; auto.
  destruct m; simpl; auto.
Qed.

Lemma weights_length_eWc imp self isRealData b lvl :
  List.length lvl = len b ->
  List.length (Weights.weight (EWc.weights imp self isRealData b lvl (Weights.new (len b))))
  = len b.
Proof.
  intros Hl. unfold EWc.weights, EWc.lep1sf, EWc.lep2sf, Weights.weight, Weights.add,
    Weights.new, Ak.ones, len in *.
  destruct isRealData, (isCorr self); simpl;
    rewrite ?map2_length, ?length_map, ?repeat_length, ?Hl; lia.
Qed.

Lemma weights_length_tt imp self isRealData b lvl :
  List.length lvl = len b ->
  List.length (Weights.weight (TTdilep.weights imp self isRealData b lvl
                                               (Weights.new (len b))))
  = len b.
Proof.
  intros Hl. unfold TTdilep.weights, TTdilep.lep1sf, TTdilep.lep2sf, Weights.weight,
    Weights.add, Weights.new, Ak.ones, len in *.
  destruct isRealData, (isCorr self); simpl;
    rewrite ?map2_length, ?length_map, ?repeat_length, ?Hl; lia.
Qed.

Lemma wsel_length_eWc imp self isRealData b lvl :
  List.length lvl = len b ->
  List.length (EWc.wsel imp self isRealData b lvl (Weights.new (len b))) =
  List.length (EWc.sjets imp b lvl).
Proof.
  intros Hl. pose proof (weights_length_eWc imp self isRealData b lvl Hl) as Hw.
  unfold EWc.wsel, EWc.osss, EWc.shmu, EWc.ssmu, EWc.sjets.
  rewrite !map2_length, length_map.
  rewrite (select_length_eq lvl _ (map (EWc.event_jet imp) (events b)))
    by (rewrite length_map; exact Hw).
  rewrite (select_length_eq lvl (map (EWc.iso_ele imp) (events b))
                            (map (EWc.event_jet imp) (events b)))
    by (rewrite !length_map; reflexivity).
  rewrite (select_length_eq lvl (map (EWc.soft_muon imp) (events b))
                            (map (EWc.event_jet imp) (events b)))
    by (rewrite !length_map; reflexivity).
  lia.
Qed.

Lemma wsel_length_tt imp self isRealData b lvl :
  List.length lvl = len b ->
  List.length (TTdilep.wsel imp self isRealData b lvl (Weights.new (len b))) =
  List.length (TTdilep.sjets imp b lvl).
Proof.
  intros Hl. pose proof (weights_length_tt imp self isRealData b lvl Hl) as Hw.
  unfold TTdilep.wsel, TTdilep.sjets. rewrite length_map.
  apply select_length_eq. rewrite length_map. exact Hw.
Qed.

(** C8 - in both workflows a histogram of a ragged per-jet quantity (the
    ["Deep..."] input histograms, and the ["jet_..."] histograms of eWc) is
    filled with the flattened per-jet values and with the per-event weight
    broadcast to the jets and flattened: the two columns have one length, and
    every jet of an event is filled with exactly the weight of that event. *)
Theorem weight_broadcast imp self isRealData
        (b : Batch Lepton Lepton) (bs : TTdilep.SelBatch) lvl name :
  List.length lvl = len b -> List.length lvl = len bs ->
  (Str.contains "Deep" name = true -> Str.contains "btag" name = false ->
   (exists c,
      EWc.loop_calls imp self isRealData b lvl (Weights.new (len b)) name = inr [c] /\
      List.length (Hist.fc_weight c) = List.length (Hist.fc_val c) /\
      broadcast_fill (jet_item name) (EWc.sjets imp b lvl)
        (EWc.wsel imp self isRealData b lvl (Weights.new (len b)))
        (Hist.fc_val c) (Hist.fc_weight c)) /\
   (exists c,
      TTdilep.loop_calls imp self isRealData bs lvl (Weights.new (len bs)) name = inr [c] /\
      List.length (Hist.fc_weight c) = List.length (Hist.fc_val c) /\
      broadcast_fill (jet_item name) (TTdilep.sjets imp bs lvl)
        (map Some (TTdilep.wsel imp self isRealData bs lvl (Weights.new (len bs))))
        (Hist.fc_val c) (Hist.fc_weight c))) /\
  (Str.contains "Deep" name && negb (Str.contains "btag" name) = false ->
   Str.contains "jet_" name = true -> Str.contains "mu" name = false ->
   exists c,
     EWc.loop_calls imp self isRealData b lvl (Weights.new (len b)) name = inr [c] /\
     List.length (Hist.fc_weight c) = List.length (Hist.fc_val c) /\
     broadcast_fill (jet_item (Str.remove "jet_" name)) (EWc.sjets imp b lvl)
       (EWc.wsel imp self isRealData b lvl (Weights.new (len b)))
       (Hist.fc_val c) (Hist.fc_weight c)).
Proof.
  intros Hl Hls. split.
  - intros HD Hb. split.
    + unfold EWc.loop_calls. rewrite HD, Hb. cbn [andb negb].
      eexists. split; [reflexivity|]. cbn [Hist.fc_val Hist.fc_weight].
      unfold EWc.wjets.
      pose proof (broadcast_fill_intro (jet_item name) (EWc.sjets imp b lvl)
                    (EWc.wsel imp self isRealData b lvl (Weights.new (len b)))) as H.
      split; [|exact H]. apply H. apply wsel_length_eWc; assumption.
    + unfold TTdilep.loop_calls. rewrite HD, Hb. cbn [andb negb].
      eexists. split; [reflexivity|]. cbn [Hist.fc_val Hist.fc_weight].
      rewrite <- broadcast_map.
      pose proof (broadcast_fill_intro (jet_item name) (TTdilep.sjets imp bs lvl)
                    (map Some (TTdilep.wsel imp self isRealData bs lvl
                                            (Weights.new (len bs))))) as H.
      split; [|exact H]. apply H. rewrite length_map. apply wsel_length_tt; assumption.
  - intros H1 HJ HM. unfold EWc.loop_calls. rewrite H1, HJ, HM. cbn [andb negb].
    eexists. split; [reflexivity|]. cbn [Hist.fc_val Hist.fc_weight].
    unfold EWc.wjets.
    pose proof (broadcast_fill_intro (jet_item (Str.remove "jet_" name))
                  (EWc.sjets imp b lvl)
                  (EWc.wsel imp self isRealData b lvl (Weights.new (len b)))) as H.
    split; [|exact H]. apply H. apply wsel_length_eWc; assumption.
Qed.

Lemma weight_broadcast_witness :
  exists c,
    EWc.loop_calls Ex.imp (Ex.processor true Ex.eWc_names) false Ex.twojets [true; true]
                   (Weights.new (len Ex.twojets)) "DeepCSV_trackJetPt" = inr [c] /\
    List.length (Hist.fc_weight c) = List.length (Hist.fc_val c) /\
    broadcast_fill (jet_item "DeepCSV_trackJetPt") (EWc.sjets Ex.imp Ex.twojets [true; true])
      (EWc.wsel Ex.imp (Ex.processor true Ex.eWc_names) false Ex.twojets [true; true]
                (Weights.new (len Ex.twojets)))
      (Hist.fc_val c) (Hist.fc_weight c).
Proof.
  destruct (weight_broadcast Ex.imp (Ex.processor true Ex.eWc_names) false Ex.twojets
              (TTdilep.object_selection Ex.imp Ex.twojets) [true; true]
              "DeepCSV_trackJetPt" eq_refl eq_refl) as [H _].
  destruct (H eq_refl eq_refl) as [He _]. exact He.
Defined.

(** ** Object selection and the batch *)

Lemma firsts_pad_none1 {A : Type} (xs : list A) :
  Ak.first (Ak.pad_none1 xs) = Ak.firsts xs.
Proof. destruct xs; reflexivity. Qed.

(** C10 - the object selection of the ttdilep workflow overwrites the batch's
    own [Muon] and [Electron] collections with the selected collections padded
    to at least one entry, and leaves the rest of the batch unchanged: the
    schema, the number of events and, event by event, the jets, the missing
    energy and the scalar fields.  The eWc workflow binds its selections to
    local names: the lepton scale factors that it later reads from the
    batch's [Electron] and [Muon] collections are those of the selected
    leptons. *)
Theorem object_selection_frame imp (b : Batch Lepton Lepton) :
  let bs := TTdilep.object_selection imp b in
  (dataset bs = dataset b /\ has_genWeight bs = has_genWeight b /\
   HLT_fields bs = HLT_fields b /\ Electron_fields bs = Electron_fields b /\
   Muon_fields bs = Muon_fields b /\ len bs = len b) /\
  (forall i e, nth_error (events b) i = Some e ->
     exists e', nth_error (events bs) i = Some e' /\
       Jet_ e' = Jet_ e /\ MET_ e' = MET_ e /\ run e' = run e /\
       luminosityBlock e' = luminosityBlock e /\ genWeight e' = genWeight e /\
       HLT e' = HLT e /\ Pileup_nPU e' = Pileup_nPU e /\
       Muon e' = Ak.pad_none1 (filter (fun l => Ak.gtb (pt (lep_p4 l)) 30 && mu_idiso imp l)
                                      (Muon e)) /\
       Electron e' = Ak.pad_none1 (filter (fun l => Ak.gtb (pt (lep_p4 l)) 30 &&
                                                    ele_cuttightid imp l)
                                          (Electron e))) /\
  (forall e, Ak.firsts (EWc.iso_ele_coll imp e) = EWc.iso_ele imp e /\
             Ak.firsts (EWc.soft_muon_coll imp e) = Ak.first (EWc.soft_muon imp e)).
Proof.
  cbv zeta. split; [|split].
  - unfold TTdilep.object_selection, TTdilep.electron_cuts, TTdilep.muon_cuts,
      TTdilep.set_Electron, TTdilep.set_Muon, len; simpl.
    rewrite !length_map. repeat split; reflexivity.
  - intros i e He.
    unfold TTdilep.object_selection, TTdilep.electron_cuts, TTdilep.muon_cuts,
      TTdilep.set_Electron, TTdilep.set_Muon; cbn [events].
    rewrite !map_map, nth_error_map, He. cbn [option_map].
    eexists. split; [reflexivity|]. cbn. repeat split; reflexivity.
  - intros e. unfold EWc.iso_ele, EWc.soft_muon.
    rewrite !firsts_pad_none1. split; reflexivity.
Qed.

(** C10 as stated fails on the ttdilep workflow: the only muon of the first
    event of [Ex.sim2] has [pt = 10]; after the selection the batch's [Muon]
    collection of that event is the padding [[None]], not the muon. *)
Lemma object_selection_counterexample :
  map Muon (events (TTdilep.object_selection Ex.imp Ex.sim2)) <>
  map (fun e => map Some (Muon e)) (events Ex.sim2).
Proof. intros H. vm_compute in H. discriminate. Qed.

Lemma object_selection_frame_witness :
  exists e',
    nth_error (events (TTdilep.object_selection Ex.imp Ex.sim2)) 0 = Some e' /\
    Jet_ e' = [Ex.jet_c; Ex.jet_l] /\ Muon e' = [None] /\ Electron e' = [Some Ex.ele].
Proof.
  destruct (object_selection_frame Ex.imp Ex.sim2) as (_ & H & _).
  destruct (H 0%nat (Ex.ev_eWc [Ex.jet_c; Ex.jet_l] 2 1) eq_refl)
    as (e' & He & Hj & _ & _ & _ & _ & _ & _ & Hm & Hel).
  exists e'. split; [exact He|]. split; [exact Hj|]. split.
  - rewrite Hm. vm_compute. reflexivity.
  - rewrite Hel. vm_compute. reflexivity.
Defined.

(* ------------------------------------------------------------------ *)
(** ** Merging the outputs of two batches *)

(** *** Selection by a mask, row by row *)

Lemma select_map {A B : Type} (f : A -> B) (lvl : list bool) :
  forall col, Ak.select lvl (map f col) = map f (Ak.select lvl col).
Proof.
  induction lvl as [|m lvl IH]; intros [|x col]; simpl; auto.
  destruct m; simpl; rewrite IH; reflexivity.
Qed.

Lemma select_app {A : Type} (l1 l2 : list bool) (c1 c2 : list A) :
  List.length l1 = List.length c1 ->
  Ak.select (l1 ++ l2) (c1 ++ c2) = Ak.select l1 c1 ++ Ak.select l2 c2.
Proof.
  revert c1; induction l1 as [|m l1 IH]; intros [|x c1] H; simpl in *;
    try discriminate; auto.
  destruct m; simpl; rewrite IH by lia; reflexivity.
Qed.

(** Selecting with a mask computed row by row is a [filter]. *)
Lemma select_filter {A : Type} (p : A -> bool) (l : list A) :
  Ak.select (map p l) l = filter p l.
Proof.
  induction l as [|x l IH]; simpl; auto.
  destruct (p x); simpl; rewrite IH; reflexivity.
Qed.

Lemma select_map2_rows {A B C : Type} (p : A -> bool) (g : bool -> B -> C) (h : A -> B)
      (l : list A) :
  Ak.select (map p l) (Ak.map2 g (map p l) (map h l)) = map (fun a => g true (h a)) (filter p l).
Proof.
  induction l as [|x l IH]; simpl; auto.
  destruct (p x) eqn:E; simpl; rewrite IH; reflexivity.
Qed.

(** *** Entries of a fill, row by row *)

Lemma rows2_rows {A : Type} syst (v w : A -> option Q) (l : list A) :
  Hist.rows2 syst (map v l) (map w l) =
  flat_map (fun a => Hist.rows2 syst [v a] [w a]) l.
Proof.
  induction l as [|a l IH]; simpl; auto.
  destruct (v a), (w a); simpl; rewrite IH; reflexivity.
Qed.

Lemma rows3_rows {A : Type} syst (f : A -> option Z) (v w : A -> option Q) (l : list A) :
  Hist.rows3 syst (map f l) (map v l) (map w l) =
  flat_map (fun a => Hist.rows3 syst [f a] [v a] [w a]) l.
Proof.
  induction l as [|a l IH]; simpl; auto.
  destruct (f a), (v a), (w a); simpl; rewrite IH; reflexivity.
Qed.

(** A column flattened with [drop_none] is the column itself when no entry is
    missing. *)
Lemma drop_none_present {A B : Type} (f : A -> option B) (l : list A) :
  Forall (fun a => f a <> None) l ->
  map Some (Ak.drop_none (map f l)) = map f l.
Proof.
  unfold Ak.drop_none. induction l as [|a l IH]; intros H; simpl; auto.
  inversion H; subst. destruct (f a) eqn:E; [|congruence].
  simpl. rewrite IH by assumption. reflexivity.
Qed.

(** Jagged fill: flattened per-jet columns with broadcast weights. *)
Lemma rows3_jagged {A J : Type} syst (jets : A -> list J) (f : J -> Z) (v : J -> Q)
      (w : A -> option Q) (l : list A) :
  Hist.rows3 syst (map Some (Ak.flatten (map (fun a => map f (jets a)) l)))
             (map Some (Ak.flatten (map (fun a => map v (jets a)) l)))
             (Ak.flatten (Ak.broadcast (map w l) (map jets l))) =
  flat_map (fun a => Hist.rows3 syst (map (fun j => Some (f j)) (jets a))
                                (map (fun j => Some (v j)) (jets a))
                                (map (fun _ => w a) (jets a))) l.
Proof.
  unfold Ak.flatten, Ak.broadcast.
  induction l as [|a l IH]; simpl; auto.
  rewrite !map_app, <- IH. clear IH.
  induction (jets a) as [|j js IHj]; simpl; auto.
  destruct (w a); simpl; rewrite IHj; reflexivity.
Qed.

(** *** The masks, row by row *)

Lemma req_trig_rows {E M : Type} (b : Batch E M) (ts : list string) :
  req_trig b ts = map (fun e => existsb (HLT e) (filter (hasattr_HLT b) ts)) (events b).
Proof.
  apply nth_error_ext. intros i. rewrite nth_error_map.
  destruct (nth_error (events b) i) as [e|] eqn:He.
  - rewrite (req_trig_nth b ts i e He). reflexivity.
  - simpl. apply nth_error_None. rewrite req_trig_length.
    apply nth_error_None in He. exact He.
Qed.

Lemma ones_bool_as_map {A : Type} (l : list A) :
  Ak.ones_bool (List.length l) = map (fun _ => true) l.
Proof. unfold Ak.ones_bool. induction l; simpl; congruence. Qed.

Lemma event_level_rows_eWc imp self isRealData (b : Batch Lepton Lepton) :
  EWc.event_level imp self isRealData b (req_trig b EWc.triggers) =
  map (eWc_row_level imp self isRealData (filter (hasattr_HLT b) EWc.triggers)) (events b).
Proof.
  unfold EWc.event_level, EWc.event_level_raw, EWc.and_col.
  rewrite req_trig_rows.
  replace (EWc.req_lumi self isRealData b)
    with (map (fun e => if isRealData then lumiMask self (run e) (luminosityBlock e)
                        else true) (events b)).
  2:{ unfold EWc.req_lumi, len. destruct isRealData; [reflexivity|].
      rewrite ones_bool_as_map. reflexivity. }
  unfold EWc.req_ele, EWc.req_jets, EWc.req_softmu, EWc.req_mujet, EWc.req_Wmass,
    EWc.req_dilepveto, EWc.req_QCDveto, EWc.req_pTratio.
  rewrite !map_map. rewrite !map2_map_map. rewrite map_map.
  apply map_ext. intros e. reflexivity.
Qed.

Lemma fold_and_opt_true (rs : list (option bool)) (r : option bool) :
  fold_left Ak.and_opt rs r = Some true -> r = Some true /\ Forall (eq (Some true)) rs.
Proof.
  revert r; induction rs as [|x rs IH]; intros r H; simpl in *; auto.
  apply IH in H. destruct H as [H Hrs].
  destruct r as [[|]|], x as [[|]|]; simpl in H; try discriminate.
  split; auto.
Qed.

Lemma all_reqs_true (rs : list (option bool)) :
  all_reqs rs = true -> Forall (eq (Some true)) rs.
Proof.
  destruct rs as [|r rs]; simpl; [discriminate|].
  intros H. destruct (fold_left Ak.and_opt rs r) as [[|]|] eqn:E; try discriminate.
  apply fold_and_opt_true in E. destruct E; subst. constructor; auto.
Qed.

Lemma padded_object_selection imp (b : Batch Lepton Lepton) :
  Forall padded (events (TTdilep.object_selection imp b)).
Proof.
  unfold TTdilep.object_selection, TTdilep.electron_cuts, TTdilep.muon_cuts,
    TTdilep.set_Electron, TTdilep.set_Muon; cbn [events].
  rewrite !map_map. apply Forall_forall. intros e He.
  apply in_map_iff in He. destruct He as [e0 [<- _]].
  split; cbn [Muon Electron]; eexists; reflexivity.
Qed.

Lemma req_trig_object_selection imp (b : Batch Lepton Lepton) ts :
  req_trig b ts = req_trig (TTdilep.object_selection imp b) ts /\
  filter (hasattr_HLT b) ts = filter (hasattr_HLT (TTdilep.object_selection imp b)) ts.
Proof.
  rewrite !req_trig_rows.
  unfold TTdilep.object_selection, TTdilep.electron_cuts, TTdilep.muon_cuts,
    TTdilep.set_Electron, TTdilep.set_Muon, hasattr_HLT; cbn [events HLT_fields].
  rewrite !map_map. cbn [HLT]. split; reflexivity.
Qed.

Lemma req_opposite_charge_rows (bs : TTdilep.SelBatch) :
  Forall padded (events bs) ->
  TTdilep.req_opposite_charge bs =
  map (fun e => Ak.fill_none_false
                  (Ak.lift2 (fun l m => Z.eqb (mul32 (charge l) (charge m)) (-1))
                            (Ak.first (Electron e)) (Ak.first (Muon e))))
      (events bs).
Proof.
  unfold TTdilep.req_opposite_charge, Ak.flatten.
  induction (events bs) as [|e evs IH]; intros H; cbn [map List.concat]; auto.
  inversion H as [|? ? [[xs Hm] [ys Hel]] Hrest]; subst.
  rewrite IH by assumption. rewrite Hm, Hel.
  destruct xs, ys; reflexivity.
Qed.

Lemma event_level_rows_tt imp self isRealData (bs : TTdilep.SelBatch) :
  Forall padded (events bs) ->
  TTdilep.event_level imp self isRealData bs (req_trig bs TTdilep.triggers) =
  map (tt_row_level imp self isRealData (filter (hasattr_HLT bs) TTdilep.triggers))
      (events bs).
Proof.
  intros Hp.
  unfold TTdilep.event_level, TTdilep.event_level_raw, TTdilep.and_col.
  rewrite req_trig_rows, req_opposite_charge_rows by assumption.
  replace (TTdilep.req_lumi self isRealData bs)
    with (map (fun e => if isRealData then lumiMask self (run e) (luminosityBlock e)
                        else true) (events bs)).
  2:{ unfold TTdilep.req_lumi, len. destruct isRealData; [reflexivity|].
      rewrite ones_bool_as_map. reflexivity. }
  unfold TTdilep.req_muon, TTdilep.req_ele, TTdilep.req_jets.
  rewrite !map_map. rewrite !map2_map_map. rewrite map_map.
  apply map_ext. intros e. reflexivity.
Qed.

(** *** What the mask guarantees about a selected event *)

Lemma eWc_selected imp self isRealData present e :
  eWc_row_level imp self isRealData present e = true ->
  EWc.iso_ele imp e <> None /\
  Ak.first (EWc.soft_muon imp e) <> None /\
  Ak.first (EWc.mu_jet imp e) <> None.
Proof.
  intros H. apply all_reqs_true in H. unfold eWc_row_reqs in H.
  repeat match goal with
         | H : Forall _ (_ :: _) |- _ => inversion H; clear H; subst
         end.
  destruct (EWc.iso_ele imp e), (Ak.first (EWc.soft_muon imp e)),
    (Ak.first (EWc.mu_jet imp e)); simpl in *; try discriminate;
    repeat split; discriminate.
Qed.

Lemma count_pad_none1 {A : Type} (xs : list A) :
  Ak.count (Ak.pad_none1 xs) = 1%nat -> exists x, Ak.pad_none1 xs = [Some x].
Proof.
  destruct xs as [|x [|y xs]]; unfold Ak.count; simpl; intros H; try discriminate; eauto.
Qed.

Lemma tt_selected imp self isRealData present e :
  padded e ->
  tt_row_level imp self isRealData present e = true ->
  (exists m, Muon e = [Some m]) /\ (exists l, Electron e = [Some l]) /\
  (exists j0 j1 js, TTdilep.event_jet imp e = j0 :: j1 :: js).
Proof.
  intros [[xs Hm] [ys Hel]] H. apply all_reqs_true in H. unfold tt_row_reqs in H.
  repeat match goal with
         | H : Forall _ (_ :: _) |- _ => inversion H; clear H; subst
         end.
  repeat match goal with
         | H : Some true = Some _ |- _ => injection H as H; symmetry in H
         end.
  split; [|split].
  - rewrite Hm in *. apply count_pad_none1. apply Nat.eqb_eq. assumption.
  - rewrite Hel in *. apply count_pad_none1. apply Nat.eqb_eq. assumption.
  - destruct (TTdilep.event_jet imp e) as [|j0 [|j1 js]]; simpl in *; try discriminate.
    eauto.
Qed.

(** *** The selected columns of eWc, row by row *)

Lemma weights_rows_eWc imp self isRealData (s : Batch Lepton Lepton)
      (p : Event Lepton Lepton -> bool) :
  exists wf : Event Lepton Lepton -> Q, forall evs,
    Ak.select (map p evs)
              (Weights.weight (EWc.weights imp self isRealData (with_events s evs) (map p evs)
                                           (Weights.new (List.length evs))))
    = map wf (filter p evs).
Proof.
  unfold EWc.weights, EWc.lep1sf, EWc.lep2sf, Weights.weight, Weights.add, Weights.new.
  destruct isRealData, (isCorr self); cbn [negb andb Weights._weight events with_events];
    eexists; intros evs; rewrite ones_as_map, ?map2_map_map, select_map, select_filter;
    reflexivity.
Qed.

(** *** The selected columns of eWc, row by row *)

Section RowsEWc.

Variable imp : Imports.
Variable self : NanoProcessor.
Variable isRealData : bool.
Variable s : Batch Lepton Lepton.
Variable p : Event Lepton Lepton -> bool.
Variable evs : list (Event Lepton Lepton).

Lemma shmu_rows :
  EWc.shmu imp (with_events s evs) (map p evs) = map (EWc.iso_ele imp) (filter p evs).
Proof. unfold EWc.shmu; cbn [events with_events]. rewrite select_map, select_filter; reflexivity. Qed.

Lemma sjets_rows :
  EWc.sjets imp (with_events s evs) (map p evs) = map (EWc.event_jet imp) (filter p evs).
Proof. unfold EWc.sjets; cbn [events with_events]. rewrite select_map, select_filter; reflexivity. Qed.

Lemma sMET_rows :
  EWc.sMET (with_events s evs) (map p evs) = map MET_ (filter p evs).
Proof. unfold EWc.sMET; cbn [events with_events]. rewrite select_map, select_filter; reflexivity. Qed.

Lemma smet_rows :
  EWc.smet (with_events s evs) (map p evs) = map EWc.MET_p4 (filter p evs).
Proof. unfold EWc.smet; cbn [events with_events]. rewrite select_map, select_filter; reflexivity. Qed.

Lemma smuon_jet_rows :
  EWc.smuon_jet imp (with_events s evs) (map p evs) =
  map (fun e => Ak.first (EWc.mu_jet imp e)) (filter p evs).
Proof.
  unfold EWc.smuon_jet; cbn [events with_events].
  rewrite select_map, select_filter, map_map; reflexivity.
Qed.

Lemma ssmu_rows :
  EWc.ssmu imp (with_events s evs) (map p evs) =
  map (fun e => Ak.first (EWc.soft_muon imp e)) (filter p evs).
Proof.
  unfold EWc.ssmu; cbn [events with_events].
  rewrite select_map, select_filter, map_map; reflexivity.
Qed.

Lemma osss_rows :
  EWc.osss imp (with_events s evs) (map p evs) =
  map (fun e => Ak.lift2 (fun l m => inject_Z (mul32 (mul32 (charge l) (charge m)) (-1)))
                         (EWc.iso_ele imp e) (Ak.first (EWc.soft_muon imp e)))
      (filter p evs).
Proof. unfold EWc.osss. rewrite shmu_rows, ssmu_rows, map2_map_map. reflexivity. Qed.

Lemma njet_rows :
  EWc.njet imp (with_events s evs) (map p evs) =
  map (fun e => Ak.count_all (EWc.event_jet imp e)) (filter p evs).
Proof. unfold EWc.njet. rewrite sjets_rows, map_map. reflexivity. Qed.

Lemma genflavor_rows :
  EWc.genflavor imp isRealData (with_events s evs) (map p evs) =
  map (fun e => map (flav_label isRealData) (EWc.event_jet imp e)) (filter p evs).
Proof.
  unfold EWc.genflavor, flav_label. rewrite sjets_rows.
  destruct isRealData; rewrite map_map; reflexivity.
Qed.

Lemma smflav_rows :
  EWc.smflav imp isRealData (with_events s evs) (map p evs) =
  map (fun e => option_map (flav_label isRealData) (Ak.first (EWc.mu_jet imp e)))
      (filter p evs).
Proof.
  unfold EWc.smflav, flav_label. rewrite smuon_jet_rows.
  destruct isRealData; rewrite map_map; reflexivity.
Qed.

Lemma sz_rows :
  EWc.sz imp (with_events s evs) (map p evs) =
  map (fun e => EWc.lep_add imp (EWc.iso_ele imp e) (Ak.first (EWc.soft_muon imp e)))
      (filter p evs).
Proof. unfold EWc.sz. rewrite shmu_rows, ssmu_rows, map2_map_map. reflexivity. Qed.

Lemma sw_rows :
  EWc.sw imp (with_events s evs) (map p evs) =
  map (fun e => option_map (fun l => vec_add imp (lep_p4 l) (EWc.MET_p4 e))
                           (EWc.iso_ele imp e))
      (filter p evs).
Proof. unfold EWc.sw. rewrite shmu_rows, smet_rows, map2_map_map. reflexivity. Qed.

Variable wf : Event Lepton Lepton -> Q.
Hypothesis Hwf :
  Ak.select (map p evs)
            (Weights.weight (EWc.weights imp self isRealData (with_events s evs) (map p evs)
                                         (Weights.new (List.length evs))))
  = map wf (filter p evs).

Lemma wsel_rows :
  EWc.wsel imp self isRealData (with_events s evs) (map p evs)
           (Weights.new (List.length evs)) =
  map (fun e => option_map (Qmult (wf e))
                  (Ak.lift2 (fun l m => inject_Z (mul32 (mul32 (charge l) (charge m)) (-1)))
                            (EWc.iso_ele imp e) (Ak.first (EWc.soft_muon imp e))))
      (filter p evs).
Proof. unfold EWc.wsel. rewrite Hwf, osss_rows, map2_map_map. reflexivity. Qed.

Lemma wsel_sf_rows (f : Event Lepton Lepton -> option Q) :
  EWc.wsel_sf imp self isRealData (with_events s evs) (map p evs)
              (Weights.new (List.length evs)) (map f (filter p evs)) =
  map (fun e => Ak.lift2 Qmult (option_map (Qmult (wf e)) (f e))
                  (Ak.lift2 (fun l m => inject_Z (mul32 (mul32 (charge l) (charge m)) (-1)))
                            (EWc.iso_ele imp e) (Ak.first (EWc.soft_muon imp e))))
      (filter p evs).
Proof. unfold EWc.wsel_sf. rewrite Hwf, osss_rows, !map2_map_map. reflexivity. Qed.

End RowsEWc.

(** *** The fills of eWc, row by row *)

Lemma disc_rows_eWc imp self (s : Batch Lepton Lepton) (p : Event Lepton Lepton -> bool) d i :
  (forall evs, dict_get (EWc.disc_list imp self (with_events s evs) (map p evs)) d
               = inl (KeyError d)) \/
  exists fs : list (string * (Jet -> Q)), forall evs,
    exists sfs,
      dict_get (EWc.disc_list imp self (with_events s evs) (map p evs)) d = inr sfs /\
      dd_get sfs i =
      map (fun kf => (fst kf,
                      map (option_map (snd kf))
                          (EWc.smuon_jet imp (with_events s evs) (map p evs)))) fs.
Proof.
  unfold EWc.disc_list. cbn [dict_get].
  repeat match goal with
         | |- context [String.eqb ?a d] => destruct (String.eqb a d)
         end;
    try (left; intros; reflexivity);
    right;
    (destruct (Nat.eqb 0 i) eqn:E;
     [ refine (ex_intro _ [(_, _); (_, _); (_, _)] _)
     | refine (ex_intro _ [] _) ]);
    intros evs; eexists; (split; [reflexivity|]);
    unfold EWc.csvsfs_b, EWc.csvsfs_c, EWc.jetsfs_b, EWc.jetsfs_c;
    cbn [dd_get map fst snd]; rewrite E;
    unfold EWc.getSF_col, EWc.eval_col; reflexivity.
Qed.

Lemma selected_Forall {Ev : Type} (p : Ev -> bool) (P : Ev -> Prop) (evs : list Ev) :
  (forall e, p e = true -> P e) -> Forall P (filter p evs).
Proof.
  intros H. apply Forall_forall. intros e He. apply filter_In in He. apply H, He.
Qed.

Lemma btag_calls_rows_eWc imp self isRealData (s : Batch Lepton Lepton) p wf i d
      (flavf : Event Lepton Lepton -> option Z) (jetf : Event Lepton Lepton -> option Jet) :
  (forall evs,
      Ak.select (map p evs)
                (Weights.weight (EWc.weights imp self isRealData (with_events s evs)
                                             (map p evs) (Weights.new (List.length evs))))
      = map wf (filter p evs)) ->
  exists gs, forall evs cs,
    EWc.btag_calls imp self isRealData (with_events s evs) (map p evs)
                   (Weights.new (List.length evs)) i d
                   (map flavf (filter p evs)) (map jetf (filter p evs)) = inr cs ->
    map Hist.entries cs = rows_of p gs evs.
Proof.
  intros Hwf. unfold EWc.btag_calls.
  destruct (negb isRealData && isCorr self).
  - destruct (disc_rows_eWc imp self s p d i) as [Herr|[fs Hfs]].
    + exists []. intros evs cs H. rewrite Herr in H. discriminate.
    + refine (ex_intro _ (_ :: map _ fs) _). intros evs cs H.
      destruct (Hfs evs) as [sfs [Hd Hdd]]. rewrite Hd in H. cbn [bind] in H.
      injection H as <-. rewrite Hdd. unfold rows_of. cbn [map]. f_equal.
      * unfold Hist.entries, EWc.discr_col.
        cbn [Hist.fc_flav Hist.fc_val Hist.fc_weight Hist.fc_syst].
        rewrite (wsel_rows imp self isRealData s p evs wf (Hwf evs)), map_map.
        rewrite rows3_rows. reflexivity.
      * rewrite !map_map. apply map_ext. intros kf. cbn [fst snd].
        unfold Hist.entries, EWc.discr_col.
        cbn [Hist.fc_flav Hist.fc_val Hist.fc_weight Hist.fc_syst].
        rewrite smuon_jet_rows, !map_map.
        rewrite (wsel_sf_rows imp self isRealData s p evs wf (Hwf evs)).
        rewrite rows3_rows. reflexivity.
  - refine (ex_intro _ [_] _). intros evs cs H. injection H as <-.
    unfold rows_of. cbn [map]. f_equal.
    unfold Hist.entries, EWc.discr_col.
    cbn [Hist.fc_flav Hist.fc_val Hist.fc_weight Hist.fc_syst].
    rewrite (wsel_rows imp self isRealData s p evs wf (Hwf evs)), map_map.
    rewrite rows3_rows. reflexivity.
Qed.

Ltac enter_loop_eWc H :=
  unfold EWc.loop_calls in H; cbn [Electron_fields Muon_fields with_events] in H;
  repeat match goal with
         | Hc : ?c = true |- _ => rewrite Hc in H
         | Hc : ?c = false |- _ => rewrite Hc in H
         end;
  cbn [andb negb] in H.

Ltac one_call H :=
  injection H as <-; unfold rows_of; cbn [map]; f_equal;
  unfold Hist.entries; cbn [Hist.fc_flav Hist.fc_val Hist.fc_weight Hist.fc_syst].

Lemma loop_calls_rows_eWc imp self isRealData (s : Batch Lepton Lepton) p wf name :
  (forall evs,
      Ak.select (map p evs)
                (Weights.weight (EWc.weights imp self isRealData (with_events s evs)
                                             (map p evs) (Weights.new (List.length evs))))
      = map wf (filter p evs)) ->
  (forall e, p e = true ->
             EWc.iso_ele imp e <> None /\ Ak.first (EWc.soft_muon imp e) <> None /\
             Ak.first (EWc.mu_jet imp e) <> None) ->
  exists gs, forall evs cs,
    (eWc_guarded s name = false \/
     forallb (fun i => Nat.ltb 1 i) (EWc.njet imp (with_events s evs) (map p evs)) = true) ->
    EWc.loop_calls imp self isRealData (with_events s evs) (map p evs)
                   (Weights.new (List.length evs)) name = inr cs ->
    map Hist.entries cs = rows_of p gs evs.
Proof.
  intros Hwf Hinv. unfold eWc_guarded.
  destruct (btag_calls_rows_eWc imp self isRealData s p wf 0 (Str.remove "_0" name)
              (fun e => option_map (flav_label isRealData) (Ak.first (EWc.mu_jet imp e)))
              (fun e => Ak.first (EWc.mu_jet imp e)) Hwf) as [gs0 Hgs0].
  destruct (btag_calls_rows_eWc imp self isRealData s p wf 1 (Str.remove "_1" name)
              (fun e => nth_error (map (flav_label isRealData) (EWc.event_jet imp e)) 1)
              (fun e => nth_error (EWc.event_jet imp e) 1) Hwf) as [gs1 Hgs1].
  destruct (Str.contains "Deep" name && negb (Str.contains "btag" name)) eqn:C1.
  { refine (ex_intro _ [_] _). intros evs cs _ H. enter_loop_eWc H. one_call H.
    unfold EWc.wjets.
    rewrite genflavor_rows, sjets_rows, (wsel_rows imp self isRealData s p evs wf (Hwf evs)),
      !map_map.
    rewrite (rows3_jagged None (EWc.event_jet imp)). reflexivity. }
  destruct (Str.contains "jet_" name && negb (Str.contains "mu" name)) eqn:C2.
  { refine (ex_intro _ [_] _). intros evs cs _ H. enter_loop_eWc H. one_call H.
    unfold EWc.wjets.
    rewrite genflavor_rows, sjets_rows, (wsel_rows imp self isRealData s p evs wf (Hwf evs)),
      !map_map.
    rewrite (rows3_jagged None (EWc.event_jet imp)). reflexivity. }
  destruct (Str.contains "hl_" name &&
            in_fields (Str.remove "hl_" name) (Electron_fields s)) eqn:C3.
  { refine (ex_intro _ [_] _). intros evs cs _ H. enter_loop_eWc H. one_call H.
    rewrite shmu_rows, (wsel_rows imp self isRealData s p evs wf (Hwf evs)), !map_map.
    rewrite drop_none_present.
    - rewrite rows2_rows. reflexivity.
    - apply selected_Forall. intros e He. destruct (Hinv e He) as (H1 & _).
      destruct (EWc.iso_ele imp e); [discriminate | congruence]. }
  destruct (Str.contains "soft_l" name &&
            in_fields (Str.remove "soft_l_" name) (Muon_fields s)) eqn:C4.
  { refine (ex_intro _ [_] _). intros evs cs _ H. enter_loop_eWc H. one_call H.
    rewrite ssmu_rows, (wsel_rows imp self isRealData s p evs wf (Hwf evs)), !map_map.
    rewrite drop_none_present.
    - rewrite rows2_rows. reflexivity.
    - apply selected_Forall. intros e He. destruct (Hinv e He) as (_ & H1 & _).
      destruct (Ak.first (EWc.soft_muon imp e)); [discriminate | congruence]. }
  destruct (Str.contains "MET" name) eqn:C5.
  { refine (ex_intro _ [_] _). intros evs cs _ H. enter_loop_eWc H. one_call H.
    rewrite sMET_rows, (wsel_rows imp self isRealData s p evs wf (Hwf evs)), !map_map.
    rewrite rows2_rows. reflexivity. }
  destruct (Str.contains "mujet_" name) eqn:C6.
  { refine (ex_intro _ [_] _). intros evs cs _ H. enter_loop_eWc H. one_call H.
    rewrite smflav_rows, smuon_jet_rows,
      (wsel_rows imp self isRealData s p evs wf (Hwf evs)), !map_map.
    rewrite drop_none_present.
    - rewrite rows3_rows. reflexivity.
    - apply selected_Forall. intros e He. destruct (Hinv e He) as (_ & _ & H1).
      destruct (Ak.first (EWc.mu_jet imp e)); [discriminate | congruence]. }
  destruct (Str.contains "btagDeep" name && Str.contains "0" name) eqn:C7.
  { exists gs0. intros evs cs _ H. enter_loop_eWc H.
    rewrite smflav_rows, smuon_jet_rows in H. apply Hgs0. exact H. }
  destruct (Str.contains "btagDeep" name && Str.contains "1" name) eqn:C8.
  - exists gs1. intros evs cs [Hg|Hg] H; [discriminate|].
    unfold EWc.loop_calls in H. cbn [Electron_fields Muon_fields with_events] in H.
    rewrite C1, C2, C3, C4, C5, C6, C7, C8, Hg in H. cbn [andb] in H.
    rewrite genflavor_rows, sjets_rows, !map_map in H. apply Hgs1. exact H.
  - exists []. intros evs cs _ H.
    unfold EWc.loop_calls in H. cbn [Electron_fields Muon_fields with_events] in H.
    rewrite C1, C2, C3, C4, C5, C6, C7, C8 in H. cbn [andb] in H.
    injection H as <-. reflexivity.
Qed.

Lemma tail_calls_rows_eWc imp self isRealData (s : Batch Lepton Lepton) p wf :
  (forall evs,
      Ak.select (map p evs)
                (Weights.weight (EWc.weights imp self isRealData (with_events s evs)
                                             (map p evs) (Weights.new (List.length evs))))
      = map wf (filter p evs)) ->
  (forall e, p e = true ->
             EWc.iso_ele imp e <> None /\ Ak.first (EWc.soft_muon imp e) <> None /\
             Ak.first (EWc.mu_jet imp e) <> None) ->
  exists gs : list (string * (Event Lepton Lepton -> list Hist.Entry)), forall evs,
    map (fun kc => (fst kc, Hist.entries (snd kc)))
        (EWc.tail_calls imp self isRealData (with_events s evs) (map p evs)
                        (Weights.new (List.length evs)))
    = map (fun kg => (fst kg, flat_map (snd kg) (filter p evs))) gs.
Proof.
  intros Hwf Hinv.
  refine (ex_intro _ [(_, _); (_, _); (_, _); (_, _); (_, _); (_, _); (_, _);
                      (_, _); (_, _); (_, _); (_, _); (_, _); (_, _); (_, _)] _).
  intros evs. unfold EWc.tail_calls, EWc.p4_col. cbn [map fst snd].
  unfold Hist.entries. cbn [Hist.fc_flav Hist.fc_val Hist.fc_weight Hist.fc_syst].
  rewrite njet_rows, genflavor_rows, sjets_rows, shmu_rows, ssmu_rows, smuon_jet_rows,
    smflav_rows, sz_rows, sw_rows, (wsel_rows imp self isRealData s p evs wf (Hwf evs)).
  rewrite !map_map, !map2_map_map.
  rewrite !drop_none_present
    by (apply selected_Forall; intros e He; destruct (Hinv e He) as (H1 & H2 & H3);
        unfold EWc.lep_add, Ak.lift2;
        destruct (EWc.iso_ele imp e); [|congruence];
        destruct (Ak.first (EWc.soft_muon imp e)); [|congruence];
        cbn; discriminate).
  rewrite !rows2_rows, !rows3_rows. reflexivity.
Qed.

(** *** The histograms of an output, name by name *)

Lemma fills_entries (cs : list Hist.FillCall) :
  forall h, Hist.fills h cs = h ++ List.concat (map Hist.entries cs).
Proof.
  unfold Hist.fills. induction cs as [|c cs IH]; intros h; simpl.
  - rewrite app_nil_r. reflexivity.
  - rewrite IH. unfold Hist.fill. rewrite app_assoc. reflexivity.
Qed.

Lemma loop_get (LC : string -> Exn + list Hist.FillCall) (hs out : list (string * Hist.t)) :
  mapM (fun nh => bind (LC (fst nh)) (fun cs => inr (fst nh, Hist.fills (snd nh) cs))) hs
  = inr out ->
  map fst out = map fst hs /\
  forall name h0, dict_get hs name = inr h0 ->
    exists cs, LC name = inr cs /\
               dict_get out name = inr (h0 ++ List.concat (map Hist.entries cs)).
Proof.
  revert out. induction hs as [|[k h] hs IH]; intros out H; simpl in H.
  - injection H as <-. split; [reflexivity|]. intros name h0 Hd. discriminate.
  - destruct (LC k) as [e|cs] eqn:Hk; simpl in H; [discriminate|].
    destruct (mapM _ hs) as [e|out'] eqn:Hm; simpl in H; [discriminate|].
    injection H as <-. destruct (IH out' eq_refl) as [Hkeys Hget].
    split; [simpl; congruence|].
    intros name h0 Hd. simpl in Hd |- *.
    destruct (String.eqb k name) eqn:E.
    + apply String.eqb_eq in E. subst. injection Hd as ->.
      exists cs. split; [assumption|]. rewrite fills_entries. reflexivity.
    + apply Hget. assumption.
Qed.

Lemma loop_ok (LC : string -> Exn + list Hist.FillCall) (hs : list (string * Hist.t)) :
  (forall nh, In nh hs -> exists cs, LC (fst nh) = inr cs) ->
  exists out,
    mapM (fun nh => bind (LC (fst nh)) (fun cs => inr (fst nh, Hist.fills (snd nh) cs))) hs
    = inr out.
Proof.
  induction hs as [|[k h] hs IH]; intros H; simpl.
  - eauto.
  - destruct (H (k, h) (or_introl eq_refl)) as [cs Hcs]. simpl in Hcs. rewrite Hcs. simpl.
    destruct IH as [out Hout]; [intros; apply H; right; assumption|].
    rewrite Hout. simpl. eauto.
Qed.

Lemma loop_ok_inv (LC : string -> Exn + list Hist.FillCall) (hs out : list (string * Hist.t)) :
  mapM (fun nh => bind (LC (fst nh)) (fun cs => inr (fst nh, Hist.fills (snd nh) cs))) hs
  = inr out ->
  forall nh, In nh hs -> exists cs, LC (fst nh) = inr cs.
Proof.
  revert out. induction hs as [|[k h] hs IH]; intros out H nh Hin; simpl in *; [contradiction|].
  destruct (LC k) as [e|cs] eqn:Hk; simpl in H; [discriminate|].
  destruct (mapM _ hs) as [e|out'] eqn:Hm; simpl in H; [discriminate|].
  destruct Hin as [<-|Hin]; simpl; eauto.
Qed.

Lemma fill_at_get out key c out' :
  fill_at out key c = inr out' ->
  map fst out' = map fst out /\
  forall name, dict_get out' name =
    match dict_get out name with
    | inr h => inr (h ++ (if String.eqb key name then Hist.entries c else []))
    | inl e => inl e
    end.
Proof.
  revert out'. induction out as [|[k h] out IH]; intros out' H; simpl in H; [discriminate|].
  destruct (String.eqb k key) eqn:E.
  - injection H as <-. split; [reflexivity|]. intros name. simpl.
    apply String.eqb_eq in E. subst k.
    destruct (String.eqb key name); [reflexivity|].
    destruct (dict_get out name); [reflexivity|]. rewrite app_nil_r. reflexivity.
  - destruct (fill_at out key c) as [e|r] eqn:Hf; [discriminate|].
    injection H as <-. destruct (IH r eq_refl) as [Hkeys Hget].
    split; [simpl; congruence|]. intros name. simpl.
    destruct (String.eqb k name) eqn:En.
    + assert (String.eqb key name = false) as ->.
      { apply String.eqb_eq in En. subst. rewrite String.eqb_sym. assumption. }
      rewrite app_nil_r. reflexivity.
    + apply Hget.
Qed.

Lemma fill_at_ok out key c :
  In key (map fst out) -> exists out', fill_at out key c = inr out'.
Proof.
  induction out as [|[k h] out IH]; simpl; [contradiction|].
  intros Hin. destruct (String.eqb k key) eqn:E; [eauto|].
  destruct Hin as [->|Hin]; [rewrite String.eqb_refl in E; discriminate|].
  destruct (IH Hin) as [r ->]. eauto.
Qed.

Lemma fill_at_ok_inv out key c out' :
  fill_at out key c = inr out' -> In key (map fst out).
Proof.
  revert out'. induction out as [|[k h] out IH]; intros out' H; simpl in *; [discriminate|].
  destruct (String.eqb k key) eqn:E.
  - left. apply String.eqb_eq. assumption.
  - destruct (fill_at out key c) as [e|r] eqn:Hf; [discriminate|]. right. eapply IH; eauto.
Qed.

Lemma fill_all_get cs : forall out out',
  fill_all out cs = inr out' ->
  map fst out' = map fst out /\
  forall name, dict_get out' name =
    match dict_get out name with
    | inr h => inr (h ++ tail_entries name
                          (map (fun kc => (fst kc, Hist.entries (snd kc))) cs))
    | inl e => inl e
    end.
Proof.
  induction cs as [|[key c] cs IH]; intros out out' H; simpl in H.
  - injection H as <-. split; [reflexivity|]. intros name.
    destruct (dict_get out name); [reflexivity|]. simpl. rewrite app_nil_r. reflexivity.
  - destruct (fill_at out key c) as [e|o1] eqn:Hf; simpl in H; [discriminate|].
    destruct (fill_at_get _ _ _ _ Hf) as [Hk1 Hg1].
    destruct (IH _ _ H) as [Hk2 Hg2].
    split; [congruence|]. intros name. rewrite Hg2, Hg1.
    destruct (dict_get out name); [reflexivity|].
    unfold tail_entries. simpl. rewrite <- app_assoc. reflexivity.
Qed.

Lemma fill_all_ok cs : forall out,
  Forall (fun kc => In (fst kc) (map fst out)) cs <->
  exists out', fill_all out cs = inr out'.
Proof.
  induction cs as [|[key c] cs IH]; intros out; simpl.
  - split; eauto.
  - split.
    + intros H. inversion H; subst. simpl in *.
      destruct (fill_at_ok out key c) as [o1 Ho1]; [assumption|].
      rewrite Ho1. simpl. apply IH.
      destruct (fill_at_get _ _ _ _ Ho1) as [Hk _]. rewrite Hk. assumption.
    + intros [out' H].
      destruct (fill_at out key c) as [e|o1] eqn:Hf; simpl in H; [discriminate|].
      constructor.
      * simpl. eapply fill_at_ok_inv; eauto.
      * destruct (fill_at_get _ _ _ _ Hf) as [Hk _]. rewrite <- Hk.
        apply IH. eauto.
Qed.

(** *** Sums of weights under concatenation and permutation *)

Lemma sum_app (l1 l2 : list Q) : Ak.sum (l1 ++ l2) == Ak.sum l1 + Ak.sum l2.
Proof.
  unfold Ak.sum. induction l1 as [|x l1 IH]; simpl.
  - ring.
  - rewrite IH. ring.
Qed.

Lemma sum_perm (l l' : list Q) : Permutation l l' -> Ak.sum l == Ak.sum l'.
Proof.
  unfold Ak.sum. induction 1; simpl.
  - reflexivity.
  - rewrite IHPermutation. reflexivity.
  - ring.
  - rewrite IHPermutation1. assumption.
Qed.

Lemma filter_perm {A : Type} (f : A -> bool) (l l' : list A) :
  Permutation l l' -> Permutation (filter f l) (filter f l').
Proof.
  induction 1; simpl.
  - constructor.
  - destruct (f x); [constructor|]; assumption.
  - destruct (f x), (f y); try constructor; apply Permutation_refl.
  - eapply Permutation_trans; eassumption.
Qed.

Lemma hist_sumw_app h1 h2 b : Hist.sumw (h1 ++ h2) b == Hist.sumw h1 b + Hist.sumw h2 b.
Proof. unfold Hist.sumw. rewrite filter_app, map_app. apply sum_app. Qed.

Lemma hist_sumw2_app h1 h2 b : Hist.sumw2 (h1 ++ h2) b == Hist.sumw2 h1 b + Hist.sumw2 h2 b.
Proof. unfold Hist.sumw2. rewrite filter_app, map_app. apply sum_app. Qed.

Lemma hist_sumw_perm h h' b : Permutation h h' -> Hist.sumw h b == Hist.sumw h' b.
Proof.
  intros H. unfold Hist.sumw. apply sum_perm, Permutation_map, filter_perm. assumption.
Qed.

Lemma hist_sumw2_perm h h' b : Permutation h h' -> Hist.sumw2 h b == Hist.sumw2 h' b.
Proof.
  intros H. unfold Hist.sumw2. apply sum_perm, Permutation_map, filter_perm. assumption.
Qed.

Lemma rows_of_app_perm {Ev : Type} (p : Ev -> bool) gs (e1 e2 : list Ev) :
  Permutation (List.concat (rows_of p gs (e1 ++ e2)))
              (List.concat (rows_of p gs e1) ++ List.concat (rows_of p gs e2)).
Proof.
  unfold rows_of. induction gs as [|g gs IH]; simpl.
  - constructor.
  - rewrite filter_app in IH |- *. rewrite flat_map_app, <- !app_assoc.
    apply Permutation_app_head.
    eapply Permutation_trans; [apply Permutation_app_head; exact IH|].
    rewrite !app_assoc. apply Permutation_app_tail. apply Permutation_app_comm.
Qed.

Lemma tail_entries_rows {Ev : Type} (p : Ev -> bool) name
      (gs : list (string * (Ev -> list Hist.Entry))) (evs : list Ev) :
  tail_entries name (map (fun kg => (fst kg, flat_map (snd kg) (filter p evs))) gs) =
  List.concat (rows_of p (map snd (filter (fun kg => String.eqb (fst kg) name) gs)) evs).
Proof.
  unfold tail_entries, rows_of. induction gs as [|[k g] gs IH]; simpl; auto.
  destruct (String.eqb k name); simpl; rewrite IH; reflexivity.
Qed.

Lemma rows_of_app {Ev : Type} (p : Ev -> bool) gs gs' (evs : list Ev) :
  List.concat (rows_of p (gs ++ gs') evs) =
  List.concat (rows_of p gs evs) ++ List.concat (rows_of p gs' evs).
Proof. unfold rows_of. rewrite map_app, concat_app. reflexivity. Qed.

Lemma dict_get_absent {V : Type} (d : list (string * V)) name e :
  dict_get d name = inl e -> ~ In name (map fst d).
Proof.
  induction d as [|[k v] d IH]; simpl; intros H; [tauto|].
  destruct (String.eqb k name) eqn:E; [discriminate|].
  intros [->|Hin]; [rewrite String.eqb_refl in E; discriminate|].
  apply IH; assumption.
Qed.

Lemma dict_get_present {V : Type} (d : list (string * V)) name v :
  dict_get d name = inr v -> In name (map fst d) /\ In (name, v) d.
Proof.
  induction d as [|[k w] d IH]; simpl; intros H; [discriminate|].
  destruct (String.eqb k name) eqn:E.
  - apply String.eqb_eq in E. injection H as ->. subst. auto.
  - destruct (IH H). auto.
Qed.

Lemma dict_get_keys {V W : Type} (d : list (string * V)) (d' : list (string * W)) name v :
  map fst d = map fst d' -> dict_get d name = inr v -> exists w, dict_get d' name = inr w.
Proof.
  intros Hk Hd. destruct (dict_get d' name) as [e|w] eqn:E; eauto.
  apply dict_get_absent in E. apply dict_get_present in Hd. rewrite Hk in Hd. tauto.
Qed.

Lemma fill_phase_keys LC TC hs out :
  fill_phase LC TC hs = inr out -> map fst out = map fst hs.
Proof.
  unfold fill_phase. destruct (mapM _ hs) as [e|o1] eqn:Hl; simpl; [discriminate|].
  intros H. destruct (loop_get _ _ _ Hl) as [Hk _].
  destruct (fill_all_get _ _ _ H) as [Hk' _]. congruence.
Qed.

Lemma fill_phase_rows {Ev : Type} (p : Ev -> bool) LC TC hs name gsL gsT
      (evs : list Ev) out h :
  Forall (fun nh => snd nh = @nil Hist.Entry) hs ->
  (forall cs, LC name = inr cs -> map Hist.entries cs = rows_of p gsL evs) ->
  map (fun kc => (fst kc, Hist.entries (snd kc))) TC =
    map (fun kg => (fst kg, flat_map (snd kg) (filter p evs))) gsT ->
  fill_phase LC TC hs = inr out ->
  dict_get out name = inr h ->
  h = List.concat
        (rows_of p (gsL ++ map snd (filter (fun kg => String.eqb (fst kg) name) gsT)) evs).
Proof.
  intros Hfresh HL HT Hf Hd. unfold fill_phase in Hf.
  match type of Hf with
  | context [mapM ?f hs] => destruct (mapM f hs) as [e|o1] eqn:Hl
  end; simpl in Hf; [discriminate|].
  destruct (loop_get _ _ _ Hl) as [Hk Hget].
  destruct (fill_all_get _ _ _ Hf) as [Hk' Hget'].
  rewrite Hget' in Hd.
  destruct (dict_get o1 name) as [e|h1] eqn:H1; [discriminate|].
  injection Hd as <-.
  destruct (dict_get_keys o1 hs name h1 Hk H1) as [h0 H0].
  destruct (Hget name h0 H0) as [cs [Hcs Hd1]].
  rewrite H1 in Hd1. injection Hd1 as ->.
  assert (h0 = []) as ->.
  { apply dict_get_present in H0. destruct H0 as [_ Hin].
    rewrite Forall_forall in Hfresh. apply (Hfresh _ Hin). }
  rewrite (HL cs Hcs), HT, tail_entries_rows, rows_of_app. reflexivity.
Qed.

Lemma fill_phase_ok LC TC LC' TC' hs out :
  fill_phase LC TC hs = inr out ->
  (forall name, (exists cs, LC name = inr cs) -> exists cs', LC' name = inr cs') ->
  map fst TC' = map fst TC ->
  exists out', fill_phase LC' TC' hs = inr out'.
Proof.
  intros Hf HL HT. unfold fill_phase in *.
  match type of Hf with
  | context [mapM ?f hs] => destruct (mapM f hs) as [e|o1] eqn:Hl
  end; simpl in Hf; [discriminate|].
  destruct (loop_ok LC' hs) as [o1' Hl'].
  { intros nh Hin. apply HL. eapply loop_ok_inv; eauto. }
  rewrite Hl'. simpl. apply fill_all_ok.
  destruct (loop_get _ _ _ Hl) as [Hk _]. destruct (loop_get _ _ _ Hl') as [Hk' _].
  assert (Hall : Forall (fun kc => In (fst kc) (map fst o1)) TC).
  { apply fill_all_ok. eauto. }
  rewrite Hk', <- Hk.
  clear - Hall HT. revert TC HT Hall.
  induction TC' as [|kc TC' IH]; intros [|kc0 TC] HT Hall; simpl in HT; try discriminate;
    constructor.
  - inversion Hall; subst. injection HT as -> _. assumption.
  - inversion Hall; subst. injection HT as _ HT. eapply IH; eauto.
Qed.

(** *** Exceptions do not depend on the events *)

Lemma btag_calls_ok_eWc imp self isRealData (s : Batch Lepton Lepton) p i d
      evs fl js cs evs' fl' js' :
  EWc.btag_calls imp self isRealData (with_events s evs) (map p evs)
                 (Weights.new (List.length evs)) i d fl js = inr cs ->
  exists cs',
    EWc.btag_calls imp self isRealData (with_events s evs') (map p evs')
                   (Weights.new (List.length evs')) i d fl' js' = inr cs'.
Proof.
  unfold EWc.btag_calls. destruct (negb isRealData && isCorr self); [|eauto].
  destruct (disc_rows_eWc imp self s p d i) as [Herr|[fs Hfs]].
  - rewrite Herr. discriminate.
  - intros _. destruct (Hfs evs') as [sfs [-> _]]. simpl. eauto.
Qed.

Lemma loop_calls_ok_eWc imp self isRealData (s : Batch Lepton Lepton) p name evs evs' :
  (forallb (fun i => Nat.ltb 1 i) (EWc.njet imp (with_events s evs') (map p evs')) = true ->
   forallb (fun i => Nat.ltb 1 i) (EWc.njet imp (with_events s evs) (map p evs)) = true) ->
  (exists cs, EWc.loop_calls imp self isRealData (with_events s evs) (map p evs)
                             (Weights.new (List.length evs)) name = inr cs) ->
  exists cs', EWc.loop_calls imp self isRealData (with_events s evs') (map p evs')
                             (Weights.new (List.length evs')) name = inr cs'.
Proof.
  intros Hg [cs H]. unfold EWc.loop_calls in *.
  cbn [Electron_fields Muon_fields with_events] in *.
  repeat match goal with
         | |- context [if ?c then _ else _] =>
             match c with
             | context [forallb] => fail 1
             | _ => destruct c; [solve [eauto | eapply btag_calls_ok_eWc; eauto]|]
             end
         end.
  destruct (Str.contains "btagDeep" name && Str.contains "1" name); cbn [andb] in *;
    [|eauto].
  destruct (forallb _ (EWc.njet imp (with_events s evs') (map p evs'))) eqn:G'; [|eauto].
  rewrite (Hg eq_refl) in H. eapply btag_calls_ok_eWc; eauto.
Qed.

Lemma guard_app_eWc imp (s : Batch Lepton Lepton) p e1 e2 :
  forallb (fun i => Nat.ltb 1 i) (EWc.njet imp (with_events s (e1 ++ e2)) (map p (e1 ++ e2)))
  = true ->
  forallb (fun i => Nat.ltb 1 i) (EWc.njet imp (with_events s e1) (map p e1)) = true /\
  forallb (fun i => Nat.ltb 1 i) (EWc.njet imp (with_events s e2) (map p e2)) = true.
Proof.
  rewrite !njet_rows, filter_app, map_app, forallb_app. apply andb_true_iff.
Qed.

(** *** [process] as the HLT block followed by the fill statements *)

Lemma with_events_self {E M : Type} (b : Batch E M) : with_events b (events b) = b.
Proof. destruct b; reflexivity. Qed.

Lemma process_returned_eWc imp self (X : Batch Lepton Lepton) :
  len (missing_branch imp X) = len (EWc.prepare imp self X) ->
  forall printed ds out,
    EWc.process imp self X = Returned printed ds out <->
    (Exists (fun t => hasattr_HLT (EWc.prepare imp self X) t = true) EWc.triggers /\
     register_genweight (negb (has_genWeight X)) (EWc.prepare imp self X) = inr tt) /\
    printed = hlt_diagnostic (EWc.prepare imp self X) EWc.triggers /\
    ds = dataset X /\
    sumw out = EWc.sumw_of (negb (has_genWeight X)) (EWc.prepare imp self X) /\
    fill_phase
      (EWc.loop_calls imp self (negb (has_genWeight X))
         (with_events (EWc.prepare imp self X) (events (EWc.prepare imp self X)))
         (map (eWc_row_level imp self (negb (has_genWeight X))
                 (filter (hasattr_HLT (EWc.prepare imp self X)) EWc.triggers))
              (events (EWc.prepare imp self X)))
         (Weights.new (List.length (events (EWc.prepare imp self X)))))
      (EWc.tail_calls imp self (negb (has_genWeight X))
         (with_events (EWc.prepare imp self X) (events (EWc.prepare imp self X)))
         (map (eWc_row_level imp self (negb (has_genWeight X))
                 (filter (hasattr_HLT (EWc.prepare imp self X)) EWc.triggers))
              (events (EWc.prepare imp self X)))
         (Weights.new (List.length (events (EWc.prepare imp self X)))))
      (_hist_event_dict self) = inr (hists out).
Proof.
  intros Hlen printed ds out.
  rewrite with_events_self, <- event_level_rows_eWc.
  unfold EWc.process. rewrite Hlen. unfold EWc.prepare, len.
  set (b := if isJERC self then _ else _).
  unfold EWc.loop, fill_phase.
  destruct (hlt_block_cases (dataset X) b EWc.triggers) as [[Hall ->]|[Hex ->]].
  - split; [discriminate|]. intros [[Hex _] _]. exfalso.
    apply Exists_exists in Hex. destruct Hex as [t [Ht Hp]].
    rewrite Forall_forall in Hall. rewrite (Hall t Ht) in Hp. discriminate.
  - match goal with
    | |- context [register_genweight ?r ?x] =>
        destruct (register_cases r x) as [[Hr _]|[Hr _]]; rewrite Hr; cbn [bind]
    end.
    + match goal with
      | |- context [bind ?m ?k] => destruct (bind m k) as [e|o]
      end.
      * split; [discriminate|]. intros (_ & _ & _ & _ & H). discriminate.
      * split.
        -- intros H. injection H as <- <- <-. simpl. auto.
        -- intros (_ & -> & -> & Hs & Ho). destruct out as [sw hs]. simpl in *.
           injection Ho as ->. subst. reflexivity.
    + split; [discriminate|]. intros [[_ H] _]. discriminate.
Qed.

(** *** Merged outputs *)

Lemma hist_at_merge o1 o2 name :
  map fst (hists o1) = map fst (hists o2) ->
  hist_at (merge o1 o2) name = hist_at o1 name ++ hist_at o2 name.
Proof.
  unfold hist_at, merge. cbn [hists]. generalize (hists o2).
  induction (hists o1) as [|[k h] d1 IH]; intros [|[k' h'] d2] Hk; simpl in *;
    try discriminate; auto.
  injection Hk as <- Hk. destruct (String.eqb k name); [reflexivity|]. apply IH; assumption.
Qed.

Lemma with_events_schema {E M E' M' : Type} (a b : Batch E M) (evs : list (Event E' M')) :
  same_schema a b -> with_events b evs = with_events a evs.
Proof.
  intros (H1 & H2 & H3 & H4 & H5). unfold with_events. congruence.
Qed.

Lemma hasattr_schema {E M : Type} (a b : Batch E M) ts :
  same_schema a b -> filter (hasattr_HLT b) ts = filter (hasattr_HLT a) ts.
Proof.
  intros (_ & _ & H3 & _). unfold hasattr_HLT. rewrite H3. reflexivity.
Qed.

Lemma exists_schema {E M : Type} (a b : Batch E M) ts :
  HLT_fields a = HLT_fields b ->
  Exists (fun t => hasattr_HLT a t = true) ts -> Exists (fun t => hasattr_HLT b t = true) ts.
Proof. unfold hasattr_HLT. intros ->. auto. Qed.

Lemma sumw_of_concat isRealData (a b : Batch Lepton Lepton) :
  EWc.sumw_of isRealData (concat_batch a b) ==
  EWc.sumw_of isRealData a + EWc.sumw_of isRealData b.
Proof.
  unfold EWc.sumw_of, concat_batch, len. cbn [events]. destruct isRealData.
  - rewrite length_app, Nat2Z.inj_add, inject_Z_plus. reflexivity.
  - rewrite map_app. apply sum_app.
Qed.

(** The entries of one histogram of a returning call, by rows: the same
    per-event entry functions for every batch of the schema. *)
Lemma hist_rows_eWc imp self isRealData (s : Batch Lepton Lepton) present name :
  fresh self ->
  exists gs, forall evs out,
    (eWc_guarded s name = false \/
     forallb (fun i => Nat.ltb 1 i)
             (EWc.njet imp (with_events s evs)
                       (map (eWc_row_level imp self isRealData present) evs)) = true) ->
    fill_phase
      (EWc.loop_calls imp self isRealData (with_events s evs)
         (map (eWc_row_level imp self isRealData present) evs)
         (Weights.new (List.length evs)))
      (EWc.tail_calls imp self isRealData (with_events s evs)
         (map (eWc_row_level imp self isRealData present) evs)
         (Weights.new (List.length evs)))
      (_hist_event_dict self) = inr out ->
    hist_at (mkOutput 0 out) name =
    if in_fields name (map fst (_hist_event_dict self))
    then List.concat (rows_of (eWc_row_level imp self isRealData present) gs evs)
    else [].
Proof.
  intros Hfresh.
  destruct (weights_rows_eWc imp self isRealData s
              (eWc_row_level imp self isRealData present)) as [wf Hwf].
  destruct (loop_calls_rows_eWc imp self isRealData s _ wf name Hwf
              (eWc_selected imp self isRealData present)) as [gsL HL].
  destruct (tail_calls_rows_eWc imp self isRealData s _ wf Hwf
              (eWc_selected imp self isRealData present)) as [gsT HT].
  exists (gsL ++ map snd (filter (fun kg => String.eqb (fst kg) name) gsT)).
  intros evs out Hg Hf. unfold hist_at. cbn [hists].
  pose proof (fill_phase_keys _ _ _ _ Hf) as Hk.
  destruct (dict_get out name) as [e|h] eqn:Hd.
  - apply dict_get_absent in Hd. rewrite Hk in Hd.
    destruct (in_fields name _) eqn:Hin; [|reflexivity].
    exfalso. apply Hd. unfold in_fields in Hin. apply existsb_exists in Hin.
    destruct Hin as [x [Hx Hn]]. apply String.eqb_eq in Hn. subst. assumption.
  - assert (in_fields name (map fst (_hist_event_dict self)) = true) as ->.
    { apply dict_get_present in Hd. destruct Hd as [Hd _]. rewrite Hk in Hd.
      unfold in_fields. apply existsb_exists. exists name. split; [assumption|].
      apply String.eqb_refl. }
    eapply fill_phase_rows; eauto.
Qed.

Lemma map_fst_pair {A B C : Type} (f : A * B -> C) (l : list (A * B)) :
  map fst (map (fun kc => (fst kc, f kc)) l) = map fst l.
Proof. rewrite map_map. apply map_ext. reflexivity. Qed.

Lemma merge_concat_eWc imp self (A B : Batch Lepton Lepton) pA dA outA pB dB outB :
  eventwise imp self A B -> fresh self ->
  EWc.process imp self A = Returned pA dA outA ->
  EWc.process imp self B = Returned pB dB outB ->
  exists out,
    EWc.process imp self (concat_batch A B) = Returned pA dA out /\
    sumw out == sumw (merge outA outB) /\
    forall name,
      eWc_guarded (EWc.prepare imp self A) name = false \/
      Forall (fun n => (2 <= n)%nat) (eWc_njet imp self (concat_batch A B)) ->
      forall bin,
        Hist.sumw (hist_at out name) bin == Hist.sumw (hist_at (merge outA outB) name) bin /\
        Hist.sumw2 (hist_at out name) bin == Hist.sumw2 (hist_at (merge outA outB) name) bin.
Proof.
  intros (SS0 & SS & Hprep & HlA & HlB & HlAB) Hfresh HA HB.
  apply (process_returned_eWc imp self A HlA) in HA.
  apply (process_returned_eWc imp self B HlB) in HB.
  destruct HA as ([ExA RA] & -> & -> & HsA & FA).
  destruct HB as ([ExB RB] & -> & -> & HsB & FB).
  set (bA := EWc.prepare imp self A) in *. set (bB := EWc.prepare imp self B) in *.
  assert (HgwB : has_genWeight B = has_genWeight A) by (destruct SS0 as (_ & H & _); auto).
  rewrite HgwB in *.
  rewrite (with_events_schema bA bB _ SS), (hasattr_schema bA bB _ SS) in FB.
  set (isR := negb (has_genWeight A)) in *.
  set (present := filter (hasattr_HLT bA) EWc.triggers) in *.
  set (p := eWc_row_level imp self isR present) in *.
  (* the concatenation returns *)
  assert (HpAB : EWc.prepare imp self (concat_batch A B) = with_events bA (events bA ++ events bB))
    by (rewrite Hprep; reflexivity).
  assert (Hok : exists o,
    fill_phase
      (EWc.loop_calls imp self isR (with_events bA (events bA ++ events bB))
         (map p (events bA ++ events bB)) (Weights.new (List.length (events bA ++ events bB))))
      (EWc.tail_calls imp self isR (with_events bA (events bA ++ events bB))
         (map p (events bA ++ events bB)) (Weights.new (List.length (events bA ++ events bB))))
      (_hist_event_dict self) = inr o).
  { eapply fill_phase_ok; [exact FA| |].
    - intros name Hn. eapply loop_calls_ok_eWc; [|exact Hn].
      intros Hg. apply guard_app_eWc in Hg. apply Hg.
    - destruct (weights_rows_eWc imp self isR bA p) as [wf Hwf].
      destruct (tail_calls_rows_eWc imp self isR bA p wf Hwf
                  (eWc_selected imp self isR present)) as [gsT HT].
      pose proof (f_equal (map fst) (HT (events bA))) as H1.
      pose proof (f_equal (map fst) (HT (events bA ++ events bB))) as H2.
      rewrite (map_fst_pair (fun kc => Hist.entries (snd kc))) in H1, H2.
      rewrite (map_fst_pair (fun kg => flat_map (snd kg) _)) in H1.
      rewrite (map_fst_pair (fun kg => flat_map (snd kg) _)) in H2.
      congruence. }
  destruct Hok as [o Ho].
  exists (mkOutput (EWc.sumw_of isR (concat_batch bA bB)) o).
  split; [|split].
  - apply (process_returned_eWc imp self (concat_batch A B) HlAB).
    rewrite HpAB. cbn [events with_events has_genWeight concat_batch dataset hists sumw].
    split; [split; [|apply register_app_l; exact RA]|split; [|split; [|split]]]; auto.
  - cbn [sumw merge]. rewrite HsA, HsB. apply sumw_of_concat.
  - intros name Hg bin.
    destruct (hist_rows_eWc imp self isR bA present name Hfresh) as [gs Hgs].
    assert (HgAB : eWc_guarded bA name = false \/
                   forallb (fun i => Nat.ltb 1 i)
                     (EWc.njet imp (with_events bA (events bA ++ events bB))
                               (map p (events bA ++ events bB))) = true).
    { destruct Hg as [Hg|Hg]; [left; exact Hg|right].
      apply guard_true. unfold eWc_njet, eWc_mask in Hg.
      rewrite event_level_rows_eWc, HpAB in Hg. exact Hg. }
    assert (HgA : eWc_guarded bA name = false \/
                  forallb (fun i => Nat.ltb 1 i)
                    (EWc.njet imp (with_events bA (events bA)) (map p (events bA))) = true).
    { destruct HgAB as [H|H]; [left; exact H|right]. apply guard_app_eWc in H. apply H. }
    assert (HgB : eWc_guarded bA name = false \/
                  forallb (fun i => Nat.ltb 1 i)
                    (EWc.njet imp (with_events bA (events bB)) (map p (events bB))) = true).
    { destruct HgAB as [H|H]; [left; exact H|right]. apply guard_app_eWc in H. apply H. }
    pose proof (Hgs _ _ HgAB Ho) as HhAB.
    pose proof (Hgs _ _ HgA FA) as HhA.
    pose proof (Hgs _ _ HgB FB) as HhB.
    unfold hist_at in HhAB, HhA, HhB. cbn [hists] in HhAB, HhA, HhB.
    rewrite hist_at_merge
      by (rewrite (fill_phase_keys _ _ _ _ FA), (fill_phase_keys _ _ _ _ FB); reflexivity).
    unfold hist_at. cbn [hists]. rewrite HhAB, HhA, HhB.
    destruct (in_fields name _).
    + split; [apply hist_sumw_perm | apply hist_sumw2_perm]; apply rows_of_app_perm.
    + split; reflexivity.
Qed.

(** *** The selected columns of ttdilep, row by row *)

Lemma flatten_none_singletons {A B : Type} (col : A -> list (option B)) (l : list A) :
  Forall (fun a => exists b, col a = [Some b]) l ->
  map Some (Ak.flatten_none (map col l)) = map (fun a => Ak.first (col a)) l.
Proof.
  unfold Ak.flatten_none, Ak.drop_none.
  induction l as [|a l IH]; intros H; simpl; auto.
  inversion H as [|? ? [b Hb] Hl]; subst. rewrite Hb. simpl. rewrite IH by assumption.
  reflexivity.
Qed.

Lemma selected_Forall_in {Ev : Type} (p : Ev -> bool) (I P : Ev -> Prop) (evs : list Ev) :
  Forall I evs -> (forall e, I e -> p e = true -> P e) -> Forall P (filter p evs).
Proof.
  intros HI H. apply Forall_forall. intros e He. apply filter_In in He.
  destruct He as [Hin Hp]. rewrite Forall_forall in HI. auto.
Qed.

Lemma weights_rows_tt imp self isRealData (s : TTdilep.SelBatch)
      (p : TTdilep.SelEvent -> bool) :
  exists wf : TTdilep.SelEvent -> Q, forall evs,
    TTdilep.wsel imp self isRealData (with_events s evs) (map p evs)
                 (Weights.new (List.length evs))
    = map wf (filter p evs).
Proof.
  unfold TTdilep.wsel, TTdilep.weights, TTdilep.lep1sf, TTdilep.lep2sf, Weights.weight,
    Weights.add, Weights.new.
  destruct isRealData, (isCorr self); cbn [negb andb Weights._weight events with_events];
    eexists; intros evs; rewrite ones_as_map, ?map2_map_map, select_map, select_filter;
    reflexivity.
Qed.

Section RowsTT.

Variable imp : Imports.
Variable self : NanoProcessor.
Variable isRealData : bool.
Variable s : TTdilep.SelBatch.
Variable p : TTdilep.SelEvent -> bool.
Variable evs : list TTdilep.SelEvent.

Hypothesis Hsel : Forall (tt_selected_event imp) (filter p evs).

Lemma smu_rows_tt :
  TTdilep.smu (with_events s evs) (map p evs) = map Muon (filter p evs).
Proof. unfold TTdilep.smu; cbn [events with_events]. rewrite select_map, select_filter; reflexivity. Qed.

Lemma sel_rows_tt :
  TTdilep.sel (with_events s evs) (map p evs) = map Electron (filter p evs).
Proof. unfold TTdilep.sel; cbn [events with_events]. rewrite select_map, select_filter; reflexivity. Qed.

Lemma sjets_rows_tt :
  TTdilep.sjets imp (with_events s evs) (map p evs) =
  map (fun e => firstn 2 (TTdilep.event_jet imp e)) (filter p evs).
Proof.
  unfold TTdilep.sjets; cbn [events with_events].
  rewrite select_map, select_filter, map_map; reflexivity.
Qed.

Lemma sjets_at_rows_tt i :
  TTdilep.sjets_at imp (with_events s evs) (map p evs) i =
  map (fun e => nth_error (firstn 2 (TTdilep.event_jet imp e)) i) (filter p evs).
Proof. unfold TTdilep.sjets_at. rewrite sjets_rows_tt, map_map. reflexivity. Qed.

Lemma genflavor_rows_tt :
  TTdilep.genflavor imp isRealData (with_events s evs) (map p evs) =
  map (fun e => map (flav_label isRealData) (firstn 2 (TTdilep.event_jet imp e)))
      (filter p evs).
Proof.
  unfold TTdilep.genflavor, flav_label. rewrite sjets_rows_tt.
  destruct isRealData; rewrite map_map; reflexivity.
Qed.

Lemma flav_col_rows_tt i :
  (i < 2)%nat ->
  TTdilep.flav_col imp isRealData (with_events s evs) (map p evs) i =
  map (fun e => nth_error (map (flav_label isRealData)
                               (firstn 2 (TTdilep.event_jet imp e))) i)
      (filter p evs).
Proof.
  intros Hi. unfold TTdilep.flav_col, TTdilep.genflavor_at.
  rewrite genflavor_rows_tt, map_map. apply drop_none_present.
  eapply Forall_impl; [|exact Hsel]. intros e (_ & _ & j0 & j1 & js & ->).
  destruct i as [|[|i]]; [discriminate|discriminate|lia].
Qed.

Lemma discr_col_rows_tt d i :
  (i < 2)%nat ->
  TTdilep.discr_col d (TTdilep.sjets_at imp (with_events s evs) (map p evs) i) =
  map (fun e => option_map (fun j => clip (jet_item d j))
                           (nth_error (firstn 2 (TTdilep.event_jet imp e)) i))
      (filter p evs).
Proof.
  intros Hi. unfold TTdilep.discr_col. rewrite sjets_at_rows_tt, map_map.
  apply drop_none_present.
  eapply Forall_impl; [|exact Hsel]. intros e (_ & _ & j0 & j1 & js & ->).
  destruct i as [|[|i]]; [discriminate|discriminate|lia].
Qed.

Lemma jet_col_rows_tt (f : Jet -> Q) i :
  (i < 2)%nat ->
  map Some (Ak.drop_none
              (map (option_map f) (TTdilep.sjets_at imp (with_events s evs) (map p evs) i))) =
  map (fun e => option_map f (nth_error (firstn 2 (TTdilep.event_jet imp e)) i))
      (filter p evs).
Proof.
  intros Hi. rewrite sjets_at_rows_tt, map_map. apply drop_none_present.
  eapply Forall_impl; [|exact Hsel]. intros e (_ & _ & j0 & j1 & js & ->).
  destruct i as [|[|i]]; [discriminate|discriminate|lia].
Qed.

Lemma mu_col_rows_tt (f : Lepton -> Q) :
  map Some (Ak.flatten_none
              (map (map (option_map f)) (TTdilep.smu (with_events s evs) (map p evs)))) =
  map (fun e => option_map f (Ak.first (Muon e))) (filter p evs).
Proof.
  rewrite smu_rows_tt, map_map.
  rewrite (flatten_none_singletons (fun e => map (option_map f) (Muon e))).
  - apply map_ext_in. intros e He. rewrite Forall_forall in Hsel.
    destruct (Hsel e He) as ([m ->] & _). reflexivity.
  - eapply Forall_impl; [|exact Hsel]. intros e ([m ->] & _). simpl. eauto.
Qed.

Lemma ele_col_rows_tt (f : Lepton -> Q) :
  map Some (Ak.flatten_none
              (map (map (option_map f)) (TTdilep.sel (with_events s evs) (map p evs)))) =
  map (fun e => option_map f (Ak.first (Electron e))) (filter p evs).
Proof.
  rewrite sel_rows_tt, map_map.
  rewrite (flatten_none_singletons (fun e => map (option_map f) (Electron e))).
  - apply map_ext_in. intros e He. rewrite Forall_forall in Hsel.
    destruct (Hsel e He) as (_ & [l ->] & _). reflexivity.
  - eapply Forall_impl; [|exact Hsel]. intros e (_ & [l ->] & _). simpl. eauto.
Qed.

Lemma dr_mujet_rows_tt i :
  (i < 2)%nat ->
  TTdilep.dr_mujet imp (with_events s evs) (map p evs) i =
  map (fun e => Ak.lift2 (fun m j => delta_r imp (lep_p4 m) (jet_p4 j))
                         (Ak.first (Muon e))
                         (nth_error (firstn 2 (TTdilep.event_jet imp e)) i))
      (filter p evs).
Proof.
  intros Hi. unfold TTdilep.dr_mujet.
  rewrite smu_rows_tt, sjets_at_rows_tt, map2_map_map.
  rewrite (flatten_none_singletons
             (fun e => map (fun m => Ak.lift2 (fun m j => delta_r imp (lep_p4 m) (jet_p4 j)) m
                                       (nth_error (firstn 2 (TTdilep.event_jet imp e)) i))
                           (Muon e))).
  - apply map_ext_in. intros e He. rewrite Forall_forall in Hsel.
    destruct (Hsel e He) as ([m ->] & _). reflexivity.
  - eapply Forall_impl; [|exact Hsel]. intros e ([m ->] & _ & j0 & j1 & js & ->).
    destruct i as [|[|i]]; [| |lia]; simpl; eauto.
Qed.

End RowsTT.

(** *** The fills of ttdilep, row by row *)

Lemma disc_rows_tt imp self (s : TTdilep.SelBatch) (p : TTdilep.SelEvent -> bool) d i :
  (i < 2)%nat ->
  (forall evs, dict_get (TTdilep.disc_list imp self (with_events s evs) (map p evs)) d
               = inl (KeyError d)) \/
  exists fs : list (string * (Jet -> Q)), forall evs,
    exists sfs,
      dict_get (TTdilep.disc_list imp self (with_events s evs) (map p evs)) d = inr sfs /\
      dd_get sfs i =
      map (fun kf => (fst kf,
                      map (option_map (snd kf))
                          (TTdilep.sjets_at imp (with_events s evs) (map p evs) i))) fs.
Proof.
  intros Hi. unfold TTdilep.disc_list. cbn [dict_get].
  repeat match goal with
         | |- context [String.eqb ?a d] => destruct (String.eqb a d)
         end;
    try (left; intros; reflexivity);
    right; refine (ex_intro _ [(_, _); (_, _); (_, _)] _);
    intros evs; eexists; (split; [reflexivity|]);
    unfold TTdilep.csvsfs_b, TTdilep.csvsfs_c, TTdilep.jetsfs_b, TTdilep.jetsfs_c;
    (destruct i as [|[|i]]; [| |lia]); cbn [dd_get map fst snd Nat.eqb];
    unfold TTdilep.getSF_col, TTdilep.eval_col; reflexivity.
Qed.

Lemma btag_calls_rows_tt imp self isRealData (s : TTdilep.SelBatch) p wf i name :
  (i < 2)%nat ->
  (forall evs, TTdilep.wsel imp self isRealData (with_events s evs) (map p evs)
                            (Weights.new (List.length evs)) = map wf (filter p evs)) ->
  exists gs, forall evs cs,
    Forall (tt_selected_event imp) (filter p evs) ->
    TTdilep.btag_calls imp self isRealData (with_events s evs) (map p evs)
                       (Weights.new (List.length evs)) i name = inr cs ->
    map Hist.entries cs = rows_of p gs evs.
Proof.
  intros Hi Hwf. unfold TTdilep.btag_calls. cbv zeta.
  destruct (negb isRealData && isCorr self).
  - destruct (disc_rows_tt imp self s p (Str.remove (String.append "_" (TTdilep.str i)) name)
                           i Hi) as [Herr|[fs Hfs]].
    + exists []. intros evs cs _ H. rewrite Herr in H. discriminate.
    + refine (ex_intro _ (_ :: map _ fs) _). intros evs cs Hsel H.
      destruct (Hfs evs) as [sfs [Hd Hdd]]. rewrite Hd in H. cbn [bind] in H.
      injection H as <-. rewrite Hdd. unfold rows_of. cbn [map]. f_equal.
      * unfold Hist.entries.
        cbn [Hist.fc_flav Hist.fc_val Hist.fc_weight Hist.fc_syst].
        rewrite (flav_col_rows_tt imp isRealData s p evs Hsel i Hi),
          (discr_col_rows_tt imp s p evs Hsel _ i Hi), Hwf, map_map.
        rewrite rows3_rows. reflexivity.
      * rewrite !map_map. apply map_ext. intros kf. cbn [fst snd].
        unfold Hist.entries, TTdilep.wsel_sf.
        cbn [Hist.fc_flav Hist.fc_val Hist.fc_weight Hist.fc_syst].
        rewrite (flav_col_rows_tt imp isRealData s p evs Hsel i Hi),
          (discr_col_rows_tt imp s p evs Hsel _ i Hi), Hwf.
        rewrite sjets_at_rows_tt, !map_map, map2_map_map.
        rewrite rows3_rows. reflexivity.
  - refine (ex_intro _ [_] _). intros evs cs Hsel H. injection H as <-.
    unfold rows_of. cbn [map]. f_equal.
    unfold Hist.entries.
    cbn [Hist.fc_flav Hist.fc_val Hist.fc_weight Hist.fc_syst].
    rewrite (flav_col_rows_tt imp isRealData s p evs Hsel i Hi),
      (discr_col_rows_tt imp s p evs Hsel _ i Hi), Hwf, map_map.
    rewrite rows3_rows. reflexivity.
Qed.

Lemma for_jets_rows {Ev : Type} (p : Ev -> bool) name body gs0 gs1 (evs : list Ev) cs :
  (forall c, body 0%nat = inr c -> map Hist.entries c = rows_of p gs0 evs) ->
  (forall c, body 1%nat = inr c -> map Hist.entries c = rows_of p gs1 evs) ->
  TTdilep.for_jets name body = inr cs ->
  map Hist.entries cs =
  rows_of p ((if Str.contains (TTdilep.str 0) name then gs0 else []) ++
             (if Str.contains (TTdilep.str 1) name then gs1 else [])) evs.
Proof.
  intros H0 H1. unfold TTdilep.for_jets.
  destruct (Str.contains (TTdilep.str 0) name), (Str.contains (TTdilep.str 1) name);
    [destruct (body 0%nat) as [e|c0]; [discriminate|];
     destruct (body 1%nat) as [e|c1]; [discriminate|]
    |destruct (body 0%nat) as [e|c0]; [discriminate|]
    |destruct (body 1%nat) as [e|c1]; [discriminate|]
    |];
    cbn [bind]; intros H; injection H as <-; unfold rows_of in *;
    rewrite ?map_app, ?app_nil_r; cbn [app map];
    rewrite ?(H0 _ eq_refl), ?(H1 _ eq_refl); reflexivity.
Qed.

Ltac enter_loop_tt H :=
  unfold TTdilep.loop_calls in H; cbn [Electron_fields Muon_fields with_events] in H;
  repeat match goal with
         | Hc : ?c = true |- _ => rewrite Hc in H
         | Hc : ?c = false |- _ => rewrite Hc in H
         end;
  cbn [andb negb] in H.

Lemma loop_calls_rows_tt imp self isRealData (s : TTdilep.SelBatch) p wf name :
  (forall evs, TTdilep.wsel imp self isRealData (with_events s evs) (map p evs)
                            (Weights.new (List.length evs)) = map wf (filter p evs)) ->
  exists gs, forall evs cs,
    Forall (tt_selected_event imp) (filter p evs) ->
    TTdilep.loop_calls imp self isRealData (with_events s evs) (map p evs)
                       (Weights.new (List.length evs)) name = inr cs ->
    map Hist.entries cs = rows_of p gs evs.
Proof.
  intros Hwf.
  destruct (btag_calls_rows_tt imp self isRealData s p wf 0 name (Nat.lt_0_2) Hwf)
    as [gb0 Hgb0].
  destruct (btag_calls_rows_tt imp self isRealData s p wf 1 name (Nat.lt_1_2) Hwf)
    as [gb1 Hgb1].
  destruct (Str.contains "Deep" name && negb (Str.contains "btag" name)) eqn:C1.
  { refine (ex_intro _ [_] _). intros evs cs Hsel H. enter_loop_tt H. one_call H.
    rewrite genflavor_rows_tt, sjets_rows_tt, Hwf, !map_map.
    rewrite <- broadcast_map, map_map.
    rewrite (rows3_jagged None (fun e => firstn 2 (TTdilep.event_jet imp e))).
    reflexivity. }
  destruct (Str.contains "btagDeep" name) eqn:C2.
  { eexists. intros evs cs Hsel H. enter_loop_tt H.
    eapply for_jets_rows; [| |exact H]; intros c Hc; [eapply Hgb0|eapply Hgb1]; eauto. }
  destruct (Str.contains "mu_" name &&
            in_fields (Str.remove "mu_" name) (Muon_fields s)) eqn:C3.
  { refine (ex_intro _ [_] _). intros evs cs Hsel H. enter_loop_tt H. one_call H.
    rewrite (mu_col_rows_tt imp s p evs Hsel), Hwf, map_map.
    rewrite rows2_rows. reflexivity. }
  destruct (Str.contains "ele_" name &&
            in_fields (Str.remove "ele_" name) (Electron_fields s)) eqn:C4.
  { refine (ex_intro _ [_] _). intros evs cs Hsel H. enter_loop_tt H. one_call H.
    rewrite (ele_col_rows_tt imp s p evs Hsel), Hwf, map_map.
    rewrite rows2_rows. reflexivity. }
  destruct (Str.contains "jet" name && negb (Str.contains "dr" name) &&
            negb (String.eqb "njet" name)) eqn:C5.
  { eexists. intros evs cs Hsel H. enter_loop_tt H.
    eapply for_jets_rows with (gs0 := [_]) (gs1 := [_]); [| |exact H];
      intros c Hc; one_call Hc.
    - rewrite (flav_col_rows_tt imp isRealData s p evs Hsel 0 Nat.lt_0_2),
        (jet_col_rows_tt imp s p evs Hsel _ 0 Nat.lt_0_2), Hwf, map_map.
      rewrite rows3_rows. reflexivity.
    - rewrite (flav_col_rows_tt imp isRealData s p evs Hsel 1 Nat.lt_1_2),
        (jet_col_rows_tt imp s p evs Hsel _ 1 Nat.lt_1_2), Hwf, map_map.
      rewrite rows3_rows. reflexivity. }
  exists []. intros evs cs _ H. enter_loop_tt H. injection H as <-. reflexivity.
Qed.

Lemma tail_calls_rows_tt imp self isRealData (s : TTdilep.SelBatch) p wf :
  (forall evs, TTdilep.wsel imp self isRealData (with_events s evs) (map p evs)
                            (Weights.new (List.length evs)) = map wf (filter p evs)) ->
  exists gs : list (string * (TTdilep.SelEvent -> list Hist.Entry)), forall evs,
    Forall (tt_selected_event imp) (filter p evs) ->
    map (fun kc => (fst kc, Hist.entries (snd kc)))
        (TTdilep.tail_calls imp self isRealData (with_events s evs) (map p evs)
                            (Weights.new (List.length evs)))
    = map (fun kg => (fst kg, flat_map (snd kg) (filter p evs))) gs.
Proof.
  intros Hwf.
  refine (ex_intro _ [(_, _); (_, _); (_, _)] _).
  intros evs Hsel. unfold TTdilep.tail_calls. cbn [map fst snd app].
  unfold Hist.entries. cbn [Hist.fc_flav Hist.fc_val Hist.fc_weight Hist.fc_syst].
  rewrite (flav_col_rows_tt imp isRealData s p evs Hsel 0 Nat.lt_0_2),
    (flav_col_rows_tt imp isRealData s p evs Hsel 1 Nat.lt_1_2),
    (dr_mujet_rows_tt imp s p evs Hsel 0 Nat.lt_0_2),
    (dr_mujet_rows_tt imp s p evs Hsel 1 Nat.lt_1_2), sjets_rows_tt, Hwf.
  rewrite !map_map. rewrite !rows2_rows, !rows3_rows. reflexivity.
Qed.

Lemma btag_calls_ok_tt imp self isRealData (s : TTdilep.SelBatch) p i name evs cs evs' :
  (i < 2)%nat ->
  TTdilep.btag_calls imp self isRealData (with_events s evs) (map p evs)
                     (Weights.new (List.length evs)) i name = inr cs ->
  exists cs',
    TTdilep.btag_calls imp self isRealData (with_events s evs') (map p evs')
                       (Weights.new (List.length evs')) i name = inr cs'.
Proof.
  intros Hi. unfold TTdilep.btag_calls. cbv zeta.
  destruct (negb isRealData && isCorr self); [|eauto].
  destruct (disc_rows_tt imp self s p (Str.remove (String.append "_" (TTdilep.str i)) name)
                         i Hi) as [Herr|[fs Hfs]].
  - rewrite Herr. discriminate.
  - intros _. destruct (Hfs evs') as [sfs [-> _]]. simpl. eauto.
Qed.

Lemma for_jets_ok name body body' :
  (forall i, (i < 2)%nat -> (exists c, body i = inr c) -> exists c', body' i = inr c') ->
  (exists cs, TTdilep.for_jets name body = inr cs) ->
  exists cs', TTdilep.for_jets name body' = inr cs'.
Proof.
  intros Hb [cs H]. unfold TTdilep.for_jets in *.
  destruct (Str.contains (TTdilep.str 0) name), (Str.contains (TTdilep.str 1) name);
    repeat match type of H with
           | context [body ?i] =>
               let c := fresh "c" in
               let E := fresh "E" in
               destruct (body i) as [?|c] eqn:E; [discriminate|];
               destruct (Hb i ltac:(lia) (ex_intro _ c E)) as [? ->]
           end; cbn [bind]; eauto.
Qed.

Lemma loop_calls_ok_tt imp self isRealData (s : TTdilep.SelBatch) p name evs evs' :
  (exists cs, TTdilep.loop_calls imp self isRealData (with_events s evs) (map p evs)
                                 (Weights.new (List.length evs)) name = inr cs) ->
  exists cs', TTdilep.loop_calls imp self isRealData (with_events s evs') (map p evs')
                                 (Weights.new (List.length evs')) name = inr cs'.
Proof.
  intros H. unfold TTdilep.loop_calls in *.
  cbn [Electron_fields Muon_fields with_events] in *.
  repeat match goal with
         | |- context [if ?c then _ else _] => destruct c
         end; eauto;
    (eapply for_jets_ok; [|exact H]); intros i Hi [c Hc]; eauto.
  eapply btag_calls_ok_tt; eauto.
Qed.

Lemma object_selection_concat imp (a b : Batch Lepton Lepton) :
  TTdilep.object_selection imp (concat_batch a b) =
  with_events (TTdilep.object_selection imp a)
              (events (TTdilep.object_selection imp a) ++
               events (TTdilep.object_selection imp b)).
Proof.
  unfold TTdilep.object_selection, TTdilep.electron_cuts, TTdilep.muon_cuts,
    TTdilep.set_Electron, TTdilep.set_Muon, concat_batch, with_events.
  cbn [events dataset has_genWeight HLT_fields Electron_fields Muon_fields].
  rewrite !map_app. reflexivity.
Qed.

Lemma object_selection_schema imp (a b : Batch Lepton Lepton) :
  same_schema a b ->
  same_schema (TTdilep.object_selection imp a) (TTdilep.object_selection imp b).
Proof.
  intros (H1 & H2 & H3 & H4 & H5).
  unfold TTdilep.object_selection, TTdilep.electron_cuts, TTdilep.muon_cuts,
    TTdilep.set_Electron, TTdilep.set_Muon, same_schema.
  cbn [dataset has_genWeight HLT_fields Electron_fields Muon_fields]. auto.
Qed.

Lemma process_returned_tt imp self (X : Batch Lepton Lepton) :
  len (missing_branch imp X) = len (TTdilep.prepare imp self X) ->
  forall printed ds out,
    TTdilep.process imp self X = Returned printed ds out <->
    (Exists (fun t => hasattr_HLT (TTdilep.prepare imp self X) t = true) TTdilep.triggers /\
     register_genweight (negb (has_genWeight X)) (TTdilep.object_selection imp (TTdilep.prepare imp self X)) = inr tt) /\
    printed = hlt_diagnostic (TTdilep.prepare imp self X) TTdilep.triggers /\
    ds = dataset X /\
    sumw out = TTdilep.sumw_of (negb (has_genWeight X)) (TTdilep.prepare imp self X) /\
    fill_phase
      (TTdilep.loop_calls imp self (negb (has_genWeight X))
         (with_events (TTdilep.object_selection imp (TTdilep.prepare imp self X))
                      (events (TTdilep.object_selection imp (TTdilep.prepare imp self X))))
         (map (tt_row_level imp self (negb (has_genWeight X))
                 (filter (hasattr_HLT (TTdilep.object_selection imp
                                         (TTdilep.prepare imp self X))) TTdilep.triggers))
              (events (TTdilep.object_selection imp (TTdilep.prepare imp self X))))
         (Weights.new (List.length
                         (events (TTdilep.object_selection imp
                                    (TTdilep.prepare imp self X))))))
      (TTdilep.tail_calls imp self (negb (has_genWeight X))
         (with_events (TTdilep.object_selection imp (TTdilep.prepare imp self X))
                      (events (TTdilep.object_selection imp (TTdilep.prepare imp self X))))
         (map (tt_row_level imp self (negb (has_genWeight X))
                 (filter (hasattr_HLT (TTdilep.object_selection imp
                                         (TTdilep.prepare imp self X))) TTdilep.triggers))
              (events (TTdilep.object_selection imp (TTdilep.prepare imp self X))))
         (Weights.new (List.length
                         (events (TTdilep.object_selection imp
                                    (TTdilep.prepare imp self X))))))
      (_hist_event_dict self) = inr (hists out).
Proof.
  intros Hlen printed ds out.
  rewrite with_events_self.
  rewrite <- event_level_rows_tt by apply padded_object_selection.
  destruct (req_trig_object_selection imp (TTdilep.prepare imp self X) TTdilep.triggers)
    as [<- _].
  change (List.length (events (TTdilep.object_selection imp (TTdilep.prepare imp self X))))
    with (len (TTdilep.object_selection imp (TTdilep.prepare imp self X))).
  rewrite len_object_selection.
  unfold TTdilep.process. rewrite Hlen. unfold TTdilep.prepare.
  set (b := if isJERC self then _ else _).
  unfold TTdilep.loop, fill_phase.
  destruct (hlt_block_cases (dataset X) b TTdilep.triggers) as [[Hall ->]|[Hex ->]].
  - split; [discriminate|]. intros [[Hex _] _]. exfalso.
    apply Exists_exists in Hex. destruct Hex as [t [Ht Hp]].
    rewrite Forall_forall in Hall. rewrite (Hall t Ht) in Hp. discriminate.
  - match goal with
    | |- context [register_genweight ?r ?x] =>
        destruct (register_cases r x) as [[Hr _]|[Hr _]]; rewrite Hr; cbn [bind]
    end.
    + match goal with
      | |- context [bind ?m ?k] => destruct (bind m k) as [e|o]
      end.
      * split; [discriminate|]. intros (_ & _ & _ & _ & H). discriminate.
      * split.
        -- intros H. injection H as <- <- <-. simpl. auto.
        -- intros (_ & -> & -> & Hs & Ho). destruct out as [sw hs]. simpl in *.
           injection Ho as ->. subst. reflexivity.
    + split; [discriminate|]. intros [[_ H] _]. discriminate.
Qed.

Lemma hist_rows_tt imp self isRealData (s : TTdilep.SelBatch) present name :
  fresh self ->
  exists gs, forall evs out,
    Forall padded evs ->
    fill_phase
      (TTdilep.loop_calls imp self isRealData (with_events s evs)
         (map (tt_row_level imp self isRealData present) evs)
         (Weights.new (List.length evs)))
      (TTdilep.tail_calls imp self isRealData (with_events s evs)
         (map (tt_row_level imp self isRealData present) evs)
         (Weights.new (List.length evs)))
      (_hist_event_dict self) = inr out ->
    hist_at (mkOutput 0 out) name =
    if in_fields name (map fst (_hist_event_dict self))
    then List.concat (rows_of (tt_row_level imp self isRealData present) gs evs)
    else [].
Proof.
  intros Hfresh.
  destruct (weights_rows_tt imp self isRealData s
              (tt_row_level imp self isRealData present)) as [wf Hwf].
  destruct (loop_calls_rows_tt imp self isRealData s _ wf name Hwf) as [gsL HL].
  destruct (tail_calls_rows_tt imp self isRealData s _ wf Hwf) as [gsT HT].
  exists (gsL ++ map snd (filter (fun kg => String.eqb (fst kg) name) gsT)).
  intros evs out Hpad Hf. unfold hist_at. cbn [hists].
  assert (Hsel : Forall (tt_selected_event imp)
                        (filter (tt_row_level imp self isRealData present) evs)).
  { eapply selected_Forall_in; [exact Hpad|]. intros e He Hp.
    eapply tt_selected; eauto. }
  pose proof (fill_phase_keys _ _ _ _ Hf) as Hk.
  destruct (dict_get out name) as [e|h] eqn:Hd.
  - apply dict_get_absent in Hd. rewrite Hk in Hd.
    destruct (in_fields name _) eqn:Hin; [|reflexivity].
    exfalso. apply Hd. unfold in_fields in Hin. apply existsb_exists in Hin.
    destruct Hin as [x [Hx Hn]]. apply String.eqb_eq in Hn. subst. assumption.
  - assert (in_fields name (map fst (_hist_event_dict self)) = true) as ->.
    { apply dict_get_present in Hd. destruct Hd as [Hd _]. rewrite Hk in Hd.
      unfold in_fields. apply existsb_exists. exists name. split; [assumption|].
      apply String.eqb_refl. }
    eapply fill_phase_rows; eauto.
Qed.

Lemma merge_concat_tt imp self (A B : Batch Lepton Lepton) pA dA outA pB dB outB :
  eventwise imp self A B -> fresh self ->
  TTdilep.process imp self A = Returned pA dA outA ->
  TTdilep.process imp self B = Returned pB dB outB ->
  exists out,
    TTdilep.process imp self (concat_batch A B) = Returned pA dA out /\
    sumw out == sumw (merge outA outB) /\
    forall name bin,
      Hist.sumw (hist_at out name) bin == Hist.sumw (hist_at (merge outA outB) name) bin /\
      Hist.sumw2 (hist_at out name) bin == Hist.sumw2 (hist_at (merge outA outB) name) bin.
Proof.
  intros (SS0 & SS & Hprep & HlA & HlB & HlAB) Hfresh HA HB.
  change (EWc.prepare imp self) with (TTdilep.prepare imp self) in *.
  apply (process_returned_tt imp self A HlA) in HA.
  apply (process_returned_tt imp self B HlB) in HB.
  destruct HA as ([ExA RA] & -> & -> & HsA & FA).
  destruct HB as ([ExB RB] & -> & -> & HsB & FB).
  set (bA := TTdilep.prepare imp self A) in *. set (bB := TTdilep.prepare imp self B) in *.
  set (sA := TTdilep.object_selection imp bA) in *.
  set (sB := TTdilep.object_selection imp bB) in *.
  assert (HgwB : has_genWeight B = has_genWeight A) by (destruct SS0 as (_ & H & _); auto).
  rewrite HgwB in *.
  pose proof (object_selection_schema imp bA bB SS) as SSs. fold sA sB in SSs.
  rewrite (with_events_schema sA sB _ SSs), (hasattr_schema sA sB _ SSs) in FB.
  set (isR := negb (has_genWeight A)) in *.
  set (present := filter (hasattr_HLT sA) TTdilep.triggers) in *.
  set (p := tt_row_level imp self isR present) in *.
  assert (HpAB : TTdilep.prepare imp self (concat_batch A B) = concat_batch bA bB)
    by exact Hprep.
  assert (HsAB : TTdilep.object_selection imp (concat_batch bA bB) =
                 with_events sA (events sA ++ events sB))
    by apply object_selection_concat.
  assert (Hok : exists o,
    fill_phase
      (TTdilep.loop_calls imp self isR (with_events sA (events sA ++ events sB))
         (map p (events sA ++ events sB)) (Weights.new (List.length (events sA ++ events sB))))
      (TTdilep.tail_calls imp self isR (with_events sA (events sA ++ events sB))
         (map p (events sA ++ events sB)) (Weights.new (List.length (events sA ++ events sB))))
      (_hist_event_dict self) = inr o).
  { eapply fill_phase_ok; [exact FA| |].
    - intros name Hn. eapply loop_calls_ok_tt. exact Hn.
    - unfold TTdilep.tail_calls. rewrite !map_app, !map_map. reflexivity. }
  destruct Hok as [o Ho].
  exists (mkOutput (TTdilep.sumw_of isR (concat_batch bA bB)) o).
  split; [|split].
  - apply (process_returned_tt imp self (concat_batch A B) HlAB).
    rewrite HpAB, HsAB.
    cbn [events with_events has_genWeight concat_batch dataset hists sumw].
    split; [split; [|apply register_app_l; exact RA]|split; [|split; [|split]]]; auto.
  - cbn [sumw merge]. rewrite HsA, HsB. apply sumw_of_concat.
  - intros name bin.
    destruct (hist_rows_tt imp self isR sA present name Hfresh) as [gs Hgs].
    assert (HpadA : Forall padded (events sA)) by apply padded_object_selection.
    assert (HpadB : Forall padded (events sB)) by apply padded_object_selection.
    assert (HpadAB : Forall padded (events sA ++ events sB))
      by (apply Forall_app; split; assumption).
    pose proof (Hgs _ _ HpadAB Ho) as HhAB.
    pose proof (Hgs _ _ HpadA FA) as HhA.
    pose proof (Hgs _ _ HpadB FB) as HhB.
    unfold hist_at in HhAB, HhA, HhB. cbn [hists] in HhAB, HhA, HhB.
    rewrite hist_at_merge
      by (rewrite (fill_phase_keys _ _ _ _ FA), (fill_phase_keys _ _ _ _ FB); reflexivity).
    unfold hist_at. cbn [hists]. rewrite HhAB, HhA, HhB.
    destruct (in_fields name _).
    + split; [apply hist_sumw_perm | apply hist_sumw2_perm]; apply rows_of_app_perm.
    + split; reflexivity.
Qed.

Lemma merge_order_independent o1 o2 :
  map fst (hists o1) = map fst (hists o2) -> order_independent o1 o2.
Proof.
  intros Hk. split.
  - cbn [merge sumw]. ring.
  - intros name bin. rewrite !hist_at_merge by congruence.
    split; [apply hist_sumw_perm | apply hist_sumw2_perm]; apply Permutation_app_comm.
Qed.

Lemma process_keys_eWc imp self X printed ds out :
  len (missing_branch imp X) = len (EWc.prepare imp self X) ->
  EWc.process imp self X = Returned printed ds out ->
  map fst (hists out) = map fst (_hist_event_dict self).
Proof.
  intros Hl H. apply (process_returned_eWc imp self X Hl) in H.
  destruct H as (_ & _ & _ & _ & H). eapply fill_phase_keys; eauto.
Qed.

Lemma process_keys_tt imp self X printed ds out :
  len (missing_branch imp X) = len (TTdilep.prepare imp self X) ->
  TTdilep.process imp self X = Returned printed ds out ->
  map fst (hists out) = map fst (_hist_event_dict self).
Proof.
  intros Hl H. apply (process_returned_tt imp self X Hl) in H.
  destruct H as (_ & _ & _ & _ & H). eapply fill_phase_keys; eauto.
Qed.

(** C3 - let A and B be two batches of one dataset and schema, processed by a
    processor whose histograms are empty when [process] is called, the repair
    and jet-correction collaborators acting event by event.  If processing A
    and processing B return, then processing the concatenation A+B returns,
    and its output agrees with the merge (addition) of the two outputs: the
    same [sumw], and in every bin the same sum of weights and of squared
    weights - for every histogram of the ttdilep workflow, and for every
    histogram of the eWc workflow that does not reach the guarded
    subleading-jet branch, or when every selected event of A+B has at least
    two jets.  The merge does not depend on the order of the two outputs. *)
Theorem merge_concatenation imp self (A B : Batch Lepton Lepton) pA dA outA pB dB outB :
  eventwise imp self A B -> fresh self ->
  (EWc.process imp self A = Returned pA dA outA ->
   EWc.process imp self B = Returned pB dB outB ->
   (exists out,
      EWc.process imp self (concat_batch A B) = Returned pA dA out /\
      sumw out == sumw (merge outA outB) /\
      forall name,
        eWc_guarded (EWc.prepare imp self A) name = false \/
        Forall (fun n => (2 <= n)%nat) (eWc_njet imp self (concat_batch A B)) ->
        same_bins_at name out (merge outA outB)) /\
   order_independent outA outB) /\
  (TTdilep.process imp self A = Returned pA dA outA ->
   TTdilep.process imp self B = Returned pB dB outB ->
   (exists out,
      TTdilep.process imp self (concat_batch A B) = Returned pA dA out /\
      sumw out == sumw (merge outA outB) /\
      forall name, same_bins_at name out (merge outA outB)) /\
   order_independent outA outB).
Proof.
  intros Hev Hfresh. split.
  - intros HA HB. split.
    + destruct (merge_concat_eWc imp self A B _ _ _ _ _ _ Hev Hfresh HA HB)
        as (out & H1 & H2 & H3).
      exists out. split; [exact H1|]. split; [exact H2|].
      intros name Hg bin. apply H3. exact Hg.
    + destruct Hev as (_ & _ & _ & HlA & HlB & _). apply merge_order_independent.
      rewrite (process_keys_eWc _ _ _ _ _ _ HlA HA), (process_keys_eWc _ _ _ _ _ _ HlB HB).
      reflexivity.
  - intros HA HB. split.
    + destruct (merge_concat_tt imp self A B _ _ _ _ _ _ Hev Hfresh HA HB)
        as (out & H1 & H2 & H3).
      exists out. split; [exact H1|]. split; [exact H2|].
      intros name bin. apply H3.
    + destruct Hev as (_ & _ & _ & HlA & HlB & _). apply merge_order_independent.
      rewrite (process_keys_tt _ _ _ _ _ _ HlA HA), (process_keys_tt _ _ _ _ _ _ HlB HB).
      reflexivity.
Qed.

(** On [Ex.tt_one] and [Ex.tt_two], each with an event that the ttdilep
    workflow selects, and on the two halves of [Ex.twojets], each with an
    event of two jets that the eWc workflow selects. *)
Lemma merge_concatenation_witness :
  (Ex.hist_of (TTdilep.process Ex.imp (Ex.processor true Ex.tt_names) Ex.tt_one) "njet" =
     [Hist.mkEntry None None 2 12] /\
   Ex.hist_of (TTdilep.process Ex.imp (Ex.processor true Ex.tt_names) Ex.tt_two) "njet" =
     [Hist.mkEntry None None 2 18] /\
   exists out,
     TTdilep.process Ex.imp (Ex.processor true Ex.tt_names)
                     (concat_batch Ex.tt_one Ex.tt_two) = Returned [] "ds" out /\
     sumw out ==
     sumw (merge (Ex.output_of (TTdilep.process Ex.imp (Ex.processor true Ex.tt_names)
                                                Ex.tt_one))
                 (Ex.output_of (TTdilep.process Ex.imp (Ex.processor true Ex.tt_names)
                                                Ex.tt_two))) /\
     forall name,
       same_bins_at name out
         (merge (Ex.output_of (TTdilep.process Ex.imp (Ex.processor true Ex.tt_names)
                                               Ex.tt_one))
                (Ex.output_of (TTdilep.process Ex.imp (Ex.processor true Ex.tt_names)
                                               Ex.tt_two)))) /\
  (Hist.sumw
     (hist_at (Ex.output_of (EWc.process Ex.imp (Ex.processor true Ex.eWc_names)
                                         Ex.half_two))
              "btagDeepB_1") Ex.bin_noSF_light == 12 /\
   exists out,
     EWc.process Ex.imp (Ex.processor true Ex.eWc_names)
                 (concat_batch Ex.half_two Ex.half_swapped) = Returned [] "ds" out /\
     same_bins_at "btagDeepB_1" out
       (merge (Ex.output_of (EWc.process Ex.imp (Ex.processor true Ex.eWc_names)
                                         Ex.half_two))
              (Ex.output_of (EWc.process Ex.imp (Ex.processor true Ex.eWc_names)
                                         Ex.half_swapped)))).
Proof.
  split.
  - split; [vm_compute; reflexivity|]. split; [vm_compute; reflexivity|].
    destruct (merge_concatenation Ex.imp (Ex.processor true Ex.tt_names)
                Ex.tt_one Ex.tt_two [] "ds"
                (Ex.output_of (TTdilep.process Ex.imp (Ex.processor true Ex.tt_names)
                                               Ex.tt_one))
                [] "ds"
                (Ex.output_of (TTdilep.process Ex.imp (Ex.processor true Ex.tt_names)
                                               Ex.tt_two)))
      as [_ H].
    + repeat split; reflexivity.
    + unfold fresh. simpl. repeat constructor.
    + destruct H as [H _].
      * vm_compute. reflexivity.
      * vm_compute. reflexivity.
      * exact H.
  - split; [vm_compute; reflexivity|].
    destruct (merge_concatenation Ex.imp (Ex.processor true Ex.eWc_names)
                Ex.half_two Ex.half_swapped [] "ds"
                (Ex.output_of (EWc.process Ex.imp (Ex.processor true Ex.eWc_names)
                                           Ex.half_two))
                [] "ds"
                (Ex.output_of (EWc.process Ex.imp (Ex.processor true Ex.eWc_names)
                                           Ex.half_swapped)))
      as [H _].
    + repeat split; reflexivity.
    + unfold fresh. simpl. repeat constructor.
    + destruct H as [(out & H1 & _ & H3) _].
      * vm_compute. reflexivity.
      * vm_compute. reflexivity.
      * exists out. split; [exact H1|]. apply H3. right.
        vm_compute. repeat constructor.
Defined.

(** C3 as stated fails on the eWc workflow.  Both events of [Ex.mixed] pass
    the whole selection of the workflow: one isolated electron and one soft
    muon of opposite charge, a jet next to the soft muon, and missing energy
    back to back with the electron, so that the mass of the two is 64.6, above
    the cut at 55.  The first half of the batch has one event with two jets,
    the second half one event with a single jet.  Processed alone, the first
    half fills the histogram [btagDeepB_1] (weight 12 in the light-flavour
    ["noSF"] bin); processed as one batch (the call returns, with
    [sumw = 5]), the guard leaves the histogram empty. *)
Lemma merge_concatenation_counterexample :
  concat_batch Ex.half_two Ex.half_one = Ex.mixed /\
  EWc.event_level Ex.imp (Ex.processor true Ex.eWc_names) false Ex.half_two
                  (req_trig Ex.half_two EWc.triggers) = [true] /\
  EWc.event_level Ex.imp (Ex.processor true Ex.eWc_names) false Ex.half_one
                  (req_trig Ex.half_one EWc.triggers) = [true] /\
  EWc.event_level Ex.imp (Ex.processor true Ex.eWc_names) false Ex.mixed
                  (req_trig Ex.mixed EWc.triggers) = [true; true] /\
  Hist.sumw
    (hist_at (merge (Ex.output_of (EWc.process Ex.imp (Ex.processor true Ex.eWc_names)
                                               Ex.half_two))
                    (Ex.output_of (EWc.process Ex.imp (Ex.processor true Ex.eWc_names)
                                               Ex.half_one)))
             "btagDeepB_1") Ex.bin_noSF_light == 12 /\
  Hist.sumw
    (hist_at (Ex.output_of (EWc.process Ex.imp (Ex.processor true Ex.eWc_names) Ex.mixed))
             "btagDeepB_1") Ex.bin_noSF_light == 0 /\
  sumw (Ex.output_of (EWc.process Ex.imp (Ex.processor true Ex.eWc_names) Ex.mixed)) == 5.
Proof. split; [reflexivity|]. repeat split; vm_compute; reflexivity. Qed.

(* ================================================================== *)
(** * Further properties of the two workflows *)

(** ** Histograms stored in the processor *)

Lemma fill_phase_get LC TC hs out :
  fill_phase LC TC hs = inr out ->
  forall name h0, dict_get hs name = inr h0 ->
    exists cs, LC name = inr cs /\
      dict_get out name =
      inr (h0 ++ List.concat (map Hist.entries cs) ++
           tail_entries name (map (fun kc => (fst kc, Hist.entries (snd kc))) TC)).
Proof.
  intros Hf name h0 H0. unfold fill_phase in Hf.
  match type of Hf with
  | context [mapM ?f hs] => destruct (mapM f hs) as [e|o1] eqn:Hl
  end; simpl in Hf; [discriminate|].
  destruct (loop_get _ _ _ Hl) as [Hk Hget].
  destruct (fill_all_get _ _ _ Hf) as [Hk' Hget'].
  destruct (Hget name h0 H0) as [cs [Hcs Hd1]].
  exists cs. split; [assumption|].
  rewrite Hget', Hd1, <- app_assoc. reflexivity.
Qed.

Lemma dict_get_reset (hs : list (string * Hist.t)) name :
  dict_get (map (fun nh => (fst nh, @nil Hist.Entry)) hs) name =
  match dict_get hs name with
  | inr _ => inr []
  | inl e => inl e
  end.
Proof.
  induction hs as [|[k h] hs IH]; simpl; [reflexivity|].
  destruct (String.eqb k name); [reflexivity | exact IH].
Qed.

Lemma fill_phase_reset LC TC hs out :
  fill_phase LC TC hs = inr out ->
  exists out0,
    fill_phase LC TC (map (fun nh => (fst nh, @nil Hist.Entry)) hs) = inr out0 /\
    forall name h0, dict_get hs name = inr h0 ->
      exists added,
        dict_get out name = inr (h0 ++ added) /\ dict_get out0 name = inr added.
Proof.
  intros Hf.
  assert (Hex : exists out0,
             fill_phase LC TC (map (fun nh => (fst nh, @nil Hist.Entry)) hs) = inr out0).
  { unfold fill_phase in *.
    match type of Hf with
    | context [mapM ?f hs] => destruct (mapM f hs) as [e|o1] eqn:Hl
    end; simpl in Hf; [discriminate|].
    destruct (loop_ok LC (map (fun nh => (fst nh, @nil Hist.Entry)) hs)) as [o1' Hl'].
    { intros nh Hin. apply in_map_iff in Hin. destruct Hin as [nh0 [<- Hin]].
      apply (loop_ok_inv _ _ _ Hl nh0 Hin). }
    rewrite Hl'. simpl.
    destruct (loop_get _ _ _ Hl) as [Hk _]. destruct (loop_get _ _ _ Hl') as [Hk' _].
    assert (Hall : Forall (fun kc => In (fst kc) (map fst o1)) TC)
      by (apply fill_all_ok; eauto).
    apply fill_all_ok.
    rewrite Hk', (map_fst_pair (fun _ => @nil Hist.Entry)), <- Hk. exact Hall. }
  destruct Hex as [out0 H0].
  exists out0. split; [exact H0|]. intros name h0 Hd.
  destruct (fill_phase_get _ _ _ _ Hf name h0 Hd) as [cs [Hcs Ho]].
  assert (Hd0 : dict_get (map (fun nh => (fst nh, @nil Hist.Entry)) hs) name = inr [])
    by (rewrite dict_get_reset, Hd; reflexivity).
  destruct (fill_phase_get _ _ _ _ H0 name [] Hd0) as [cs' [Hcs' Ho']].
  rewrite Hcs in Hcs'. injection Hcs' as <-.
  eexists. split; [exact Ho | exact Ho'].
Qed.

Lemma process_phase_eWc imp self (X : Batch Lepton Lepton) printed ds out :
  EWc.process imp self X = Returned printed ds out <->
  (Exists (fun t => hasattr_HLT (EWc.prepare imp self X) t = true) EWc.triggers /\
   register_genweight (negb (has_genWeight X)) (EWc.prepare imp self X) = inr tt) /\
  printed = hlt_diagnostic (EWc.prepare imp self X) EWc.triggers /\
  ds = dataset X /\
  sumw out = EWc.sumw_of (negb (has_genWeight X)) (EWc.prepare imp self X) /\
  fill_phase
    (EWc.loop_calls imp self (negb (has_genWeight X)) (EWc.prepare imp self X)
       (eWc_mask imp self X) (Weights.new (len (missing_branch imp X))))
    (EWc.tail_calls imp self (negb (has_genWeight X)) (EWc.prepare imp self X)
       (eWc_mask imp self X) (Weights.new (len (missing_branch imp X))))
    (_hist_event_dict self) = inr (hists out).
Proof.
  unfold eWc_mask, EWc.process, EWc.prepare.
  set (b := if isJERC self then _ else _).
  unfold EWc.loop, fill_phase.
  destruct (hlt_block_cases (dataset X) b EWc.triggers) as [[Hall ->]|[Hex ->]].
  - split; [discriminate|]. intros [[Hex _] _]. exfalso.
    apply Exists_exists in Hex. destruct Hex as [t [Ht Hp]].
    rewrite Forall_forall in Hall. rewrite (Hall t Ht) in Hp. discriminate.
  - match goal with
    | |- context [register_genweight ?r ?x] =>
        destruct (register_cases r x) as [[Hr _]|[Hr _]]; rewrite Hr; cbn [bind]
    end.
    + match goal with
      | |- context [bind ?m ?k] => destruct (bind m k) as [e|o]
      end.
      * split; [discriminate|]. intros (_ & _ & _ & _ & H). discriminate.
      * split.
        -- intros H. injection H as <- <- <-. simpl. auto.
        -- intros (_ & -> & -> & Hs & Ho). destruct out as [sw hs]. simpl in *.
           injection Ho as ->. subst. reflexivity.
    + split; [discriminate|]. intros [[_ H] _]. discriminate.
Qed.

Lemma process_phase_tt imp self (X : Batch Lepton Lepton) printed ds out :
  TTdilep.process imp self X = Returned printed ds out <->
  (Exists (fun t => hasattr_HLT (TTdilep.prepare imp self X) t = true) TTdilep.triggers /\
   register_genweight (negb (has_genWeight X)) (TTdilep.object_selection imp (TTdilep.prepare imp self X)) = inr tt) /\
  printed = hlt_diagnostic (TTdilep.prepare imp self X) TTdilep.triggers /\
  ds = dataset X /\
  sumw out = TTdilep.sumw_of (negb (has_genWeight X)) (TTdilep.prepare imp self X) /\
  fill_phase
    (TTdilep.loop_calls imp self (negb (has_genWeight X))
       (TTdilep.object_selection imp (TTdilep.prepare imp self X))
       (tt_mask imp self X) (Weights.new (len (missing_branch imp X))))
    (TTdilep.tail_calls imp self (negb (has_genWeight X))
       (TTdilep.object_selection imp (TTdilep.prepare imp self X))
       (tt_mask imp self X) (Weights.new (len (missing_branch imp X))))
    (_hist_event_dict self) = inr (hists out).
Proof.
  unfold tt_mask, TTdilep.process, TTdilep.prepare.
  set (b := if isJERC self then _ else _).
  unfold TTdilep.loop, fill_phase.
  destruct (hlt_block_cases (dataset X) b TTdilep.triggers) as [[Hall ->]|[Hex ->]].
  - split; [discriminate|]. intros [[Hex _] _]. exfalso.
    apply Exists_exists in Hex. destruct Hex as [t [Ht Hp]].
    rewrite Forall_forall in Hall. rewrite (Hall t Ht) in Hp. discriminate.
  - match goal with
    | |- context [register_genweight ?r ?x] =>
        destruct (register_cases r x) as [[Hr _]|[Hr _]]; rewrite Hr; cbn [bind]
    end.
    + match goal with
      | |- context [bind ?m ?k] => destruct (bind m k) as [e|o]
      end.
      * split; [discriminate|]. intros (_ & _ & _ & _ & H). discriminate.
      * split.
        -- intros H. injection H as <- <- <-. simpl. auto.
        -- intros (_ & -> & -> & Hs & Ho). destruct out as [sw hs]. simpl in *.
           injection Ho as ->. subst. reflexivity.
    + split; [discriminate|]. intros [[_ H] _]. discriminate.
Qed.

(** X1 - [make_output] hands out the histogram objects stored in the
    processor, so a returning call adds to what they already hold: under every
    name, the histogram of the output is the stored content followed by the
    entries that the same call makes on a processor whose histograms are
    empty, and [sumw] is the same. *)
Theorem stored_histograms_accumulate imp self (X : Batch Lepton Lepton) printed ds out :
  (EWc.process imp self X = Returned printed ds out ->
   exists out0,
     EWc.process imp (reset_hists self) X = Returned printed ds out0 /\
     sumw out0 = sumw out /\
     forall name h0, dict_get (_hist_event_dict self) name = inr h0 ->
       exists added,
         dict_get (hists out) name = inr (h0 ++ added) /\
         dict_get (hists out0) name = inr added) /\
  (TTdilep.process imp self X = Returned printed ds out ->
   exists out0,
     TTdilep.process imp (reset_hists self) X = Returned printed ds out0 /\
     sumw out0 = sumw out /\
     forall name h0, dict_get (_hist_event_dict self) name = inr h0 ->
       exists added,
         dict_get (hists out) name = inr (h0 ++ added) /\
         dict_get (hists out0) name = inr added).
Proof.
  split; intros H.
  - apply process_phase_eWc in H. destruct H as ([Hex Hr] & Hp & Hd & Hs & Hf).
    destruct (fill_phase_reset _ _ _ _ Hf) as [o0 [H0 Hadd]].
    exists (mkOutput (sumw out) o0). split; [|split; [reflexivity|exact Hadd]].
    apply process_phase_eWc. repeat split; assumption.
  - apply process_phase_tt in H. destruct H as ([Hex Hr] & Hp & Hd & Hs & Hf).
    destruct (fill_phase_reset _ _ _ _ Hf) as [o0 [H0 Hadd]].
    exists (mkOutput (sumw out) o0). split; [|split; [reflexivity|exact Hadd]].
    apply process_phase_tt. repeat split; assumption.
Qed.

(** ** Histograms that the schema must provide *)

Lemma fill_phase_tail_keys LC TC hs out :
  fill_phase LC TC hs = inr out ->
  Forall (fun k => In k (map fst hs)) (map fst TC).
Proof.
  intros Hf. unfold fill_phase in Hf.
  match type of Hf with
  | context [mapM ?f hs] => destruct (mapM f hs) as [e|o1] eqn:Hl
  end; simpl in Hf; [discriminate|].
  destruct (loop_get _ _ _ Hl) as [Hk _].
  assert (Hall : Forall (fun kc => In (fst kc) (map fst o1)) TC)
    by (apply fill_all_ok; eauto).
  rewrite Hk in Hall. apply Forall_map. exact Hall.
Qed.

Lemma tail_names_eWc imp self isRealData b lvl w0 :
  map fst (EWc.tail_calls imp self isRealData b lvl w0) = eWc_tail_names.
Proof. reflexivity. Qed.

Lemma tail_names_tt imp self isRealData b lvl w0 :
  map fst (TTdilep.tail_calls imp self isRealData b lvl w0) = tt_tail_names.
Proof. reflexivity. Qed.

(** X2 - the fills that follow the loop address their histograms by name:
    a call returns only if the dictionary of the processor has every one of
    those names (fourteen in eWc, three in ttdilep); with one of them absent
    the call never returns, whatever the batch. *)
Theorem named_histograms_required imp self (X : Batch Lepton Lepton) :
  (forall printed ds out,
     EWc.process imp self X = Returned printed ds out ->
     Forall (fun k => In k (map fst (_hist_event_dict self))) eWc_tail_names) /\
  (Exists (fun k => ~ In k (map fst (_hist_event_dict self))) eWc_tail_names ->
   forall printed ds out, EWc.process imp self X <> Returned printed ds out) /\
  (forall printed ds out,
     TTdilep.process imp self X = Returned printed ds out ->
     Forall (fun k => In k (map fst (_hist_event_dict self))) tt_tail_names) /\
  (Exists (fun k => ~ In k (map fst (_hist_event_dict self))) tt_tail_names ->
   forall printed ds out, TTdilep.process imp self X <> Returned printed ds out).
Proof.
  assert (He : forall printed ds out,
             EWc.process imp self X = Returned printed ds out ->
             Forall (fun k => In k (map fst (_hist_event_dict self))) eWc_tail_names).
  { intros printed ds out H. apply process_phase_eWc in H.
    destruct H as (_ & _ & _ & _ & Hf). apply fill_phase_tail_keys in Hf.
    rewrite tail_names_eWc in Hf. exact Hf. }
  assert (Ht : forall printed ds out,
             TTdilep.process imp self X = Returned printed ds out ->
             Forall (fun k => In k (map fst (_hist_event_dict self))) tt_tail_names).
  { intros printed ds out H. apply process_phase_tt in H.
    destruct H as (_ & _ & _ & _ & Hf). apply fill_phase_tail_keys in Hf.
    rewrite tail_names_tt in Hf. exact Hf. }
  split; [exact He|]. split; [|split; [exact Ht|]].
  - intros Hmiss printed ds out Hp. specialize (He _ _ _ Hp).
    apply Exists_exists in Hmiss. destruct Hmiss as [k [Hk Hn]].
    rewrite Forall_forall in He. auto.
  - intros Hmiss printed ds out Hp. specialize (Ht _ _ _ Hp).
    apply Exists_exists in Hmiss. destruct Hmiss as [k [Hk Hn]].
    rewrite Forall_forall in Ht. auto.
Qed.

(** ** Lookups in [disc_list] *)





(** ** What the mask guarantees about a selected event *)

Lemma eWc_mask_rows imp self (X : Batch Lepton Lepton) :
  eWc_mask imp self X =
  map (eWc_row_level imp self (negb (has_genWeight X))
         (filter (hasattr_HLT (EWc.prepare imp self X)) EWc.triggers))
      (events (EWc.prepare imp self X)).
Proof. unfold eWc_mask. apply event_level_rows_eWc. Qed.

Lemma tt_mask_rows imp self (X : Batch Lepton Lepton) :
  tt_mask imp self X =
  map (tt_row_level imp self (negb (has_genWeight X))
         (filter (hasattr_HLT (TTdilep.prepare imp self X)) TTdilep.triggers))
      (events (TTdilep.object_selection imp (TTdilep.prepare imp self X))).
Proof.
  unfold tt_mask.
  destruct (req_trig_object_selection imp (TTdilep.prepare imp self X) TTdilep.triggers)
    as [-> ->].
  apply event_level_rows_tt. apply padded_object_selection.
Qed.

Lemma eWc_row_facts imp self isRealData present e :
  eWc_row_level imp self isRealData present e = true ->
  existsb (HLT e) present = true /\
  (isRealData = true -> lumiMask self (run e) (luminosityBlock e) = true) /\
  (exists l, EWc.iso_ele_coll imp e = [l] /\ EWc.iso_ele imp e = Some l /\
             Ak.gtb (mass (vec_add imp (EWc.MET_p4 e) (lep_p4 l))) 55 = true) /\
  (1 <= List.length (EWc.event_jet imp e) <= 3)%nat /\
  EWc.soft_muon_coll imp e <> [] /\
  EWc.mu_jet_coll imp e <> [] /\
  (List.length (EWc.dilep_mu imp e) + List.length (EWc.dilep_ele imp e) <> 2)%nat.
Proof.
  intros Hm. apply all_reqs_true in Hm. unfold eWc_row_reqs in Hm.
  repeat match goal with
         | H : Forall _ (_ :: _) |- _ => inversion H; clear H; subst
         end.
  repeat match goal with
         | H : Some true = Some _ |- _ => injection H as H; symmetry in H
         end.
  unfold Ak.count_all, Ak.num in *.
  split; [assumption|]. split.
  { intros Hgw. rewrite Hgw in *. assumption. }
  split.
  { match goal with
    | H : Some true = option_map _ (EWc.iso_ele imp e) |- _ => rename H into HW
    end.
    match goal with
    | H : Nat.eqb (List.length (EWc.iso_ele_coll imp e)) 1%nat = true |- _ =>
        apply Nat.eqb_eq in H; rename H into Hone
    end.
    unfold EWc.iso_ele in *.
    destruct (EWc.iso_ele_coll imp e) as [|l [|l' ls]]; try discriminate Hone.
    exists l. cbn [Ak.pad_none1 Ak.first map option_map] in *.
    split; [reflexivity|]. split; [reflexivity|].
    injection HW as HW. symmetry. exact HW. }
  split.
  { match goal with
    | H : (_ && (_ <=? 3)%nat)%bool = true |- _ =>
        apply andb_true_iff in H; destruct H as [Ha Hb]; apply Nat.leb_le in Hb;
        destruct (List.length (EWc.event_jet imp e)); [discriminate Ha | lia]
    end. }
  split.
  { destruct (EWc.soft_muon_coll imp e); simpl in *; [discriminate|congruence]. }
  split.
  { destruct (EWc.mu_jet_coll imp e); simpl in *; [discriminate|congruence]. }
  match goal with
  | H : negb (Nat.eqb _ 2%nat) = true |- _ =>
      apply negb_true_iff in H; apply Nat.eqb_neq in H; exact H
  end.
Qed.

(** X4 - an event selected by the eWc mask has fired a requested trigger
    path present in the schema, passed the lumi mask when the batch is real
    data, and has exactly one isolated electron, whose transverse system with
    the missing energy has a mass above 55, between one and three selected
    jets, at least one soft muon, at least one muon-jet, and a number of
    dilepton-veto leptons different from two. *)
Theorem eWc_selected_event imp self (X : Batch Lepton Lepton) i e :
  nth_error (events (EWc.prepare imp self X)) i = Some e ->
  nth_error (eWc_mask imp self X) i = Some true ->
  existsb (HLT e) (filter (hasattr_HLT (EWc.prepare imp self X)) EWc.triggers) = true /\
  (has_genWeight X = false -> lumiMask self (run e) (luminosityBlock e) = true) /\
  (exists l, EWc.iso_ele_coll imp e = [l] /\ EWc.iso_ele imp e = Some l /\
             Ak.gtb (mass (vec_add imp (EWc.MET_p4 e) (lep_p4 l))) 55 = true) /\
  (1 <= List.length (EWc.event_jet imp e) <= 3)%nat /\
  EWc.soft_muon_coll imp e <> [] /\
  EWc.mu_jet_coll imp e <> [] /\
  (List.length (EWc.dilep_mu imp e) + List.length (EWc.dilep_ele imp e) <> 2)%nat.
Proof.
  intros He Hm. rewrite eWc_mask_rows, nth_error_map, He in Hm.
  injection Hm as Hm.
  destruct (eWc_row_facts _ _ _ _ _ Hm) as (H1 & H2 & H3).
  split; [exact H1|]. split; [|exact H3].
  intros Hgw. apply H2. rewrite Hgw. reflexivity.
Qed.

(** X5 - an event selected by the ttdilep mask has fired a requested trigger
    path present in the schema, passed the lumi mask when the batch is real
    data, and has exactly one selected muon and exactly one selected electron,
    the product of whose charges, taken on [int32] columns (it wraps around),
    is -1, and at least two selected jets. *)
Theorem tt_selected_event_facts imp self (X : Batch Lepton Lepton) i e :
  nth_error (events (TTdilep.object_selection imp (TTdilep.prepare imp self X))) i = Some e ->
  nth_error (tt_mask imp self X) i = Some true ->
  existsb (HLT e) (filter (hasattr_HLT (TTdilep.prepare imp self X)) TTdilep.triggers)
    = true /\
  (has_genWeight X = false -> lumiMask self (run e) (luminosityBlock e) = true) /\
  (exists m l, Muon e = [Some m] /\ Electron e = [Some l] /\
               mul32 (charge l) (charge m) = (-1)%Z) /\
  (2 <= List.length (TTdilep.event_jet imp e))%nat.
Proof.
  intros He Hm. rewrite tt_mask_rows, nth_error_map, He in Hm.
  injection Hm as Hm.
  assert (Hpad : padded e).
  { pose proof (padded_object_selection imp (TTdilep.prepare imp self X)) as Hp.
    rewrite Forall_forall in Hp. apply Hp. eapply nth_error_In; eauto. }
  destruct (tt_selected _ _ _ _ _ Hpad Hm) as ([m Hmu] & [l Hel] & j0 & j1 & js & Hj).
  apply all_reqs_true in Hm. unfold tt_row_reqs in Hm.
  repeat match goal with
         | H : Forall _ (_ :: _) |- _ => inversion H; clear H; subst
         end.
  repeat match goal with
         | H : Some true = Some _ |- _ => injection H as H; symmetry in H
         end.
  split; [assumption|]. split.
  { intros Hgw. rewrite Hgw in *. simpl in *. assumption. }
  split.
  { exists m, l. split; [assumption|]. split; [assumption|].
    rewrite Hmu, Hel in *. cbn [Ak.first Ak.lift2 Ak.fill_none_false] in *.
    apply Z.eqb_eq. assumption. }
  rewrite Hj. simpl. lia.
Qed.

(** ** Calibration tables and scale-factor readers *)

Lemma mapM_ext {A B : Type} (f g : A -> Exn + B) (xs : list A) :
  (forall x, f x = g x) -> mapM f xs = mapM g xs.
Proof.
  intros H. induction xs as [|x xs IH]; simpl; [reflexivity|].
  rewrite H, IH. reflexivity.
Qed.

Section CorrectionsUnused.

Variable imp : Imports.
Variable self : NanoProcessor.
Variables (cj cc : CTable) (bj bc : BTable) (pu : Q -> Q).
Variables (esf msf : option Lepton -> Q).
Variable gsf : Z -> Q -> Q -> CTable -> option string -> Q.
Variable isRealData : bool.
Hypothesis Hoff : negb isRealData && isCorr self = false.

Lemma weights_unused_eWc b lvl w0 :
  EWc.weights (with_readers imp esf msf gsf) (with_tables self cj bj cc bc pu)
              isRealData b lvl w0 =
  EWc.weights imp self isRealData b lvl w0.
Proof.
  unfold EWc.weights. cbn [with_tables isCorr]. rewrite Hoff. reflexivity.
Qed.

Lemma loop_calls_unused_eWc b lvl w0 name :
  EWc.loop_calls (with_readers imp esf msf gsf) (with_tables self cj bj cc bc pu)
                 isRealData b lvl w0 name =
  EWc.loop_calls imp self isRealData b lvl w0 name.
Proof.
  unfold EWc.loop_calls, EWc.btag_calls, EWc.wjets, EWc.wsel.
  rewrite !weights_unused_eWc. cbn [with_tables isCorr]. rewrite Hoff. reflexivity.
Qed.

Lemma tail_calls_unused_eWc b lvl w0 :
  EWc.tail_calls (with_readers imp esf msf gsf) (with_tables self cj bj cc bc pu)
                 isRealData b lvl w0 =
  EWc.tail_calls imp self isRealData b lvl w0.
Proof.
  unfold EWc.tail_calls, EWc.wsel. rewrite !weights_unused_eWc. reflexivity.
Qed.

Lemma weights_unused_tt b lvl w0 :
  TTdilep.weights (with_readers imp esf msf gsf) (with_tables self cj bj cc bc pu)
                  isRealData b lvl w0 =
  TTdilep.weights imp self isRealData b lvl w0.
Proof.
  unfold TTdilep.weights. cbn [with_tables isCorr]. rewrite Hoff. reflexivity.
Qed.

Lemma loop_calls_unused_tt b lvl w0 name :
  TTdilep.loop_calls (with_readers imp esf msf gsf) (with_tables self cj bj cc bc pu)
                     isRealData b lvl w0 name =
  TTdilep.loop_calls imp self isRealData b lvl w0 name.
Proof.
  unfold TTdilep.loop_calls, TTdilep.for_jets, TTdilep.btag_calls, TTdilep.wsel.
  rewrite !weights_unused_tt. cbn [with_tables isCorr]. rewrite Hoff. reflexivity.
Qed.

Lemma tail_calls_unused_tt b lvl w0 :
  TTdilep.tail_calls (with_readers imp esf msf gsf) (with_tables self cj bj cc bc pu)
                     isRealData b lvl w0 =
  TTdilep.tail_calls imp self isRealData b lvl w0.
Proof.
  unfold TTdilep.tail_calls, TTdilep.wsel. rewrite !weights_unused_tt. reflexivity.
Qed.

End CorrectionsUnused.

(** X6 - the calibration tables, the pileup weights and the lepton and c-tag
    scale-factor readers are read only for simulated data with corrections
    enabled: for real data, or with [isCorr] off, [process] gives the same
    outcome whatever they are (so the attributes that [__init__] leaves unset
    with [isCorr=False] are never needed). *)
Theorem corrections_unused imp self cj bj cc bc pu esf msf gsf (X : Batch Lepton Lepton) :
  has_genWeight X = false \/ isCorr self = false ->
  EWc.process (with_readers imp esf msf gsf) (with_tables self cj bj cc bc pu) X =
    EWc.process imp self X /\
  TTdilep.process (with_readers imp esf msf gsf) (with_tables self cj bj cc bc pu) X =
    TTdilep.process imp self X.
Proof.
  intros H.
  assert (Hoff : negb (negb (has_genWeight X)) && isCorr self = false).
  { destruct H as [-> | ->]; [reflexivity | apply andb_false_r]. }
  split.
  - unfold EWc.process, EWc.loop.
    cbn [with_tables with_readers isJERC missing_branch add_jec _hist_event_dict].
    set (b := if isJERC self then _ else _).
    destruct (hlt_block_cases (dataset X) b EWc.triggers) as [[_ ->]|[_ ->]];
      [reflexivity|].
    cbv iota beta zeta.
    change (EWc.event_level (with_readers imp esf msf gsf)
              (with_tables self cj bj cc bc pu))
      with (EWc.event_level imp self).
    rewrite (tail_calls_unused_eWc imp self cj cc bj bc pu esf msf gsf _ Hoff).
    match goal with
    | |- context [bind (mapM ?f (_hist_event_dict self)) ?k] =>
        match goal with
        | |- context [bind (mapM ?g (_hist_event_dict self)) k] =>
            lazymatch f with
            | g => fail
            | _ => rewrite (mapM_ext f g)
            end
        end
    end; [reflexivity|].
    intros nh.
    rewrite (loop_calls_unused_eWc imp self cj cc bj bc pu esf msf gsf _ Hoff).
    reflexivity.
  - unfold TTdilep.process, TTdilep.loop.
    cbn [with_tables with_readers isJERC missing_branch add_jec _hist_event_dict].
    set (b := if isJERC self then _ else _).
    destruct (hlt_block_cases (dataset X) b TTdilep.triggers) as [[_ ->]|[_ ->]];
      [reflexivity|].
    cbv iota beta zeta.
    change (TTdilep.event_level (with_readers imp esf msf gsf)
              (with_tables self cj bj cc bc pu))
      with (TTdilep.event_level imp self).
    change (TTdilep.object_selection (with_readers imp esf msf gsf))
      with (TTdilep.object_selection imp).
    rewrite (tail_calls_unused_tt imp self cj cc bj bc pu esf msf gsf _ Hoff).
    match goal with
    | |- context [bind (mapM ?f (_hist_event_dict self)) ?k] =>
        match goal with
        | |- context [bind (mapM ?g (_hist_event_dict self)) k] =>
            lazymatch f with
            | g => fail
            | _ => rewrite (mapM_ext f g)
            end
        end
    end; [reflexivity|].
    intros nh.
    rewrite (loop_calls_unused_tt imp self cj cc bj bc pu esf msf gsf _ Hoff).
    reflexivity.
Qed.

(** ** The jet-multiplicity histogram *)

Lemma rows2_in syst vals ws en :
  In en (Hist.rows2 syst vals ws) ->
  Hist.en_syst en = syst /\ Hist.en_flav en = None /\
  In (Some (Hist.en_val en)) vals /\ In (Some (Hist.en_weight en)) ws.
Proof.
  revert ws. induction vals as [|v vals IH]; intros [|w ws] Hin; simpl in Hin;
    try contradiction.
  destruct v as [v|], w as [w|];
    try (destruct (IH _ Hin) as (H1 & H2 & H3 & H4);
         split; [exact H1|]; split; [exact H2|]; split; right; assumption).
  destruct Hin as [<- | Hin].
  - simpl. auto.
  - destruct (IH _ Hin) as (H1 & H2 & H3 & H4).
    split; [exact H1|]. split; [exact H2|]. split; right; assumption.
Qed.

Lemma rows3_in syst fl vals ws en :
  In en (Hist.rows3 syst fl vals ws) ->
  Hist.en_syst en = syst /\
  (exists f, Hist.en_flav en = Some f /\ In (Some f) fl) /\
  In (Some (Hist.en_val en)) vals /\ In (Some (Hist.en_weight en)) ws.
Proof.
  revert vals ws. induction fl as [|f fl IH]; intros [|v vals] [|w ws] Hin; simpl in Hin;
    try contradiction.
  destruct f as [f|], v as [v|], w as [w|];
    try (destruct (IH _ _ Hin) as (H1 & [f' [H2 H2']] & H3 & H4);
         split; [exact H1|]; split; [exists f'; split; [exact H2 | right; exact H2']|];
         split; right; assumption).
  destruct Hin as [<- | Hin].
  - simpl. split; [reflexivity|]. split; [exists f; split; [reflexivity | left; reflexivity]|].
    split; left; reflexivity.
  - destruct (IH _ _ Hin) as (H1 & [f' [H2 H2']] & H3 & H4).
    split; [exact H1|]. split; [exists f'; split; [exact H2 | right; exact H2']|].
    split; right; assumption.
Qed.

Lemma rows2_constant {Ev : Type} (p : Ev -> bool) (g : Ev -> Q) (v : Q) (evs : list Ev) :
  (forall e, In e evs -> p e = true -> g e = v) ->
  forall W : list Q,
    Hist.rows2 None (map (fun e => Some (g e)) (filter p evs))
               (map Some (Ak.select (map p evs) W)) =
    map (fun w => Hist.mkEntry None None v w) (Ak.select (map p evs) W).
Proof.
  induction evs as [|e evs IH]; intros Hg W; [reflexivity|].
  destruct W as [|w W]; simpl.
  - destruct (p e); simpl; try reflexivity;
      destruct (map _ (filter p evs)) as [|[x|] l']; reflexivity.
  - destruct (p e) eqn:Hp; simpl.
    + rewrite (Hg e (or_introl eq_refl) Hp), IH; [reflexivity|].
      intros e' Hin. apply Hg. right. assumption.
    + apply IH. intros e' Hin. apply Hg. right. assumption.
Qed.

Lemma loop_calls_njet_tt imp self isRealData b lvl w0 :
  TTdilep.loop_calls imp self isRealData b lvl w0 "njet" = inr [].
Proof. unfold TTdilep.loop_calls. eval_names. reflexivity. Qed.

Lemma loop_calls_njet_eWc imp self isRealData b lvl w0 :
  EWc.loop_calls imp self isRealData b lvl w0 "njet" = inr [].
Proof. unfold EWc.loop_calls. eval_names. reflexivity. Qed.

Lemma tail_njet_tt imp self isRealData b lvl w0 :
  tail_entries "njet"
    (map (fun kc => (fst kc, Hist.entries (snd kc)))
         (TTdilep.tail_calls imp self isRealData b lvl w0)) =
  Hist.rows2 None
    (map (fun js => Some (inject_Z (Z.of_nat (Ak.count_all js)))) (TTdilep.sjets imp b lvl))
    (map Some (TTdilep.wsel imp self isRealData b lvl w0)).
Proof.
  unfold TTdilep.tail_calls, tail_entries.
  cbn [map app fst snd flat_map TTdilep.str]. eval_names.
  cbn [app]. rewrite app_nil_r. reflexivity.
Qed.

Lemma tail_njet_eWc imp self isRealData b lvl w0 :
  tail_entries "njet"
    (map (fun kc => (fst kc, Hist.entries (snd kc)))
         (EWc.tail_calls imp self isRealData b lvl w0)) =
  Hist.rows2 None
    (map (fun n => Some (inject_Z (Z.of_nat n))) (EWc.njet imp b lvl))
    (EWc.wsel imp self isRealData b lvl w0).
Proof.
  unfold EWc.tail_calls, tail_entries. cbv zeta.
  cbn [map app fst snd flat_map]. eval_names.
  cbn [app]. rewrite app_nil_r. reflexivity.
Qed.

(** X7 - the histogram ["njet"] receives its entries from the fill by name
    only.  In ttdilep the multiplicity is counted after the selected jets have
    been cut to the two leading ones ([sjets[:, :2]]), so every selected event
    enters with the value 2, whatever its number of jets, carrying the event
    weight.  In eWc every entry is the number of selected jets of a selected
    event, between 1 and 3. *)
Theorem njet_histogram imp self (X : Batch Lepton Lepton) printed ds out h0 :
  dict_get (_hist_event_dict self) "njet" = inr h0 ->
  (TTdilep.process imp self X = Returned printed ds out ->
   dict_get (hists out) "njet" =
   inr (h0 ++ map (fun w => Hist.mkEntry None None 2 w)
                  (TTdilep.wsel imp self (negb (has_genWeight X))
                     (TTdilep.object_selection imp (TTdilep.prepare imp self X))
                     (tt_mask imp self X) (Weights.new (len (missing_branch imp X)))))) /\
  (EWc.process imp self X = Returned printed ds out ->
   exists added,
     dict_get (hists out) "njet" = inr (h0 ++ added) /\
     Forall (fun en => Hist.en_syst en = None /\ Hist.en_flav en = None /\
                       exists n, (1 <= n <= 3)%nat /\
                                 Hist.en_val en = inject_Z (Z.of_nat n)) added).
Proof.
  intros H0. split; intros H.
  - apply process_phase_tt in H. destruct H as (_ & _ & _ & _ & Hf).
    destruct (fill_phase_get _ _ _ _ Hf "njet" h0 H0) as [cs [Hcs Hd]].
    rewrite loop_calls_njet_tt in Hcs. injection Hcs as <-.
    rewrite Hd, tail_njet_tt. cbn [map List.concat app]. do 2 f_equal.
    unfold TTdilep.wsel, TTdilep.sjets. rewrite tt_mask_rows.
    rewrite select_map, select_filter, !map_map.
    apply (rows2_constant _ (fun e => inject_Z (Z.of_nat
                                        (Ak.count_all (firstn 2 (TTdilep.event_jet imp e)))))).
    intros e Hin Hp.
    assert (Hpad : padded e).
    { pose proof (padded_object_selection imp (TTdilep.prepare imp self X)) as Hpd.
      rewrite Forall_forall in Hpd. apply Hpd. assumption. }
    destruct (tt_selected _ _ _ _ _ Hpad Hp) as (_ & _ & j0 & j1 & js & ->).
    reflexivity.
  - apply process_phase_eWc in H. destruct H as (_ & _ & _ & _ & Hf).
    destruct (fill_phase_get _ _ _ _ Hf "njet" h0 H0) as [cs [Hcs Hd]].
    rewrite loop_calls_njet_eWc in Hcs. injection Hcs as <-.
    rewrite Hd, tail_njet_eWc. cbn [map List.concat app].
    eexists. split; [reflexivity|].
    apply Forall_forall. intros en Hin. apply rows2_in in Hin.
    destruct Hin as (Hs & Hfl & Hv & _). split; [assumption|]. split; [assumption|].
    unfold EWc.njet, EWc.sjets in Hv. rewrite eWc_mask_rows in Hv.
    rewrite select_map, select_filter, !map_map in Hv.
    apply in_map_iff in Hv. destruct Hv as [e [Heq Hin]].
    apply filter_In in Hin. destruct Hin as [Hin Hp].
    exists (Ak.count_all (EWc.event_jet imp e)). split; [|congruence].
    destruct (eWc_row_facts _ _ _ _ _ Hp) as (_ & _ & _ & Hj & _).
    exact Hj.
Qed.

(** ** The weight of one event *)

(** X8 - the total weight of an event is the product of the registered
    components: 1 for real data; the generator weight for simulation; with
    corrections enabled, the generator weight times the pileup weight times
    the two lepton scale factors, each of which is replaced by 1 for an event
    that the mask rejects.  In eWc [lep1sf] is read on the first isolated
    electron and [lep2sf] on the first soft muon; in ttdilep [lep1sf] is read
    on the first selected muon and [lep2sf] on the first selected electron. *)
Theorem event_weight imp self isRealData i c :
  (forall (b : Batch Lepton Lepton) lvl e,
     nth_error (events b) i = Some e -> nth_error lvl i = Some c ->
     exists w,
       nth_error (Weights.weight (EWc.weights imp self isRealData b lvl
                                              (Weights.new (len b)))) i = Some w /\
       w == if isRealData then 1
            else genWeight e *
                 (if isCorr self
                  then _pu self (Pileup_nPU e) *
                       (if c then eleSFs imp (Ak.firsts (EWc.iso_ele_coll imp e)) else 1) *
                       (if c then muSFs imp (Ak.firsts (EWc.soft_muon_coll imp e)) else 1)
                  else 1)) /\
  (forall (b : TTdilep.SelBatch) lvl e,
     nth_error (events b) i = Some e -> nth_error lvl i = Some c ->
     exists w,
       nth_error (Weights.weight (TTdilep.weights imp self isRealData b lvl
                                                  (Weights.new (len b)))) i = Some w /\
       w == if isRealData then 1
            else genWeight e *
                 (if isCorr self
                  then _pu self (Pileup_nPU e) *
                       (if c then muSFs imp (Ak.first (Muon e)) else 1) *
                       (if c then eleSFs imp (Ak.first (Electron e)) else 1)
                  else 1)).
Proof.
  split; intros b lvl e He Hc.
  - unfold EWc.weights, EWc.lep1sf, EWc.lep2sf, Weights.weight, Weights.add, Weights.new, len.
    rewrite ones_as_map.
    destruct isRealData, (isCorr self); cbn [negb andb Weights._weight];
      rewrite ?nth_error_map2, ?nth_error_map, ?He, ?Hc; cbn [option_map];
      eexists; (split; [reflexivity|]); unfold Ak.where_; destruct c; ring.
  - unfold TTdilep.weights, TTdilep.lep1sf, TTdilep.lep2sf, Weights.weight, Weights.add,
      Weights.new, len.
    rewrite ones_as_map.
    destruct isRealData, (isCorr self); cbn [negb andb Weights._weight];
      rewrite ?nth_error_map2, ?nth_error_map, ?He, ?Hc; cbn [option_map];
      eexists; (split; [reflexivity|]); unfold Ak.where_; destruct c; ring.
Qed.

(** ** The weights of the entries of real data *)

Lemma In_select {A : Type} (x : A) (m : list bool) :
  forall l, In x (Ak.select m l) -> In x l.
Proof.
  induction m as [|c m IH]; intros [|y l] H; simpl in H; try contradiction.
  destruct c; [destruct H as [<-|H]|]; simpl; auto.
Qed.

Lemma In_map2 {A B C : Type} (f : A -> B -> C) (z : C) (xs : list A) :
  forall ys, In z (Ak.map2 f xs ys) -> exists x y, In x xs /\ In y ys /\ z = f x y.
Proof.
  induction xs as [|x xs IH]; intros [|y ys] H; simpl in H; try contradiction.
  destruct H as [<-|H].
  - exists x, y. simpl. auto.
  - destruct (IH _ H) as (x' & y' & Hx & Hy & ->). exists x', y'. simpl. auto.
Qed.

Lemma In_flatten_broadcast {W A : Type} (w : W) (ws : list W) :
  forall jag : list (list A), In w (Ak.flatten (Ak.broadcast ws jag)) -> In w ws.
Proof.
  unfold Ak.flatten, Ak.broadcast.
  induction ws as [|x ws IH]; intros [|r jag] H; simpl in H; try contradiction.
  apply in_app_or in H. destruct H as [H|H].
  - apply repeat_spec in H. subst. left. reflexivity.
  - right. eapply IH. exact H.
Qed.

Lemma In_tail_entries en name (TC : list (string * Hist.FillCall)) :
  In en (tail_entries name (map (fun kc => (fst kc, Hist.entries (snd kc))) TC)) ->
  exists kc, In kc TC /\ In en (Hist.entries (snd kc)).
Proof.
  unfold tail_entries. intros H. apply in_flat_map in H. destruct H as [x [Hx Hen]].
  apply in_map_iff in Hx. destruct Hx as [kc [<- Hkc]]. cbn [fst snd] in Hen.
  exists kc. split; [assumption|]. destruct (String.eqb (fst kc) name); [assumption|contradiction].
Qed.

Lemma In_entries_weight en c :
  In en (Hist.entries c) -> In (Some (Hist.en_weight en)) (Hist.fc_weight c).
Proof.
  unfold Hist.entries. destruct (Hist.fc_flav c); intros H.
  - apply rows3_in in H. tauto.
  - apply rows2_in in H. tauto.
Qed.

(** Every entry that a returning fill phase adds to a histogram comes from
    one of its calls. *)
Lemma fill_phase_added LC TC hs out name h0 :
  fill_phase LC TC hs = inr out ->
  dict_get hs name = inr h0 ->
  exists added,
    dict_get out name = inr (h0 ++ added) /\
    forall en, In en added ->
      exists c, ((exists cs, LC name = inr cs /\ In c cs) \/ In c (map snd TC)) /\
                In en (Hist.entries c).
Proof.
  intros Hf H0. destruct (fill_phase_get _ _ _ _ Hf name h0 H0) as [cs [Hcs Hd]].
  eexists. split; [exact Hd|]. intros en Hin. apply in_app_or in Hin.
  destruct Hin as [Hin|Hin].
  - apply in_concat in Hin. destruct Hin as [l [Hl Hen]].
    apply in_map_iff in Hl. destruct Hl as [c [<- Hc]].
    exists c. split; [left; eauto | assumption].
  - apply In_tail_entries in Hin. destruct Hin as [kc [Hkc Hen]].
    exists (snd kc). split; [right; apply in_map; assumption | assumption].
Qed.

Lemma call_weights_tt imp self isRealData b lvl w0 name cs :
  negb isRealData && isCorr self = false ->
  TTdilep.loop_calls imp self isRealData b lvl w0 name = inr cs ->
  Forall (fun c => incl (Hist.fc_weight c)
                        (map Some (TTdilep.wsel imp self isRealData b lvl w0))) cs.
Proof.
  intros Hoff. unfold TTdilep.loop_calls, TTdilep.for_jets, TTdilep.btag_calls.
  cbv zeta. rewrite Hoff.
  repeat match goal with
         | |- context [if ?c then _ else _] => destruct c
         end;
    cbn [bind app]; intros H; injection H as <-;
    repeat constructor; cbn [Hist.fc_weight]; try apply incl_refl.
  apply incl_map. intros w Hw. eapply In_flatten_broadcast. exact Hw.
Qed.

Lemma tail_weights_tt imp self isRealData b lvl w0 c :
  In c (map snd (TTdilep.tail_calls imp self isRealData b lvl w0)) ->
  Hist.fc_weight c = map Some (TTdilep.wsel imp self isRealData b lvl w0).
Proof.
  unfold TTdilep.tail_calls. cbn [map app snd In].
  intros H. repeat destruct H as [<-|H]; try reflexivity. contradiction.
Qed.

Lemma call_weights_eWc imp self isRealData b lvl w0 name cs :
  negb isRealData && isCorr self = false ->
  EWc.loop_calls imp self isRealData b lvl w0 name = inr cs ->
  Forall (fun c => incl (Hist.fc_weight c) (EWc.wsel imp self isRealData b lvl w0)) cs.
Proof.
  intros Hoff. unfold EWc.loop_calls, EWc.btag_calls, EWc.wjets.
  cbv zeta. rewrite Hoff.
  repeat match goal with
         | |- context [if ?c then _ else _] => destruct c
         end;
    cbn [bind app]; intros H; injection H as <-;
    repeat constructor; cbn [Hist.fc_weight]; try apply incl_refl;
    intros w Hw; eapply In_flatten_broadcast; exact Hw.
Qed.

Lemma tail_weights_eWc imp self isRealData b lvl w0 c :
  In c (map snd (EWc.tail_calls imp self isRealData b lvl w0)) ->
  Hist.fc_weight c = EWc.wsel imp self isRealData b lvl w0.
Proof.
  unfold EWc.tail_calls. cbv zeta. cbn [map snd In].
  intros H. repeat destruct H as [<-|H]; try reflexivity. contradiction.
Qed.

(** X9 - real data is filled without any correction.  In ttdilep every
    entry that a call on real data adds to a histogram has weight 1.  In eWc
    the weight of such an entry is the product, taken on [int32] columns, of
    the charges of the isolated electron and of the leading soft muon of a
    selected event, times -1: +1 for an opposite-sign pair of unit charges,
    -1 for a same-sign pair. *)
Theorem real_data_weights imp self (X : Batch Lepton Lepton) printed ds out name h0 :
  has_genWeight X = false ->
  dict_get (_hist_event_dict self) name = inr h0 ->
  (TTdilep.process imp self X = Returned printed ds out ->
   exists added,
     dict_get (hists out) name = inr (h0 ++ added) /\
     Forall (fun en => Hist.en_weight en = 1) added) /\
  (EWc.process imp self X = Returned printed ds out ->
   exists added,
     dict_get (hists out) name = inr (h0 ++ added) /\
     Forall (fun en =>
               exists i e l m,
                 nth_error (events (EWc.prepare imp self X)) i = Some e /\
                 nth_error (eWc_mask imp self X) i = Some true /\
                 EWc.iso_ele imp e = Some l /\
                 Ak.first (EWc.soft_muon imp e) = Some m /\
                 Hist.en_weight en ==
                 inject_Z (mul32 (mul32 (charge l) (charge m)) (-1))) added).
Proof.
  intros Hgw H0.
  assert (Hoff : negb (negb (has_genWeight X)) && isCorr self = false)
    by (rewrite Hgw; reflexivity).
  split; intros H.
  - apply process_phase_tt in H. destruct H as (_ & _ & _ & _ & Hf).
    destruct (fill_phase_added _ _ _ _ _ _ Hf H0) as [added [Hd Hen]].
    exists added. split; [exact Hd|]. apply Forall_forall. intros en Hin.
    destruct (Hen en Hin) as [c [Hc Hin']]. apply In_entries_weight in Hin'.
    assert (Hw : In (Some (Hist.en_weight en))
                    (map Some (TTdilep.wsel imp self (negb (has_genWeight X))
                                 (TTdilep.object_selection imp (TTdilep.prepare imp self X))
                                 (tt_mask imp self X)
                                 (Weights.new (len (missing_branch imp X)))))).
    { destruct Hc as [[cs [Hcs Hc]]|Hc].
      - pose proof (call_weights_tt _ _ _ _ _ _ _ _ Hoff Hcs) as Hall.
        rewrite Forall_forall in Hall. apply (Hall c Hc). assumption.
      - rewrite (tail_weights_tt _ _ _ _ _ _ _ Hc) in Hin'. assumption. }
    apply in_map_iff in Hw. destruct Hw as [w [Hw Hin'']]. injection Hw as ->.
    unfold TTdilep.wsel, TTdilep.weights in Hin''. rewrite Hgw in Hin''.
    cbn [negb andb] in Hin''. apply In_select in Hin''.
    unfold Weights.weight, Weights.new, Weights._weight, Ak.ones in Hin''.
    apply repeat_spec in Hin''. exact Hin''.
  - apply process_phase_eWc in H. destruct H as (_ & _ & _ & _ & Hf).
    destruct (fill_phase_added _ _ _ _ _ _ Hf H0) as [added [Hd Hen]].
    exists added. split; [exact Hd|]. apply Forall_forall. intros en Hin.
    destruct (Hen en Hin) as [c [Hc Hin']]. apply In_entries_weight in Hin'.
    assert (Hw : In (Some (Hist.en_weight en))
                    (EWc.wsel imp self (negb (has_genWeight X)) (EWc.prepare imp self X)
                              (eWc_mask imp self X)
                              (Weights.new (len (missing_branch imp X))))).
    { destruct Hc as [[cs [Hcs Hc]]|Hc].
      - pose proof (call_weights_eWc _ _ _ _ _ _ _ _ Hoff Hcs) as Hall.
        rewrite Forall_forall in Hall. apply (Hall c Hc). assumption.
      - rewrite (tail_weights_eWc _ _ _ _ _ _ _ Hc) in Hin'. assumption. }
    unfold EWc.wsel in Hw. apply In_map2 in Hw.
    destruct Hw as (w & o & Hw & Ho & Heq).
    unfold EWc.weights in Hw. rewrite Hgw in Hw. cbn [negb andb] in Hw.
    apply In_select in Hw.
    unfold Weights.weight, Weights.new, Weights._weight, Ak.ones in Hw.
    apply repeat_spec in Hw. subst w.
    rewrite eWc_mask_rows in Ho.
    rewrite <- (with_events_self (EWc.prepare imp self X)) in Ho at 1.
    rewrite osss_rows in Ho. apply in_map_iff in Ho. destruct Ho as [e [<- He]].
    apply filter_In in He. destruct He as [He Hp].
    destruct (In_nth_error _ _ He) as [i Hi].
    destruct (EWc.iso_ele imp e) as [l|] eqn:Hl; [|discriminate].
    destruct (Ak.first (EWc.soft_muon imp e)) as [m|] eqn:Hm; [|discriminate].
    exists i, e, l, m. split; [exact Hi|]. split.
    { rewrite eWc_mask_rows, nth_error_map, Hi. cbn [option_map]. f_equal. exact Hp. }
    split; [exact Hl|]. split; [exact Hm|].
    cbn [Ak.lift2 option_map] in Heq. injection Heq as ->.
    rewrite Qmult_1_l. reflexivity.
Qed.

(** ** A batch without selected events *)

Lemma select_none {A : Type} (lvl : list bool) :
  Forall (fun c => c = false) lvl -> forall col : list A, Ak.select lvl col = [].
Proof.
  induction 1 as [|c lvl Hc _ IH]; intros [|x col]; simpl; auto.
  subst. apply IH.
Qed.

Lemma entries_no_weight c : Hist.fc_weight c = [] -> Hist.entries c = [].
Proof.
  unfold Hist.entries. intros ->. destruct (Hist.fc_flav c) as [fl|].
  - destruct fl as [|f fl]; [reflexivity|]. destruct (Hist.fc_val c); reflexivity.
  - destruct (Hist.fc_val c); reflexivity.
Qed.

Lemma concat_nils {A : Type} (ls : list (list A)) :
  Forall (fun l => l = []) ls -> List.concat ls = [].
Proof. induction 1 as [|l ls -> _ IH]; simpl; auto. Qed.

Lemma fill_at_untouched out key c out' :
  Hist.entries c = [] -> fill_at out key c = inr out' -> out' = out.
Proof.
  intros Hc. revert out'. induction out as [|[k h] out IH]; intros out' H; simpl in H;
    [discriminate|].
  destruct (String.eqb k key).
  - injection H as <-. unfold Hist.fill. rewrite Hc, app_nil_r. reflexivity.
  - destruct (fill_at out key c) as [e|r]; [discriminate|].
    injection H as <-. rewrite (IH r eq_refl). reflexivity.
Qed.

Lemma fill_phase_untouched LC TC hs out :
  (forall name cs, LC name = inr cs -> Forall (fun c => Hist.fc_weight c = []) cs) ->
  Forall (fun kc => Hist.fc_weight (snd kc) = []) TC ->
  fill_phase LC TC hs = inr out -> out = hs.
Proof.
  intros HL HT Hf. unfold fill_phase in Hf.
  match type of Hf with
  | context [mapM ?f hs] => destruct (mapM f hs) as [e|o1] eqn:Hl
  end; simpl in Hf; [discriminate|].
  assert (H1 : o1 = hs).
  { clear Hf. revert o1 Hl. induction hs as [|[k h] hs IH]; intros o1 Hl; simpl in Hl.
    - injection Hl as <-. reflexivity.
    - destruct (LC k) as [e|cs] eqn:Hk; simpl in Hl; [discriminate|].
      match type of Hl with
      | context [mapM ?f hs] => destruct (mapM f hs) as [e|o'] eqn:Hm
      end; simpl in Hl; [discriminate|].
      injection Hl as <-. rewrite (IH o' eq_refl). rewrite fills_entries.
      rewrite concat_nils, app_nil_r; [reflexivity|].
      apply Forall_map. eapply Forall_impl; [|exact (HL k cs Hk)].
      intros c Hc. apply entries_no_weight. exact Hc. }
  subst o1. clear Hl. revert out Hf.
  generalize hs. induction HT as [|[key c] TC Hc _ IH]; intros o out Hf; simpl in Hf.
  - injection Hf as <-. reflexivity.
  - destruct (fill_at o key c) as [e|o'] eqn:Ha; simpl in Hf; [discriminate|].
    apply fill_at_untouched in Ha; [|apply entries_no_weight; exact Hc]. subst o'.
    apply IH. exact Hf.
Qed.

Lemma calls_empty_eWc imp self isRealData b lvl w0 name cs :
  Ak.select lvl (Weights.weight (EWc.weights imp self isRealData b lvl w0)) = [] ->
  EWc.loop_calls imp self isRealData b lvl w0 name = inr cs ->
  Forall (fun c => Hist.fc_weight c = []) cs.
Proof.
  intros Hs.
  assert (Hw : EWc.wsel imp self isRealData b lvl w0 = [])
    by (unfold EWc.wsel; rewrite Hs; reflexivity).
  assert (Hsf : forall sf, EWc.wsel_sf imp self isRealData b lvl w0 sf = [])
    by (intros sf; unfold EWc.wsel_sf; rewrite Hs; reflexivity).
  unfold EWc.loop_calls, EWc.btag_calls, EWc.wjets. cbv zeta. rewrite Hw.
  repeat match goal with
         | |- context [if ?c then _ else _] => destruct c
         end;
    try match goal with
        | |- context [dict_get ?d ?k] => destruct (dict_get d k)
        end;
    cbn [bind]; intros H; try discriminate H; injection H as <-;
    repeat constructor;
    apply Forall_forall; intros c Hin; apply in_map_iff in Hin;
    destruct Hin as [kv [<- _]]; apply Hsf.
Qed.

Lemma tail_empty_eWc imp self isRealData b lvl w0 :
  Ak.select lvl (Weights.weight (EWc.weights imp self isRealData b lvl w0)) = [] ->
  Forall (fun kc => Hist.fc_weight (snd kc) = [])
         (EWc.tail_calls imp self isRealData b lvl w0).
Proof.
  intros Hs.
  assert (Hw : EWc.wsel imp self isRealData b lvl w0 = [])
    by (unfold EWc.wsel; rewrite Hs; reflexivity).
  unfold EWc.tail_calls. cbv zeta. rewrite Hw. repeat constructor.
Qed.

Lemma calls_empty_tt imp self isRealData b lvl w0 name cs :
  TTdilep.wsel imp self isRealData b lvl w0 = [] ->
  TTdilep.loop_calls imp self isRealData b lvl w0 name = inr cs ->
  Forall (fun c => Hist.fc_weight c = []) cs.
Proof.
  intros Hw.
  assert (Hsf : forall sf, TTdilep.wsel_sf imp self isRealData b lvl w0 sf = [])
    by (intros sf; unfold TTdilep.wsel_sf; rewrite Hw; reflexivity).
  unfold TTdilep.loop_calls, TTdilep.for_jets, TTdilep.btag_calls. cbv zeta. rewrite Hw.
  repeat match goal with
         | |- context [if ?c then _ else _] => destruct c
         end;
    repeat match goal with
           | |- context [dict_get ?d ?k] => destruct (dict_get d k)
           end;
    cbn [bind]; intros H; try discriminate H; injection H as <-;
    repeat first
      [ apply Forall_nil
      | apply Forall_cons; [reflexivity|]
      | apply Forall_app; split
      | apply Forall_forall; intros c Hin; apply in_map_iff in Hin;
        destruct Hin as [kv [<- _]]; apply Hsf ].
Qed.

Lemma tail_empty_tt imp self isRealData b lvl w0 :
  TTdilep.wsel imp self isRealData b lvl w0 = [] ->
  Forall (fun kc => Hist.fc_weight (snd kc) = [])
         (TTdilep.tail_calls imp self isRealData b lvl w0).
Proof.
  intros Hw. unfold TTdilep.tail_calls. rewrite Hw. repeat constructor.
Qed.

(** X10 - when the mask selects no event of the batch (in particular when
    the batch is empty), a returning call leaves every histogram as it was:
    each fill statement is executed with empty columns.  The sum of weights
    is still that of the whole batch. *)
Theorem no_selection_no_fill imp self (X : Batch Lepton Lepton) printed ds out :
  (EWc.process imp self X = Returned printed ds out ->
   Forall (fun c => c = false) (eWc_mask imp self X) ->
   hists out = _hist_event_dict self /\
   sumw out = EWc.sumw_of (negb (has_genWeight X)) (EWc.prepare imp self X)) /\
  (TTdilep.process imp self X = Returned printed ds out ->
   Forall (fun c => c = false) (tt_mask imp self X) ->
   hists out = _hist_event_dict self /\
   sumw out = TTdilep.sumw_of (negb (has_genWeight X)) (TTdilep.prepare imp self X)).
Proof.
  split; intros H Hm.
  - apply process_phase_eWc in H. destruct H as (_ & _ & _ & Hs & Hf).
    split; [|exact Hs]. eapply fill_phase_untouched; [| |exact Hf].
    + intros name cs. apply calls_empty_eWc. apply select_none. exact Hm.
    + apply tail_empty_eWc. apply select_none. exact Hm.
  - apply process_phase_tt in H. destruct H as (_ & _ & _ & Hs & Hf).
    split; [|exact Hs]. eapply fill_phase_untouched; [| |exact Hf].
    + intros name cs. apply calls_empty_tt. apply select_none. exact Hm.
    + apply tail_empty_tt. apply select_none. exact Hm.
Qed.

(** ** Instances on the concrete batches *)

Lemma stored_histograms_accumulate_witness :
  dict_get (_hist_event_dict stored_processor) "njet" =
    inr [Hist.mkEntry None None 7 1] /\
  Ex.hist_of (EWc.process Ex.imp stored_processor Ex.sim2) "njet" =
    [Hist.mkEntry None None 7 1; Hist.mkEntry None None 2 12] /\
  exists out0,
    EWc.process Ex.imp (reset_hists stored_processor) Ex.sim2 = Returned [] "ds" out0 /\
    sumw out0 = sumw (Ex.output_of (EWc.process Ex.imp stored_processor Ex.sim2)) /\
    forall name h0,
      dict_get (_hist_event_dict stored_processor) name = inr h0 ->
      exists added,
        dict_get (hists (Ex.output_of (EWc.process Ex.imp stored_processor Ex.sim2)))
                 name = inr (h0 ++ added) /\
        dict_get (hists out0) name = inr added.
Proof.
  split; [vm_compute; reflexivity|]. split; [vm_compute; reflexivity|].
  apply (proj1 (stored_histograms_accumulate
                  Ex.imp stored_processor Ex.sim2 [] "ds"
                  (Ex.output_of (EWc.process Ex.imp stored_processor Ex.sim2)))).
  vm_compute. reflexivity.
Defined.

Lemma named_histograms_required_witness :
  Forall (fun k => In k (map fst (_hist_event_dict (Ex.processor true Ex.eWc_names))))
         eWc_tail_names /\
  forall printed ds out,
    TTdilep.process Ex.imp (Ex.processor true ["mu_pt"; "njet"]) Ex.sim2 <>
    Returned printed ds out.
Proof.
  split.
  - apply (proj1 (named_histograms_required Ex.imp (Ex.processor true Ex.eWc_names) Ex.sim2)
             [] "ds"
             (Ex.output_of (EWc.process Ex.imp (Ex.processor true Ex.eWc_names) Ex.sim2))).
    vm_compute. reflexivity.
  - apply (proj2 (proj2 (proj2 (named_histograms_required
                                  Ex.imp (Ex.processor true ["mu_pt"; "njet"]) Ex.sim2)))).
    apply Exists_cons_hd. simpl. intros [H|[H|H]]; [discriminate H|discriminate H|exact H].
Defined.


Lemma eWc_selected_event_witness :
  (1 <= List.length (EWc.event_jet Ex.imp (Ex.ev_eWc [Ex.jet_c; Ex.jet_l] 2 1)) <= 3)%nat /\
  EWc.soft_muon_coll Ex.imp (Ex.ev_eWc [Ex.jet_c; Ex.jet_l] 2 1) <> [].
Proof.
  destruct (eWc_selected_event Ex.imp (Ex.processor true Ex.eWc_names) Ex.sim2 0
              (Ex.ev_eWc [Ex.jet_c; Ex.jet_l] 2 1))
    as (_ & _ & _ & Hj & Hs & _).
  - reflexivity.
  - vm_compute. reflexivity.
  - split; assumption.
Defined.

Lemma tt_selected_event_facts_witness :
  (2 <= List.length
          (TTdilep.event_jet Ex.imp
             (mkEvent 1 1 2 (fun _ => true) [Some Ex.ele] [Some Ex.hard_mu]
                      [Ex.jet_c; Ex.jet_l] Ex.met 20)))%nat.
Proof.
  destruct (tt_selected_event_facts Ex.imp (Ex.processor true Ex.tt_names)
              (Ex.batch true Ex.all_hlt [Ex.ev_tt 2 1; Ex.ev_empty 5]) 0
              (mkEvent 1 1 2 (fun _ => true) [Some Ex.ele] [Some Ex.hard_mu]
                       [Ex.jet_c; Ex.jet_l] Ex.met 20))
    as (_ & _ & _ & Hj).
  - reflexivity.
  - vm_compute. reflexivity.
  - exact Hj.
Defined.

Lemma corrections_unused_witness :
  EWc.process (with_readers Ex.imp (fun _ => 7) (fun _ => 9) (fun _ _ _ _ _ => 11))
              (with_tables (Ex.processor true Ex.eWc_names) Ex.ctable Ex.btable
                           Ex.ctable Ex.btable (fun _ => 13))
              (Ex.batch false Ex.all_hlt [Ex.ev_eWc [Ex.jet_c; Ex.jet_l] 2 1]) =
  EWc.process Ex.imp (Ex.processor true Ex.eWc_names)
              (Ex.batch false Ex.all_hlt [Ex.ev_eWc [Ex.jet_c; Ex.jet_l] 2 1]).
Proof.
  apply (proj1 (corrections_unused Ex.imp (Ex.processor true Ex.eWc_names)
                  Ex.ctable Ex.btable Ex.ctable Ex.btable (fun _ => 13)
                  (fun _ => 7) (fun _ => 9) (fun _ _ _ _ _ => 11)
                  (Ex.batch false Ex.all_hlt [Ex.ev_eWc [Ex.jet_c; Ex.jet_l] 2 1])
                  (or_introl eq_refl))).
Defined.

Lemma njet_histogram_witness :
  dict_get
    (hists (Ex.output_of
              (TTdilep.process Ex.imp (Ex.processor true Ex.tt_names)
                               (Ex.batch true Ex.all_hlt [Ex.ev_tt 2 1; Ex.ev_empty 5]))))
    "njet" =
  inr ([] ++ map (fun w => Hist.mkEntry None None 2 w)
                 (TTdilep.wsel Ex.imp (Ex.processor true Ex.tt_names) false
                    (TTdilep.object_selection Ex.imp
                       (TTdilep.prepare Ex.imp (Ex.processor true Ex.tt_names)
                          (Ex.batch true Ex.all_hlt [Ex.ev_tt 2 1; Ex.ev_empty 5])))
                    (tt_mask Ex.imp (Ex.processor true Ex.tt_names)
                       (Ex.batch true Ex.all_hlt [Ex.ev_tt 2 1; Ex.ev_empty 5]))
                    (Weights.new 2))).
Proof.
  refine (proj1 (njet_histogram Ex.imp (Ex.processor true Ex.tt_names)
                   (Ex.batch true Ex.all_hlt [Ex.ev_tt 2 1; Ex.ev_empty 5]) [] "ds"
                   (Ex.output_of
                      (TTdilep.process Ex.imp (Ex.processor true Ex.tt_names)
                         (Ex.batch true Ex.all_hlt [Ex.ev_tt 2 1; Ex.ev_empty 5])))
                   [] _) _).
  - vm_compute. reflexivity.
  - vm_compute. reflexivity.
Defined.

Lemma event_weight_witness :
  exists w,
    nth_error (Weights.weight (EWc.weights Ex.imp (Ex.processor true Ex.eWc_names) false
                                           Ex.sim2 [true; false] (Weights.new 2))) 0
    = Some w /\
    w == 2 * (1 * 2 * 3).
Proof.
  apply (proj1 (event_weight Ex.imp (Ex.processor true Ex.eWc_names) false 0 true)
               Ex.sim2 [true; false] (Ex.ev_eWc [Ex.jet_c; Ex.jet_l] 2 1)).
  - reflexivity.
  - reflexivity.
Defined.

Lemma real_data_weights_witness :
  exists added,
    dict_get
      (hists (Ex.output_of
                (TTdilep.process Ex.imp (Ex.processor true Ex.tt_names)
                                 (Ex.batch false Ex.all_hlt [Ex.ev_tt 2 1]))))
      "jet0_pt" = inr ([] ++ added) /\
    Forall (fun en => Hist.en_weight en = 1) added.
Proof.
  refine (proj1 (real_data_weights Ex.imp (Ex.processor true Ex.tt_names)
                   (Ex.batch false Ex.all_hlt [Ex.ev_tt 2 1]) [] "ds"
                   (Ex.output_of
                      (TTdilep.process Ex.imp (Ex.processor true Ex.tt_names)
                                       (Ex.batch false Ex.all_hlt [Ex.ev_tt 2 1])))
                   "jet0_pt" [] _ _) _).
  - reflexivity.
  - vm_compute. reflexivity.
  - vm_compute. reflexivity.
Defined.

Lemma no_selection_no_fill_witness :
  hists (Ex.output_of (EWc.process Ex.imp (Ex.processor true Ex.eWc_names)
                                   (Ex.batch true Ex.all_hlt [Ex.ev_empty 5]))) =
    _hist_event_dict (Ex.processor true Ex.eWc_names) /\
  sumw (Ex.output_of (EWc.process Ex.imp (Ex.processor true Ex.eWc_names)
                                  (Ex.batch true Ex.all_hlt [Ex.ev_empty 5]))) =
    EWc.sumw_of false (EWc.prepare Ex.imp (Ex.processor true Ex.eWc_names)
                                   (Ex.batch true Ex.all_hlt [Ex.ev_empty 5])).
Proof.
  apply (proj1 (no_selection_no_fill Ex.imp (Ex.processor true Ex.eWc_names)
                  (Ex.batch true Ex.all_hlt [Ex.ev_empty 5]) [] "ds"
                  (Ex.output_of (EWc.process Ex.imp (Ex.processor true Ex.eWc_names)
                                             (Ex.batch true Ex.all_hlt [Ex.ev_empty 5]))))).
  - vm_compute. reflexivity.
  - vm_compute. repeat constructor.
Defined.

(** ** Complete rows *)

Lemma complete_rows2 {A : Type} syst (gv gw : A -> option Q) (l : list A) :
  Forall (fun a => gv a <> None /\ gw a <> None) l ->
  complete (Hist.mkCall syst None (map gv l) (map gw l)).
Proof.
  intros H. unfold complete. cbn [Hist.fc_flav Hist.fc_val Hist.fc_weight].
  rewrite !length_map. repeat split; try reflexivity;
    apply Forall_map; eapply Forall_impl; [|exact H| |exact H]; cbn; tauto.
Qed.

Lemma complete_rows3 {A : Type} syst (gf : A -> option Z) (gv gw : A -> option Q)
      (l : list A) :
  Forall (fun a => gf a <> None /\ gv a <> None /\ gw a <> None) l ->
  complete (Hist.mkCall syst (Some (map gf l)) (map gv l) (map gw l)).
Proof.
  intros H. unfold complete. cbn [Hist.fc_flav Hist.fc_val Hist.fc_weight].
  rewrite !length_map. repeat split; try reflexivity;
    apply Forall_map; eapply Forall_impl; [|exact H| |exact H| |exact H]; cbn; tauto.
Qed.

Lemma complete_jagged {A J : Type} syst (jets : A -> list J) (f : J -> Z) (v : J -> Q)
      (w : A -> option Q) (l : list A) :
  Forall (fun a => w a <> None) l ->
  complete (Hist.mkCall syst
              (Some (map Some (Ak.flatten (map (fun a => map f (jets a)) l))))
              (map Some (Ak.flatten (map (fun a => map v (jets a)) l)))
              (Ak.flatten (Ak.broadcast (map w l) (map jets l)))).
Proof.
  intros H. unfold complete. cbn [Hist.fc_flav Hist.fc_val Hist.fc_weight].
  assert (Hlen : forall (B : Type) (g : J -> B),
             List.length (Ak.flatten (map (fun a => map g (jets a)) l)) =
             List.length (Ak.flatten (map jets l))).
  { intros B g. unfold Ak.flatten. clear H. induction l as [|a l IH]; simpl; [reflexivity|].
    rewrite !length_app, length_map, IH. reflexivity. }
  split; [|split; [|split; [|split]]].
  - apply Forall_map, Forall_forall. intros x _. discriminate.
  - apply Forall_forall. intros x Hx. apply In_flatten_broadcast in Hx.
    apply in_map_iff in Hx. destruct Hx as [a [<- Ha]].
    rewrite Forall_forall in H. apply H. exact Ha.
  - rewrite broadcast_length by (rewrite !length_map; reflexivity).
    rewrite length_map, Hlen. reflexivity.
  - apply Forall_map, Forall_forall. intros x _. discriminate.
  - rewrite !length_map, !Hlen. reflexivity.
Qed.

Ltac present_eWc imp Hinv :=
  apply selected_Forall;
  let e := fresh "e" in
  let He := fresh "He" in
  intros e He;
  let H1 := fresh "H" in
  let H2 := fresh "H" in
  let H3 := fresh "H" in
  let H4 := fresh "H" in
  destruct (Hinv e He) as (H1 & H2 & H3 & H4);
  unfold EWc.lep_add, Ak.lift2;
  destruct (EWc.iso_ele imp e); [|congruence];
  destruct (Ak.first (EWc.soft_muon imp e)); [|congruence];
  destruct (Ak.first (EWc.mu_jet imp e)); [|congruence];
  destruct (EWc.event_jet imp e); [simpl in H4; lia|];
  cbn; repeat split; discriminate.

Section CompleteEWc.

Variable imp : Imports.
Variable self : NanoProcessor.
Variable isRealData : bool.
Variable s : Batch Lepton Lepton.
Variable p : Event Lepton Lepton -> bool.
Variable evs : list (Event Lepton Lepton).
Variable wf : Event Lepton Lepton -> Q.

Hypothesis Hwf :
  Ak.select (map p evs)
            (Weights.weight (EWc.weights imp self isRealData (with_events s evs) (map p evs)
                                         (Weights.new (List.length evs))))
  = map wf (filter p evs).

Hypothesis Hinv :
  forall e, p e = true ->
    EWc.iso_ele imp e <> None /\ Ak.first (EWc.soft_muon imp e) <> None /\
    Ak.first (EWc.mu_jet imp e) <> None /\
    (1 <= List.length (EWc.event_jet imp e))%nat.

Lemma btag_calls_complete_eWc i d (flavf : Event Lepton Lepton -> option Z)
      (jetf : Event Lepton Lepton -> option Jet) cs :
  Forall (fun e => flavf e <> None /\ jetf e <> None) (filter p evs) ->
  EWc.btag_calls imp self isRealData (with_events s evs) (map p evs)
                 (Weights.new (List.length evs)) i d
                 (map flavf (filter p evs)) (map jetf (filter p evs)) = inr cs ->
  Forall complete cs.
Proof.
  intros Hpres.
  assert (Hnom : complete
                   (Hist.mkCall (Some "noSF") (Some (map flavf (filter p evs)))
                      (EWc.discr_col d (map jetf (filter p evs)))
                      (EWc.wsel imp self isRealData (with_events s evs) (map p evs)
                                (Weights.new (List.length evs))))).
  { unfold EWc.discr_col.
    rewrite (wsel_rows imp self isRealData s p evs wf Hwf), map_map.
    apply complete_rows3. rewrite Forall_forall in Hpres |- *. intros e He.
    destruct (Hpres e He) as [Hf Hj].
    apply filter_In in He. destruct (Hinv e (proj2 He)) as (H1 & H2 & _).
    destruct (flavf e); [|congruence]. destruct (jetf e); [|congruence].
    destruct (EWc.iso_ele imp e); [|congruence].
    destruct (Ak.first (EWc.soft_muon imp e)); [|congruence].
    cbn. repeat split; discriminate. }
  unfold EWc.btag_calls. cbv zeta.
  destruct (negb isRealData && isCorr self).
  - destruct (disc_rows_eWc imp self s p d i) as [Herr|[fs Hfs]].
    + intros H. rewrite Herr in H. discriminate.
    + intros H. destruct (Hfs evs) as [sfs [Hd Hdd]]. rewrite Hd in H. cbn [bind] in H.
      injection H as <-. constructor; [exact Hnom|].
      rewrite Hdd, map_map. apply Forall_map, Forall_forall. intros kf _. cbn [fst snd].
      unfold EWc.discr_col.
      rewrite smuon_jet_rows, !map_map.
      rewrite (wsel_sf_rows imp self isRealData s p evs wf Hwf).
      apply complete_rows3. rewrite Forall_forall in Hpres |- *. intros e He.
      destruct (Hpres e He) as [Hf Hj].
      apply filter_In in He. destruct (Hinv e (proj2 He)) as (H1 & H2 & H3 & _).
      destruct (flavf e); [|congruence]. destruct (jetf e); [|congruence].
      destruct (EWc.iso_ele imp e); [|congruence].
      destruct (Ak.first (EWc.soft_muon imp e)); [|congruence].
      destruct (Ak.first (EWc.mu_jet imp e)); [|congruence].
      cbn. repeat split; discriminate.
  - intros H. injection H as <-. constructor; [exact Hnom|constructor].
Qed.

Lemma loop_calls_complete_eWc name cs :
  EWc.loop_calls imp self isRealData (with_events s evs) (map p evs)
                 (Weights.new (List.length evs)) name = inr cs ->
  Forall complete cs.
Proof.
  unfold EWc.loop_calls, EWc.wjets.
  assert (Hw : Forall (fun e => option_map (Qmult (wf e))
                                  (Ak.lift2 (fun l m => inject_Z (mul32 (mul32 (charge l) (charge m)) (-1)))
                                            (EWc.iso_ele imp e)
                                            (Ak.first (EWc.soft_muon imp e))) <> None)
                      (filter p evs)) by present_eWc imp Hinv.
  destruct (Str.contains "Deep" name && negb (Str.contains "btag" name)).
  { intros H. injection H as <-. constructor; [|constructor].
    rewrite genflavor_rows, sjets_rows, (wsel_rows imp self isRealData s p evs wf Hwf),
      !map_map.
    apply (complete_jagged None (EWc.event_jet imp)). exact Hw. }
  destruct (Str.contains "jet_" name && negb (Str.contains "mu" name)).
  { intros H. injection H as <-. constructor; [|constructor].
    rewrite genflavor_rows, sjets_rows, (wsel_rows imp self isRealData s p evs wf Hwf),
      !map_map.
    apply (complete_jagged None (EWc.event_jet imp)). exact Hw. }
  destruct (Str.contains "hl_" name && in_fields (Str.remove "hl_" name) _).
  { intros H. injection H as <-. constructor; [|constructor].
    rewrite shmu_rows, (wsel_rows imp self isRealData s p evs wf Hwf), !map_map.
    rewrite drop_none_present by present_eWc imp Hinv.
    apply complete_rows2. present_eWc imp Hinv. }
  destruct (Str.contains "soft_l" name && in_fields (Str.remove "soft_l_" name) _).
  { intros H. injection H as <-. constructor; [|constructor].
    rewrite ssmu_rows, (wsel_rows imp self isRealData s p evs wf Hwf), !map_map.
    rewrite drop_none_present by present_eWc imp Hinv.
    apply complete_rows2. present_eWc imp Hinv. }
  destruct (Str.contains "MET" name).
  { intros H. injection H as <-. constructor; [|constructor].
    rewrite sMET_rows, (wsel_rows imp self isRealData s p evs wf Hwf), !map_map.
    apply complete_rows2. present_eWc imp Hinv. }
  destruct (Str.contains "mujet_" name).
  { intros H. injection H as <-. constructor; [|constructor].
    rewrite smflav_rows, smuon_jet_rows,
      (wsel_rows imp self isRealData s p evs wf Hwf), !map_map.
    rewrite drop_none_present by present_eWc imp Hinv.
    apply complete_rows3. present_eWc imp Hinv. }
  destruct (Str.contains "btagDeep" name && Str.contains "0" name).
  { rewrite smflav_rows, smuon_jet_rows. apply btag_calls_complete_eWc.
    present_eWc imp Hinv. }
  destruct (Str.contains "btagDeep" name && Str.contains "1" name); cbn [andb];
    [|intros H; injection H as <-; constructor].
  destruct (forallb _ _) eqn:Hg; [|intros H; injection H as <-; constructor].
  rewrite genflavor_rows, sjets_rows, !map_map.
  apply btag_calls_complete_eWc.
  rewrite njet_rows, forallb_forall in Hg. apply Forall_forall. intros e He.
  specialize (Hg (Ak.count_all (EWc.event_jet imp e)) (in_map _ _ _ He)).
  apply Nat.ltb_lt in Hg. unfold Ak.count_all in Hg.
  destruct (EWc.event_jet imp e) as [|j0 [|j1 js]]; simpl in Hg; try lia.
  cbn. split; discriminate.
Qed.

Lemma tail_calls_complete_eWc :
  Forall (fun kc => complete (snd kc))
         (EWc.tail_calls imp self isRealData (with_events s evs) (map p evs)
                         (Weights.new (List.length evs))).
Proof.
  unfold EWc.tail_calls, EWc.p4_col. cbv zeta.
  rewrite njet_rows, genflavor_rows, sjets_rows, shmu_rows, ssmu_rows, smuon_jet_rows,
    smflav_rows, sz_rows, sw_rows, (wsel_rows imp self isRealData s p evs wf Hwf).
  rewrite !map_map, !map2_map_map.
  rewrite !drop_none_present by present_eWc imp Hinv.
  repeat (apply Forall_cons;
          [cbn [snd]; first [apply complete_rows3 | apply complete_rows2];
           present_eWc imp Hinv|]).
  apply Forall_nil.
Qed.

End CompleteEWc.

Ltac present_tt Hsel :=
  eapply Forall_impl; [|exact Hsel];
  let e := fresh "e" in
  let m := fresh "m" in
  let l := fresh "l" in
  let Hm := fresh "Hm" in
  let Hl := fresh "Hl" in
  let Hj := fresh "Hj" in
  intros e ([m Hm] & [l Hl] & ? & ? & ? & Hj);
  rewrite ?Hm, ?Hl, ?Hj; cbn; repeat split; discriminate.

Ltac present_tt_at Hsel i :=
  eapply Forall_impl; [|exact Hsel];
  let e := fresh "e" in
  let m := fresh "m" in
  let l := fresh "l" in
  let Hm := fresh "Hm" in
  let Hl := fresh "Hl" in
  let Hj := fresh "Hj" in
  intros e ([m Hm] & [l Hl] & ? & ? & ? & Hj);
  rewrite ?Hm, ?Hl, ?Hj;
  destruct i as [|[|?]]; [| |lia]; cbn; repeat split; discriminate.

Section CompleteTT.

Variable imp : Imports.
Variable self : NanoProcessor.
Variable isRealData : bool.
Variable s : TTdilep.SelBatch.
Variable p : TTdilep.SelEvent -> bool.
Variable evs : list TTdilep.SelEvent.
Variable wf : TTdilep.SelEvent -> Q.

Hypothesis Hsel : Forall (tt_selected_event imp) (filter p evs).
Hypothesis Hwf :
  TTdilep.wsel imp self isRealData (with_events s evs) (map p evs)
               (Weights.new (List.length evs)) = map wf (filter p evs).

Lemma btag_calls_complete_tt i name cs :
  (i < 2)%nat ->
  TTdilep.btag_calls imp self isRealData (with_events s evs) (map p evs)
                     (Weights.new (List.length evs)) i name = inr cs ->
  Forall complete cs.
Proof.
  intros Hi.
  assert (Hnom : forall d,
             complete
               (Hist.mkCall (Some "noSF")
                  (Some (TTdilep.flav_col imp isRealData (with_events s evs) (map p evs) i))
                  (TTdilep.discr_col d
                     (TTdilep.sjets_at imp (with_events s evs) (map p evs) i))
                  (map Some (TTdilep.wsel imp self isRealData (with_events s evs)
                                          (map p evs) (Weights.new (List.length evs)))))).
  { intros d.
    rewrite (flav_col_rows_tt imp isRealData s p evs Hsel i Hi),
      (discr_col_rows_tt imp s p evs Hsel d i Hi), Hwf, map_map.
    apply complete_rows3. present_tt_at Hsel i. }
  unfold TTdilep.btag_calls. cbv zeta.
  destruct (negb isRealData && isCorr self).
  - destruct (disc_rows_tt imp self s p (Str.remove (String.append "_" (TTdilep.str i)) name)
                           i Hi) as [Herr|[fs Hfs]].
    + intros H. rewrite Herr in H. discriminate.
    + intros H. destruct (Hfs evs) as [sfs [Hd Hdd]]. rewrite Hd in H. cbn [bind] in H.
      injection H as <-. constructor; [apply Hnom|].
      rewrite Hdd, map_map. apply Forall_map, Forall_forall. intros kf _. cbn [fst snd].
      unfold TTdilep.wsel_sf.
      rewrite (flav_col_rows_tt imp isRealData s p evs Hsel i Hi),
        (discr_col_rows_tt imp s p evs Hsel _ i Hi), Hwf.
      rewrite sjets_at_rows_tt, !map_map, map2_map_map.
      apply complete_rows3. present_tt_at Hsel i.
  - intros H. injection H as <-. constructor; [apply Hnom|constructor].
Qed.

Lemma for_jets_complete name body cs :
  (forall c, body 0%nat = inr c -> Forall complete c) ->
  (forall c, body 1%nat = inr c -> Forall complete c) ->
  TTdilep.for_jets name body = inr cs -> Forall complete cs.
Proof.
  intros H0 H1. unfold TTdilep.for_jets.
  destruct (Str.contains (TTdilep.str 0) name), (Str.contains (TTdilep.str 1) name);
    [destruct (body 0%nat) as [e|c0]; [discriminate|];
     destruct (body 1%nat) as [e|c1]; [discriminate|]
    |destruct (body 0%nat) as [e|c0]; [discriminate|]
    |destruct (body 1%nat) as [e|c1]; [discriminate|]
    |];
    cbn [bind]; intros H; injection H as <-;
    rewrite ?Forall_app; repeat split; auto using Forall_nil.
Qed.

Lemma loop_calls_complete_tt name cs :
  TTdilep.loop_calls imp self isRealData (with_events s evs) (map p evs)
                     (Weights.new (List.length evs)) name = inr cs ->
  Forall complete cs.
Proof.
  unfold TTdilep.loop_calls.
  destruct (Str.contains "Deep" name && negb (Str.contains "btag" name)).
  { intros H. injection H as <-. constructor; [|constructor].
    rewrite genflavor_rows_tt, sjets_rows_tt, Hwf, !map_map.
    rewrite <- broadcast_map, map_map.
    apply (complete_jagged None (fun e => firstn 2 (TTdilep.event_jet imp e))).
    apply Forall_forall. intros e _. discriminate. }
  destruct (Str.contains "btagDeep" name).
  { intros H. eapply for_jets_complete; [| |exact H]; intros c Hc;
      eapply btag_calls_complete_tt; try exact Hc; lia. }
  destruct (Str.contains "mu_" name && in_fields (Str.remove "mu_" name) _).
  { intros H. injection H as <-. constructor; [|constructor].
    rewrite (mu_col_rows_tt imp s p evs Hsel), Hwf, map_map.
    apply complete_rows2. present_tt Hsel. }
  destruct (Str.contains "ele_" name && in_fields (Str.remove "ele_" name) _).
  { intros H. injection H as <-. constructor; [|constructor].
    rewrite (ele_col_rows_tt imp s p evs Hsel), Hwf, map_map.
    apply complete_rows2. present_tt Hsel. }
  destruct (Str.contains "jet" name && negb (Str.contains "dr" name) &&
            negb (String.eqb "njet" name)).
  { intros H. eapply for_jets_complete; [| |exact H]; intros c Hc;
      injection Hc as <-; (constructor; [|constructor]).
    - rewrite (flav_col_rows_tt imp isRealData s p evs Hsel 0 Nat.lt_0_2),
        (jet_col_rows_tt imp s p evs Hsel _ 0 Nat.lt_0_2), Hwf, map_map.
      apply complete_rows3. present_tt Hsel.
    - rewrite (flav_col_rows_tt imp isRealData s p evs Hsel 1 Nat.lt_1_2),
        (jet_col_rows_tt imp s p evs Hsel _ 1 Nat.lt_1_2), Hwf, map_map.
      apply complete_rows3. present_tt Hsel. }
  intros H. injection H as <-. constructor.
Qed.

Lemma tail_calls_complete_tt :
  Forall (fun kc => complete (snd kc))
         (TTdilep.tail_calls imp self isRealData (with_events s evs) (map p evs)
                             (Weights.new (List.length evs))).
Proof.
  unfold TTdilep.tail_calls. cbn [map app].
  rewrite (flav_col_rows_tt imp isRealData s p evs Hsel 0 Nat.lt_0_2),
    (flav_col_rows_tt imp isRealData s p evs Hsel 1 Nat.lt_1_2),
    (dr_mujet_rows_tt imp s p evs Hsel 0 Nat.lt_0_2),
    (dr_mujet_rows_tt imp s p evs Hsel 1 Nat.lt_1_2), sjets_rows_tt, Hwf.
  rewrite !map_map.
  apply Forall_cons; [cbn [snd]; apply complete_rows3; present_tt Hsel|].
  apply Forall_cons; [cbn [snd]; apply complete_rows3; present_tt Hsel|].
  apply Forall_cons; [cbn [snd]; apply complete_rows2; present_tt Hsel|].
  apply Forall_nil.
Qed.

End CompleteTT.

Lemma complete_entries c :
  complete c -> List.length (Hist.entries c) = List.length (Hist.fc_val c).
Proof.
  unfold complete, Hist.entries. destruct c as [sy fl v w]. cbn.
  intros (Hv & Hw & Hl & Hf). destruct fl as [fl|].
  - destruct Hf as [Hf Hlf]. revert fl w Hw Hl Hf Hlf.
    induction Hv as [|x v Hx Hv IH]; intros [|f fl] [|y w] Hw Hl Hf Hlf;
      simpl in *; try discriminate; auto.
    inversion Hw; inversion Hf; subst.
    destruct f; [|congruence]. destruct x; [|congruence]. destruct y; [|congruence].
    simpl. f_equal. apply IH; auto.
  - clear Hf. revert w Hw Hl.
    induction Hv as [|x v Hx Hv IH]; intros [|y w] Hw Hl; simpl in *; try discriminate; auto.
    inversion Hw; subst.
    destruct x; [|congruence]. destruct y; [|congruence].
    simpl. f_equal. apply IH; auto.
Qed.

(** X11 - every fill call that [process] makes has complete rows: no value,
    weight or flavour is missing and the columns of the call have one length,
    because the mask guarantees the objects that the fills read (in eWc the
    isolated electron, the soft muon, the muon-jet and a first jet; in ttdilep
    the muon, the electron and two jets; the second jet of eWc behind the
    guard).  Each row thus gives exactly one entry.  The number of events
    must be the same before and after the jet correction, since the weights
    are sized before it. *)
Theorem fills_complete imp self (X : Batch Lepton Lepton) name cs :
  (len (missing_branch imp X) = len (EWc.prepare imp self X) ->
   (EWc.loop_calls imp self (negb (has_genWeight X)) (EWc.prepare imp self X)
                   (eWc_mask imp self X) (Weights.new (len (missing_branch imp X))) name
    = inr cs ->
    Forall (fun c => complete c /\
                     List.length (Hist.entries c) = List.length (Hist.fc_val c)) cs) /\
   Forall (fun kc => complete (snd kc) /\
                     List.length (Hist.entries (snd kc)) =
                     List.length (Hist.fc_val (snd kc)))
          (EWc.tail_calls imp self (negb (has_genWeight X)) (EWc.prepare imp self X)
                          (eWc_mask imp self X) (Weights.new (len (missing_branch imp X))))) /\
  (len (missing_branch imp X) = len (TTdilep.prepare imp self X) ->
   (TTdilep.loop_calls imp self (negb (has_genWeight X))
                       (TTdilep.object_selection imp (TTdilep.prepare imp self X))
                       (tt_mask imp self X) (Weights.new (len (missing_branch imp X))) name
    = inr cs ->
    Forall (fun c => complete c /\
                     List.length (Hist.entries c) = List.length (Hist.fc_val c)) cs) /\
   Forall (fun kc => complete (snd kc) /\
                     List.length (Hist.entries (snd kc)) =
                     List.length (Hist.fc_val (snd kc)))
          (TTdilep.tail_calls imp self (negb (has_genWeight X))
                              (TTdilep.object_selection imp (TTdilep.prepare imp self X))
                              (tt_mask imp self X)
                              (Weights.new (len (missing_branch imp X))))).
Proof.
  split; intros Hlen.
  - rewrite Hlen, eWc_mask_rows. unfold len.
    rewrite <- (with_events_self (EWc.prepare imp self X)) at 1 5.
    destruct (weights_rows_eWc imp self (negb (has_genWeight X)) (EWc.prepare imp self X)
                (eWc_row_level imp self (negb (has_genWeight X))
                   (filter (hasattr_HLT (EWc.prepare imp self X)) EWc.triggers)))
      as [wf Hwf].
    assert (Hinv : forall e,
               eWc_row_level imp self (negb (has_genWeight X))
                 (filter (hasattr_HLT (EWc.prepare imp self X)) EWc.triggers) e = true ->
               EWc.iso_ele imp e <> None /\ Ak.first (EWc.soft_muon imp e) <> None /\
               Ak.first (EWc.mu_jet imp e) <> None /\
               (1 <= List.length (EWc.event_jet imp e))%nat).
    { intros e He. destruct (eWc_selected _ _ _ _ _ He) as (H1 & H2 & H3).
      destruct (eWc_row_facts _ _ _ _ _ He) as (_ & _ & _ & Hj & _).
      repeat split; try assumption. lia. }
    split.
    + intros H. eapply Forall_impl;
        [|exact (loop_calls_complete_eWc imp self _ _ _ _ wf (Hwf _) Hinv name cs H)].
      intros c Hc. split; [exact Hc | apply complete_entries; exact Hc].
    + eapply Forall_impl;
        [|exact (tail_calls_complete_eWc imp self _ _ _ _ wf (Hwf _) Hinv)].
      intros c Hc. split; [exact Hc | apply complete_entries; exact Hc].
  - rewrite Hlen, tt_mask_rows.
    rewrite <- (len_object_selection imp (TTdilep.prepare imp self X)). unfold len.
    rewrite <- (with_events_self
                  (TTdilep.object_selection imp (TTdilep.prepare imp self X))) at 1 5.
    destruct (weights_rows_tt imp self (negb (has_genWeight X))
                (TTdilep.object_selection imp (TTdilep.prepare imp self X))
                (tt_row_level imp self (negb (has_genWeight X))
                   (filter (hasattr_HLT (TTdilep.prepare imp self X)) TTdilep.triggers)))
      as [wf Hwf].
    assert (Hsel : Forall (tt_selected_event imp)
                     (filter (tt_row_level imp self (negb (has_genWeight X))
                                (filter (hasattr_HLT (TTdilep.prepare imp self X))
                                        TTdilep.triggers))
                             (events (TTdilep.object_selection imp
                                        (TTdilep.prepare imp self X))))).
    { eapply selected_Forall_in; [apply padded_object_selection|].
      intros e He Hp. eapply tt_selected; eauto. }
    split.
    + intros H. eapply Forall_impl;
        [|exact (loop_calls_complete_tt imp self _ _ _ _ wf Hsel (Hwf _) name cs H)].
      intros c Hc. split; [exact Hc | apply complete_entries; exact Hc].
    + eapply Forall_impl;
        [|exact (tail_calls_complete_tt imp self _ _ _ _ wf Hsel (Hwf _))].
      intros c Hc. split; [exact Hc | apply complete_entries; exact Hc].
Qed.

Lemma fills_complete_witness :
  Forall (fun c => complete c /\
                   List.length (Hist.entries c) = List.length (Hist.fc_val c))
         (match EWc.loop_calls Ex.imp (Ex.processor true Ex.eWc_names) false
                  (EWc.prepare Ex.imp (Ex.processor true Ex.eWc_names) Ex.twojets)
                  (eWc_mask Ex.imp (Ex.processor true Ex.eWc_names) Ex.twojets)
                  (Weights.new (len (missing_branch Ex.imp Ex.twojets))) "btagDeepB_1" with
          | inr cs => cs
          | inl _ => []
          end) /\
  Forall (fun kc => complete (snd kc) /\
                    List.length (Hist.entries (snd kc)) =
                    List.length (Hist.fc_val (snd kc)))
         (TTdilep.tail_calls Ex.imp (Ex.processor true Ex.tt_names) false
            (TTdilep.object_selection Ex.imp
               (TTdilep.prepare Ex.imp (Ex.processor true Ex.tt_names)
                  (Ex.batch true Ex.all_hlt [Ex.ev_tt 2 1; Ex.ev_empty 5])))
            (tt_mask Ex.imp (Ex.processor true Ex.tt_names)
               (Ex.batch true Ex.all_hlt [Ex.ev_tt 2 1; Ex.ev_empty 5]))
            (Weights.new (len (missing_branch Ex.imp
                                 (Ex.batch true Ex.all_hlt [Ex.ev_tt 2 1; Ex.ev_empty 5]))))).
Proof.
  split.
  - apply (proj1 (proj1 (fills_complete Ex.imp (Ex.processor true Ex.eWc_names) Ex.twojets
                           "btagDeepB_1" _) eq_refl)).
    vm_compute. reflexivity.
  - apply (proj2 (proj2 (fills_complete Ex.imp (Ex.processor true Ex.tt_names)
                           (Ex.batch true Ex.all_hlt [Ex.ev_tt 2 1; Ex.ev_empty 5])
                           "njet" []) eq_refl)).
Defined.

(** ** The flavour labels of real data *)

Lemma In_entries_flav en c :
  In en (Hist.entries c) ->
  match Hist.fc_flav c with
  | None => Hist.en_flav en = None
  | Some fl => exists f, Hist.en_flav en = Some f /\ In (Some f) fl
  end.
Proof.
  unfold Hist.entries. destruct (Hist.fc_flav c); intros H.
  - apply rows3_in in H. tauto.
  - apply rows2_in in H. tauto.
Qed.

Lemma zeros_flatten {A : Type} (jag : list (list A)) z :
  In z (Ak.flatten (map (map (fun _ => 0%Z)) jag)) -> z = 0%Z.
Proof.
  unfold Ak.flatten. intros H. apply in_concat in H. destruct H as [l [Hl Hz]].
  apply in_map_iff in Hl. destruct Hl as [r [<- _]].
  apply in_map_iff in Hz. destruct Hz as [a [<- _]]. reflexivity.
Qed.

Lemma zeros_pick {A : Type} (g : list Z -> option Z) (jag : list (list A)) z :
  (forall fs x, g fs = Some x -> In x fs) ->
  In (Some z) (map g (map (map (fun _ => 0%Z)) jag)) -> z = 0%Z.
Proof.
  intros Hg H. apply in_map_iff in H. destruct H as [fs [Hn Hfs]].
  apply in_map_iff in Hfs. destruct Hfs as [r [<- _]].
  apply Hg in Hn. apply in_map_iff in Hn. destruct Hn as [a [<- _]]. reflexivity.
Qed.

Lemma zeros_drop_pick {A : Type} (g : list Z -> option Z) (jag : list (list A)) z :
  (forall fs x, g fs = Some x -> In x fs) ->
  In (Some z) (map Some (Ak.drop_none (map g (map (map (fun _ => 0%Z)) jag)))) -> z = 0%Z.
Proof.
  intros Hg H. apply in_map_iff in H. destruct H as [z' [Hz H]]. injection Hz as ->.
  unfold Ak.drop_none in H. apply in_flat_map in H. destruct H as [x [Hx Hz]].
  destruct x as [y|]; [|contradiction]. destruct Hz as [->|[]].
  eapply zeros_pick; [exact Hg | exact Hx].
Qed.

Ltac pick_in :=
  let fs := fresh "fs" in
  let x := fresh "x" in
  let Hx := fresh "Hx" in
  intros fs x Hx;
  first [ exact (nth_error_In fs 0 Hx) | exact (nth_error_In fs 1 Hx) ].

Lemma zeros_option {A : Type} (col : list (option A)) z :
  In (Some z) (map (option_map (fun _ => 0%Z)) col) -> z = 0%Z.
Proof.
  intros H. apply in_map_iff in H. destruct H as [[a|] [Hz _]]; [|discriminate].
  injection Hz as <-. reflexivity.
Qed.

Ltac zero_flav :=
  let fl := fresh "fl" in
  let Hfl := fresh "Hfl" in
  let z := fresh "z" in
  let Hz := fresh "Hz" in
  cbn [Hist.fc_flav]; intros fl Hfl z Hz;
  first
    [ discriminate Hfl
    | injection Hfl as <-;
      first
        [ apply in_map_iff in Hz; destruct Hz as [? [Hfl Hz]]; injection Hfl as ->;
          eapply zeros_flatten; exact Hz
        | eapply zeros_drop_pick; [|exact Hz]; pick_in
        | eapply zeros_pick; [|exact Hz]; pick_in
        | eapply zeros_option; exact Hz ] ].

Lemma call_flavs_eWc imp self b lvl w0 name cs :
  EWc.loop_calls imp self true b lvl w0 name = inr cs ->
  Forall (fun c => forall fl, Hist.fc_flav c = Some fl ->
                              forall z, In (Some z) fl -> z = 0%Z) cs.
Proof.
  unfold EWc.loop_calls, EWc.btag_calls, EWc.genflavor, EWc.smflav.
  cbv zeta. cbn [negb andb].
  repeat match goal with
         | |- context [if ?c then _ else _] => destruct c
         end;
    intros H; injection H as <-;
    repeat first [ apply Forall_nil | apply Forall_cons; [zero_flav|] ].
Qed.

Lemma tail_flavs_eWc imp self b lvl w0 :
  Forall (fun kc => forall fl, Hist.fc_flav (snd kc) = Some fl ->
                               forall z, In (Some z) fl -> z = 0%Z)
         (EWc.tail_calls imp self true b lvl w0).
Proof.
  unfold EWc.tail_calls, EWc.genflavor, EWc.smflav. cbv zeta.
  repeat first [ apply Forall_nil | apply Forall_cons; [cbn [snd]; zero_flav|] ].
Qed.

Lemma call_flavs_tt imp self b lvl w0 name cs :
  TTdilep.loop_calls imp self true b lvl w0 name = inr cs ->
  Forall (fun c => forall fl, Hist.fc_flav c = Some fl ->
                              forall z, In (Some z) fl -> z = 0%Z) cs.
Proof.
  unfold TTdilep.loop_calls, TTdilep.for_jets, TTdilep.btag_calls, TTdilep.flav_col,
    TTdilep.genflavor_at, TTdilep.genflavor.
  cbv zeta. cbn [negb andb].
  repeat match goal with
         | |- context [if ?c then _ else _] => destruct c
         end;
    cbn [bind app]; intros H; injection H as <-;
    repeat first [ apply Forall_nil | apply Forall_cons; [zero_flav|] ].
Qed.

Lemma tail_flavs_tt imp self b lvl w0 :
  Forall (fun kc => forall fl, Hist.fc_flav (snd kc) = Some fl ->
                               forall z, In (Some z) fl -> z = 0%Z)
         (TTdilep.tail_calls imp self true b lvl w0).
Proof.
  unfold TTdilep.tail_calls, TTdilep.flav_col, TTdilep.genflavor_at, TTdilep.genflavor.
  cbn [map app].
  repeat first [ apply Forall_nil | apply Forall_cons; [cbn [snd]; zero_flav|] ].
Qed.

Lemma zero_flav_entry c en :
  (forall fl, Hist.fc_flav c = Some fl -> forall z, In (Some z) fl -> z = 0%Z) ->
  In en (Hist.entries c) ->
  Hist.en_flav en = None \/ Hist.en_flav en = Some 0%Z.
Proof.
  intros Hc Hin. apply In_entries_flav in Hin.
  destruct (Hist.fc_flav c) as [fl|]; [|left; exact Hin].
  destruct Hin as [f [Hf Hin]]. right. rewrite Hf. f_equal. eapply Hc; eauto.
Qed.

(** X12 - for real data there is no generator flavour: every entry that a
    returning call adds to a histogram with a flavour axis carries the label
    0 (entries of histograms without that axis carry none). *)
Theorem real_data_flavour imp self (X : Batch Lepton Lepton) printed ds out name h0 :
  has_genWeight X = false ->
  dict_get (_hist_event_dict self) name = inr h0 ->
  (EWc.process imp self X = Returned printed ds out ->
   exists added,
     dict_get (hists out) name = inr (h0 ++ added) /\
     Forall (fun en => Hist.en_flav en = None \/ Hist.en_flav en = Some 0%Z) added) /\
  (TTdilep.process imp self X = Returned printed ds out ->
   exists added,
     dict_get (hists out) name = inr (h0 ++ added) /\
     Forall (fun en => Hist.en_flav en = None \/ Hist.en_flav en = Some 0%Z) added).
Proof.
  intros Hgw H0. split; intros H.
  - apply process_phase_eWc in H. destruct H as (_ & _ & _ & _ & Hf).
    rewrite Hgw in Hf. cbn [negb] in Hf.
    destruct (fill_phase_added _ _ _ _ _ _ Hf H0) as [added [Hd Hen]].
    exists added. split; [exact Hd|]. apply Forall_forall. intros en Hin.
    destruct (Hen en Hin) as [c [Hc Hin']].
    apply (zero_flav_entry c en); [|exact Hin'].
    destruct Hc as [[cs [Hcs Hc]]|Hc].
    + pose proof (call_flavs_eWc _ _ _ _ _ _ _ Hcs) as Hall.
      rewrite Forall_forall in Hall. exact (Hall c Hc).
    + apply in_map_iff in Hc. destruct Hc as [kc [<- Hkc]].
      pose proof (tail_flavs_eWc imp self (EWc.prepare imp self X) (eWc_mask imp self X)
                    (Weights.new (len (missing_branch imp X)))) as Hall.
      rewrite Forall_forall in Hall. exact (Hall kc Hkc).
  - apply process_phase_tt in H. destruct H as (_ & _ & _ & _ & Hf).
    rewrite Hgw in Hf. cbn [negb] in Hf.
    destruct (fill_phase_added _ _ _ _ _ _ Hf H0) as [added [Hd Hen]].
    exists added. split; [exact Hd|]. apply Forall_forall. intros en Hin.
    destruct (Hen en Hin) as [c [Hc Hin']].
    apply (zero_flav_entry c en); [|exact Hin'].
    destruct Hc as [[cs [Hcs Hc]]|Hc].
    + pose proof (call_flavs_tt _ _ _ _ _ _ _ Hcs) as Hall.
      rewrite Forall_forall in Hall. exact (Hall c Hc).
    + apply in_map_iff in Hc. destruct Hc as [kc [<- Hkc]].
      pose proof (tail_flavs_tt imp self
                    (TTdilep.object_selection imp (TTdilep.prepare imp self X))
                    (tt_mask imp self X)
                    (Weights.new (len (missing_branch imp X)))) as Hall.
      rewrite Forall_forall in Hall. exact (Hall kc Hkc).
Qed.

Lemma real_data_flavour_witness :
  exists added,
    dict_get
      (hists (Ex.output_of
                (EWc.process Ex.imp (Ex.processor true Ex.eWc_names)
                   (Ex.batch false Ex.all_hlt [Ex.ev_eWc [Ex.jet_c; Ex.jet_l] 2 1]))))
      "jet_pt" = inr ([] ++ added) /\
    Forall (fun en => Hist.en_flav en = None \/ Hist.en_flav en = Some 0%Z) added.
Proof.
  refine (proj1 (real_data_flavour Ex.imp (Ex.processor true Ex.eWc_names)
                   (Ex.batch false Ex.all_hlt [Ex.ev_eWc [Ex.jet_c; Ex.jet_l] 2 1])
                   [] "ds"
                   (Ex.output_of
                      (EWc.process Ex.imp (Ex.processor true Ex.eWc_names)
                         (Ex.batch false Ex.all_hlt [Ex.ev_eWc [Ex.jet_c; Ex.jet_l] 2 1])))
                   "jet_pt" [] _ _) _).
  - reflexivity.
  - vm_compute. reflexivity.
  - vm_compute. reflexivity.
Defined.

(** ** The names of the output *)

(** X13 - a returning call gives back exactly the histograms of the
    processor, under the same names and in the same order: the fills never
    add, drop, rename or reorder a histogram (a histogram whose name no fill
    addresses is kept, with its stored content). *)
Theorem output_names imp self (X : Batch Lepton Lepton) printed ds out :
  (EWc.process imp self X = Returned printed ds out ->
   map fst (hists out) = map fst (_hist_event_dict self) /\
   forall name, (exists h, dict_get (hists out) name = inr h) <->
                In name (map fst (_hist_event_dict self))) /\
  (TTdilep.process imp self X = Returned printed ds out ->
   map fst (hists out) = map fst (_hist_event_dict self) /\
   forall name, (exists h, dict_get (hists out) name = inr h) <->
                In name (map fst (_hist_event_dict self))).
Proof.
  assert (Hk : forall (hs hs' : list (string * Hist.t)),
             map fst hs' = map fst hs ->
             forall name, (exists h, dict_get hs' name = inr h) <-> In name (map fst hs)).
  { intros hs hs' Heq name. rewrite <- Heq. split.
    - intros [h Hd]. apply dict_get_present in Hd. destruct Hd as [Hd _]. exact Hd.
    - intros Hin. destruct (dict_get hs' name) as [e|h] eqn:Hd; [|eauto].
      apply dict_get_absent in Hd. contradiction. }
  split; intros H.
  - apply process_phase_eWc in H. destruct H as (_ & _ & _ & _ & Hf).
    pose proof (fill_phase_keys _ _ _ _ Hf) as Hkeys. split; [exact Hkeys|].
    apply Hk. exact Hkeys.
  - apply process_phase_tt in H. destruct H as (_ & _ & _ & _ & Hf).
    pose proof (fill_phase_keys _ _ _ _ Hf) as Hkeys. split; [exact Hkeys|].
    apply Hk. exact Hkeys.
Qed.

Lemma output_names_witness :
  map fst (hists (Ex.output_of
                    (TTdilep.process Ex.imp (Ex.processor true Ex.tt_names)
                       (Ex.batch true Ex.all_hlt [Ex.ev_tt 2 1; Ex.ev_empty 5])))) =
  Ex.tt_names.
Proof.
  refine (eq_trans
            (proj1 (proj2 (output_names Ex.imp (Ex.processor true Ex.tt_names)
                             (Ex.batch true Ex.all_hlt [Ex.ev_tt 2 1; Ex.ev_empty 5])
                             [] "ds"
                             (Ex.output_of
                                (TTdilep.process Ex.imp (Ex.processor true Ex.tt_names)
                                   (Ex.batch true Ex.all_hlt [Ex.ev_tt 2 1; Ex.ev_empty 5]))))
                          _)) _).
  - vm_compute. reflexivity.
  - reflexivity.
Defined.
